(** * Prime (SchoolConnect): the school route handlers and the schema bootstrap

    A shallow embedding of
      - [src/app/api/schools/[id]/route.ts]  (handlers [PUT], [GET], [DELETE])
      - [src/lib/database.ts]                (the DDL and [initializeDatabase])
    together with the properties the specification states about them.

    Conventions.
      - A JavaScript string is the list of its UTF-16 code units.
      - A JavaScript Number that holds an integer is a [Z]; [NaN] is a
        separate constructor.  The identification is exact up to 2^53; past
        that the engine rounds to the nearest double, which is not tracked.
      - The columns have ranges ([id] 32 bits, [contact] 64 bits).  The
        server refuses a statement with a parameter outside its column,
        which is a store operation that fails; [Columns.orderly] is the
        store that fails there and nowhere else.
      - The relational store is a record of finite maps keyed by the primary
        key.  Every awaited call on the pool or the client is one store
        operation: it is appended to a log, it may raise (the environment
        decides), and other requests may have changed the store just before
        it runs (the environment decides that too). *)

From Stdlib Require Import ZArith NArith Ascii String List Bool Lia.
From stdpp Require Import base option list strings gmap fin_maps.

Local Open Scope Z_scope.

(** ** JavaScript strings and numbers *)

Module Js.

Definition codeunit := N.
Abbreviation jsstring := (list N).

(** A string literal of the source, as code units (ASCII only). *)
Definition lit (s : String.string) : jsstring :=
  List.map N_of_ascii (list_ascii_of_string s).

(** [NaN] or an integral Number, held as the integer itself.  That is
    what the engine holds up to 2^53; a longer numeral it rounds to 53
    bits, which is not followed here: what is stated of a number read from
    a request is stated within the range where the two agree or where
    both are refused (see [Columns]). *)
Inductive Number :=
  | NaN
  | Num (z : Z).

(** WhiteSpace and LineTerminator code units: what [parseInt] skips at the
    start and what [\s] matches in a regular expression. *)
Definition isWhiteSpace (c : N) : bool :=
  ((9 <=? c) && (c <=? 13) || (c =? 32) || (c =? 160) || (c =? 5760)
   || (8192 <=? c) && (c <=? 8202) || (c =? 8232) || (c =? 8233)
   || (c =? 8239) || (c =? 8287) || (c =? 12288) || (c =? 65279))%N.

Fixpoint trimStart (s : jsstring) : jsstring :=
  match s with
  | c :: r => if isWhiteSpace c then trimStart r else s
  | [] => []
  end.

(** Value of a code unit as a digit: 0-9, a-z, A-Z. *)
Definition digitValue (c : N) : option N :=
  (if (48 <=? c) && (c <=? 57) then Some (c - 48)
   else if (97 <=? c) && (c <=? 122) then Some (c - 87)
   else if (65 <=? c) && (c <=? 90) then Some (c - 55)
   else None)%N.

Definition radixDigit (R : N) (c : N) : option N :=
  match digitValue c with
  | Some d => if (d <? R)%N then Some d else None
  | None => None
  end.

(** The longest prefix of radix-[R] digits, as digit values. *)
Fixpoint digitsPrefix (R : N) (s : jsstring) : list N :=
  match s with
  | c :: r =>
      match radixDigit R c with
      | Some d => d :: digitsPrefix R r
      | None => []
      end
  | [] => []
  end.

Definition mathInt (R : N) (ds : list N) : N :=
  fold_left (fun acc d => acc * R + d)%N ds 0%N.

(** [parseInt(string)] with no radix argument (ECMA-262, 19.2.5): skip
    leading white space, read a sign, strip [0x]/[0X] and switch to radix
    16, read the longest digit prefix; no digit gives [NaN]. *)
Definition parseInt (s : jsstring) : Number :=
  let S0 := trimStart s in
  let sign := match S0 with 45%N :: _ => -1 | _ => 1 end in
  let S1 :=
    match S0 with
    | c :: r => if (c =? 43)%N || (c =? 45)%N then r else S0
    | [] => []
    end in
  let '(R, S2) :=
    match S1 with
    | 48%N :: x :: r => if (x =? 120)%N || (x =? 88)%N then (16%N, r) else (10%N, S1)
    | _ => (10%N, S1)
    end in
  match digitsPrefix R S2 with
  | [] => NaN
  | ds => Num (sign * Z.of_N (mathInt R ds))
  end.

(** *** The e-mail pattern [/^[^\s@]+@[^\s@]+\.[^\s@]+$/] *)

(** The class [[^\s@]]. *)
Definition notSpaceAt (c : N) : bool :=
  negb (isWhiteSpace c || (c =? 64)%N).

(** [[^\s@]* \. [^\s@]+ $], where [seen] records that the part before the
    dot is already non-empty. *)
Fixpoint domainPart (seen : bool) (s : jsstring) : bool :=
  match s with
  | [] => false
  | c :: r =>
      (seen && (c =? 46)%N && negb (bool_decide (r = [])) && forallb notSpaceAt r)
      || (notSpaceAt c && domainPart true r)
  end.

(** [[^\s@]* @ [^\s@]+ \. [^\s@]+ $], where [seen] records that the local
    part is already non-empty. *)
Fixpoint localPart (seen : bool) (s : jsstring) : bool :=
  match s with
  | [] => false
  | c :: r =>
      if notSpaceAt c then localPart true r
      else seen && (c =? 64)%N && domainPart false r
  end.

Definition emailRegex_test (s : jsstring) : bool := localPart false s.

(** What the pattern says, as a proposition. *)
Definition emailPattern (s : jsstring) : Prop :=
  exists a b c : jsstring,
    s = a ++ 64%N :: b ++ 46%N :: c
    /\ a <> [] /\ b <> [] /\ c <> []
    /\ Forall (fun x => notSpaceAt x = true) a
    /\ Forall (fun x => notSpaceAt x = true) b
    /\ Forall (fun x => notSpaceAt x = true) c.

End Js.

Import Js.

(** ** The relational store

    One finite map per table of [database.ts], keyed by the [SERIAL PRIMARY
    KEY] column [id]; a record holds the remaining columns.  Timestamps are
    integers; a nullable column is an [option]. *)

Module Store.

Record User := {
  email : jsstring;
  password_hash : jsstring;
  is_verified : bool;
  user_created_at : Z;
  last_login : option Z;
  user_updated_at : Z
}.

Record Otp := {
  user_id : option Z;
  otp_hash : jsstring;
  expires_at : Z;
  otp_created_at : Z
}.

Record School := {
  name : jsstring;
  address : jsstring;
  city : jsstring;
  state : jsstring;
  contact : Z;
  image : option jsstring;
  email_id : jsstring;
  created_by : option Z;
  created_at : Z;
  updated_at : Z
}.

Record Db := {
  app_users : gmap Z User;
  otp_verifications : gmap Z Otp;
  schools : gmap Z School
}.

Definition with_schools (d : Db) (t : gmap Z School) : Db :=
  {| app_users := app_users d;
     otp_verifications := otp_verifications d;
     schools := t |}.

(** The four statements the route handlers send, with their parameters. *)
Inductive Sql :=
  | SelectOwner (schoolId : Z)
      (* SELECT id, created_by FROM schools WHERE id = $1 *)
  | UpdateSchool (name address city state : jsstring) (contact : Z)
                 (email_id : jsstring) (schoolId : Z)
      (* UPDATE schools SET name = $1, address = $2, city = $3, state = $4,
         contact = $5, email_id = $6, updated_at = CURRENT_TIMESTAMP
         WHERE id = $7 RETURNING * *)
  | DeleteSchool (schoolId : Z)
      (* DELETE FROM schools WHERE id = $1 *)
  | SelectSchoolWithOwner (schoolId : Z).
      (* SELECT s.*, u.email as created_by_email FROM schools s
         LEFT JOIN app_users u ON s.created_by = u.id WHERE s.id = $1 *)

(** A result row, by the shape of the statement's select list. *)
Inductive Row :=
  | RowOwner (id : Z) (created_by : option Z)
  | RowSchool (id : Z) (s : School)
  | RowSchoolWithOwner (id : Z) (s : School) (created_by_email : option jsstring).

Record QueryResult := {
  rows : list Row;
  rowCount : nat
}.

(** The function behind the trigger [update_schools_updated_at], which
    runs [BEFORE UPDATE ... FOR EACH ROW] on [schools]:
    [NEW.updated_at = CURRENT_TIMESTAMP; RETURN NEW]. *)
Definition update_updated_at_column (now : Z) (new : School) : School :=
  {| name := name new; address := address new; city := city new;
     state := state new; contact := contact new; image := image new;
     email_id := email_id new; created_by := created_by new;
     created_at := created_at new; updated_at := now |}.

(** The row an [UPDATE] of the handlers leaves: the six assigned columns
    and [updated_at] change, every other column keeps its value. *)
Definition updated_row (s : School) (n a c st : jsstring) (k : Z)
    (e : jsstring) (now : Z) : School :=
  update_updated_at_column now
    {| name := n; address := a; city := c; state := st; contact := k;
       image := image s; email_id := e;
       created_by := created_by s; created_at := created_at s;
       updated_at := now |}.

(** The e-mail the [LEFT JOIN] finds for a school: [NULL] when
    [created_by] is [NULL] or names no user. *)
Definition owner_email (d : Db) (s : School) : option jsstring :=
  match created_by s with
  | Some u =>
      match app_users d !! u with
      | Some usr => Some (email usr)
      | None => None
      end
  | None => None
  end.

(** What a statement returns and the store it leaves; [now] is
    [CURRENT_TIMESTAMP].  This is the statement once the server has taken
    it: a parameter outside the range of its column makes the server
    refuse the statement, an operation that fails ([Run.fault]);
    [Columns.fits] says which statements those are. *)
Definition run_sql (now : Z) (q : Sql) (d : Db) : QueryResult * Db :=
  match q with
  | SelectOwner i =>
      match schools d !! i with
      | Some s => ({| rows := [RowOwner i (created_by s)]; rowCount := 1 |}, d)
      | None => ({| rows := []; rowCount := 0 |}, d)
      end
  | UpdateSchool n a c st k e i =>
      match schools d !! i with
      | Some s =>
          let s' := updated_row s n a c st k e now in
          ({| rows := [RowSchool i s']; rowCount := 1 |},
           with_schools d (<[i := s']> (schools d)))
      | None => ({| rows := []; rowCount := 0 |}, d)
      end
  | DeleteSchool i =>
      match schools d !! i with
      | Some _ =>
          ({| rows := []; rowCount := 1 |},
           with_schools d (delete i (schools d)))
      | None => ({| rows := []; rowCount := 0 |}, d)
      end
  | SelectSchoolWithOwner i =>
      match schools d !! i with
      | Some s =>
          ({| rows := [RowSchoolWithOwner i s (owner_email d s)];
              rowCount := 1 |}, d)
      | None => ({| rows := []; rowCount := 0 |}, d)
      end
  end.

(** *** Referential actions of the schema *)

Inductive RefAction :=
  | Cascade   (* ON DELETE CASCADE *)
  | SetNull.  (* ON DELETE SET NULL *)

Record Column := {
  col_name : string;
  col_type : string;
  col_not_null : bool;
  col_references : option (string * string * RefAction)
    (* REFERENCES table(column) ON DELETE action *)
}.

Record TableDef := {
  tbl_name : string;
  tbl_columns : list Column
}.

Definition column (n t : string) (nn : bool) : Column :=
  {| col_name := n; col_type := t; col_not_null := nn; col_references := None |}.

Definition createUsersTable : TableDef :=
  {| tbl_name := "app_users";
     tbl_columns :=
       [ column "id" "SERIAL PRIMARY KEY" true;
         column "email" "TEXT UNIQUE" true;
         column "password_hash" "TEXT" true;
         column "is_verified" "BOOLEAN DEFAULT FALSE" false;
         column "created_at" "TIMESTAMP DEFAULT CURRENT_TIMESTAMP" false;
         column "last_login" "TIMESTAMP" false;
         column "updated_at" "TIMESTAMP DEFAULT CURRENT_TIMESTAMP" false ] |}.

Definition createOtpTable : TableDef :=
  {| tbl_name := "otp_verifications";
     tbl_columns :=
       [ column "id" "SERIAL PRIMARY KEY" true;
         {| col_name := "user_id"; col_type := "INTEGER"; col_not_null := false;
            col_references := Some ("app_users", "id", Cascade) |};
         column "otp_hash" "TEXT" true;
         column "expires_at" "TIMESTAMP" true;
         column "created_at" "TIMESTAMP DEFAULT CURRENT_TIMESTAMP" false ] |}.

Definition createSchoolsTable : TableDef :=
  {| tbl_name := "schools";
     tbl_columns :=
       [ column "id" "SERIAL PRIMARY KEY" true;
         column "name" "TEXT" true;
         column "address" "TEXT" true;
         column "city" "TEXT" true;
         column "state" "TEXT" true;
         column "contact" "BIGINT" true;
         column "image" "TEXT" false;
         column "email_id" "TEXT" true;
         {| col_name := "created_by"; col_type := "INTEGER"; col_not_null := false;
            col_references := Some ("app_users", "id", SetNull) |};
         column "created_at" "TIMESTAMP DEFAULT CURRENT_TIMESTAMP" false;
         column "updated_at" "TIMESTAMP DEFAULT CURRENT_TIMESTAMP" false ] |}.

(** The action a table declares for deletions of the [app_users] row that
    its column [c] references. *)
Definition on_delete_of (t : TableDef) (c : string) : option RefAction :=
  match List.find (fun k => String.eqb (col_name k) c) (tbl_columns t) with
  | Some k =>
      match col_references k with
      | Some (_, _, a) => Some a
      | None => None
      end
  | None => None
  end.

(** Apply a referential action to the rows of a referencing table when
    the row [uid] of the referenced table goes away. *)
Definition apply_ref_action {R : Type} (a : option RefAction)
    (ref : R -> option Z) (clear : R -> R) (uid : Z) (t : gmap Z R) : gmap Z R :=
  match a with
  | Some Cascade => filter (fun kv => ref (snd kv) <> Some uid) t
  | Some SetNull =>
      (fun r => if decide (ref r = Some uid) then clear r else r) <$> t
  | None => t
  end.

Definition clear_user_id (o : Otp) : Otp :=
  {| user_id := None; otp_hash := otp_hash o; expires_at := expires_at o;
     otp_created_at := otp_created_at o |}.

Definition clear_created_by (s : School) : School :=
  {| name := name s; address := address s; city := city s; state := state s;
     contact := contact s; image := image s; email_id := email_id s;
     created_by := None; created_at := created_at s; updated_at := updated_at s |}.

(** [DELETE FROM app_users WHERE id = uid], with the referential actions
    the two referencing tables declare.  [SET NULL] is carried out as an
    update of the referencing rows, so the update trigger of [schools]
    runs on them. *)
Definition delete_user (now : Z) (uid : Z) (d : Db) : Db :=
  match app_users d !! uid with
  | None => d
  | Some _ =>
      {| app_users := delete uid (app_users d);
         otp_verifications :=
           apply_ref_action (on_delete_of createOtpTable "user_id")
             user_id clear_user_id uid (otp_verifications d);
         schools :=
           apply_ref_action (on_delete_of createSchoolsTable "created_by")
             created_by
             (fun s => update_updated_at_column now (clear_created_by s))
             uid (schools d) |}
  end.

End Store.

Import Store.
(** ** Store operations as the handlers see them *)

Module Run.

(** The awaited calls on the pool and on a client, and the synchronous
    [client.release()]. *)
Inductive Op :=
  | Connect
  | Query (q : Sql)
  | Release.

(** The state a handler runs in: the store and the operations issued so
    far, oldest first. *)
Record World := {
  db : Db;
  log : list Op
}.

(** What a handler cannot control.  Operations are numbered by their
    position in the log.
      - [fault n]: the [n]-th operation rejects (connection lost, statement
        refused by the server, for instance because a parameter is out of
        the range of its column);
      - [meanwhile n]: what other requests did to the store while the
        handler was waiting for its [n]-th operation to run;
      - [clock n]: [CURRENT_TIMESTAMP] for the [n]-th operation. *)
Record Env := {
  fault : nat -> bool;
  meanwhile : nat -> Db -> Db;
  clock : nat -> Z
}.

(** No failure and no concurrent writer. *)
Definition quiet (E : Env) : Prop :=
  forall n, fault E n = false /\ forall d, meanwhile E n d = d.

Definition calm (t : nat -> Z) : Env :=
  {| fault := fun _ => false; meanwhile := fun _ d => d; clock := t |}.

(** A computation either returns or throws. *)
Inductive Outcome (A : Type) :=
  | Return (a : A)
  | Throw.
Arguments Return {A} a.
Arguments Throw {A}.

Definition M (A : Type) : Type := World -> Outcome A * World.

Definition ret {A} (a : A) : M A := fun w => (Return a, w).

Definition throw {A} : M A := fun w => (Throw, w).

Definition bind {A B} (m : M A) (k : A -> M B) : M B :=
  fun w =>
    match m w with
    | (Return a, w') => k a w'
    | (Throw, w') => (Throw, w')
    end.

(** [try { m } catch { h }]. *)
Definition try_catch {A} (m : M A) (h : M A) : M A :=
  fun w =>
    match m w with
    | (Return a, w') => (Return a, w')
    | (Throw, w') => h w'
    end.

Section Operations.

Variable E : Env.

(** [await pool.connect()]. *)
Definition connect : M unit :=
  fun w =>
    let n := length (log w) in
    let w' := {| db := meanwhile E n (db w); log := log w ++ [Connect] |} in
    if fault E n then (Throw, w') else (Return tt, w').

(** [await client.query(text, params)]. *)
Definition query (q : Sql) : M QueryResult :=
  fun w =>
    let n := length (log w) in
    let d := meanwhile E n (db w) in
    if fault E n then (Throw, {| db := d; log := log w ++ [Query q] |})
    else
      let '(r, d') := run_sql (clock E n) q d in
      (Return r, {| db := d'; log := log w ++ [Query q] |}).

(** [client.release()]: synchronous, nothing else runs in between. *)
Definition release : M unit :=
  fun w => (Return tt, {| db := db w; log := log w ++ [Release] |}).

End Operations.

End Run.

Import Run.

Notation "x <- m ;; k" := (bind m (fun x => k))
  (at level 100, m at next level, right associativity).
Notation "m ;;; k" := (bind m (fun _ => k))
  (at level 100, right associativity).

(** ** The route handlers of [src/app/api/schools/[id]/route.ts] *)

Module Route.

(** The parts of a [NextRequest] the handlers read: the value of the
    [auth-token] cookie, if the cookie is there, and the parsed form body
    ([None] when [request.formData()] rejects).  [FormData.get] is the
    lookup: a missing field is [null].  The handlers cast every field to
    [string], so file entries are outside this type. *)
Record Request := {
  auth_token : option jsstring;
  formData : option (gmap string jsstring)
}.

(** The uniform envelope [{success, error?, message?, data?}] and the HTTP
    status ([NextResponse.json] defaults to 200). *)
Record Response := {
  status : Z;
  success : bool;
  error : option string;
  message : option string;
  data : option Row
}.

Definition failure (code : Z) (msg : string) : Response :=
  {| status := code; success := false; error := Some msg;
     message := None; data := None |}.

Definition ok_message (msg : string) (d : option Row) : Response :=
  {| status := 200; success := true; error := None;
     message := Some msg; data := d |}.

Definition ok_data (d : option Row) : Response :=
  {| status := 200; success := true; error := None;
     message := None; data := d |}.

(** [!v] for a value that is a string or [null]. *)
Definition falsy (v : option jsstring) : bool :=
  match v with
  | None => true
  | Some [] => true
  | Some (_ :: _) => false
  end.

(** The value of a field once it is known to be truthy. *)
Definition str (v : option jsstring) : jsstring := default [] v.

(** [created_by !== userId]. *)
Definition strict_ne (created_by : option Z) (userId : Z) : bool :=
  negb (bool_decide (created_by = Some userId)).

(** The [created_by] column of the first row of the ownership query. *)
Definition row_created_by (r : Row) : option Z :=
  match r with
  | RowOwner _ c => c
  | RowSchool _ s => created_by s
  | RowSchoolWithOwner _ s _ => created_by s
  end.

Section Handlers.

(** [verifyToken] of [@/lib/auth]: the [userId] of the payload, or [None]
    when it throws. *)
Variable verifyToken : jsstring -> option Z.

Variable E : Env.

(** The store part of [PUT], lines 71-123. *)
Definition PUT_store (userId schoolId : Z) (name address city state : jsstring)
    (contactNumber : Z) (email_id : jsstring) : M Response :=
  connect E ;;;
  try_catch
    (checkResult <- query E (SelectOwner schoolId) ;;
     match rows checkResult with
     | [] =>
         release ;;;
         ret (failure 404 "School not found")
     | school :: _ =>
         if strict_ne (row_created_by school) userId then
           release ;;;
           ret (failure 403 "You can only edit schools you created")
         else
           updateResult <-
             query E (UpdateSchool name address city state contactNumber
                        email_id schoolId) ;;
           release ;;;
           if Nat.eqb (rowCount updateResult) 0 then
             ret (failure 500 "Failed to update school")
           else
             ret (ok_message "School updated successfully"
                    (head (rows updateResult)))
     end)
    (release ;;;
     ret (failure 500 "Failed to update school")).

Definition PUT (request : Request) (id : jsstring) : M Response :=
  try_catch
    (let token := auth_token request in
     if falsy token then ret (failure 401 "Authentication required")
     else
       match verifyToken (str token) with
       | None => ret (failure 401 "Invalid authentication token")
       | Some userId =>
           match parseInt id with
           | NaN => ret (failure 400 "Invalid school ID")
           | Num schoolId =>
               match formData request with
               | None => throw
               | Some formData =>
                   let name := formData !! "name" in
                   let address := formData !! "address" in
                   let city := formData !! "city" in
                   let state := formData !! "state" in
                   let contact := formData !! "contact" in
                   let email_id := formData !! "email_id" in
                   if falsy name || falsy address || falsy city || falsy state
                      || falsy contact || falsy email_id
                   then ret (failure 400 "All fields are required")
                   else if negb (emailRegex_test (str email_id))
                   then ret (failure 400 "Invalid email format")
                   else
                     let contactNumber := parseInt (str contact) in
                     match contactNumber with
                     | NaN => ret (failure 400 "Invalid contact number")
                     | Num k =>
                         if k <=? 0
                         then ret (failure 400 "Invalid contact number")
                         else PUT_store userId schoolId (str name) (str address)
                                (str city) (str state) k (str email_id)
                     end
               end
           end
       end)
    (ret (failure 500 "Internal server error")).

Definition GET (request : Request) (id : jsstring) : M Response :=
  try_catch
    (match parseInt id with
     | NaN => ret (failure 400 "Invalid school ID")
     | Num schoolId =>
         connect E ;;;
         result <- query E (SelectSchoolWithOwner schoolId) ;;
         release ;;;
         match rows result with
         | [] => ret (failure 404 "School not found")
         | r :: _ => ret (ok_data (Some r))
         end
     end)
    (ret (failure 500 "Failed to fetch school")).

(** The store part of [DELETE], lines 214-265. *)
Definition DELETE_store (userId schoolId : Z) : M Response :=
  connect E ;;;
  try_catch
    (checkResult <- query E (SelectOwner schoolId) ;;
     match rows checkResult with
     | [] =>
         release ;;;
         ret (failure 404 "School not found")
     | school :: _ =>
         if strict_ne (row_created_by school) userId then
           release ;;;
           ret (failure 403 "You can only delete schools you created")
         else
           deleteResult <- query E (DeleteSchool schoolId) ;;
           release ;;;
           if Nat.eqb (rowCount deleteResult) 0 then
             ret (failure 500 "Failed to delete school")
           else
             ret (ok_message "School deleted successfully" None)
     end)
    (release ;;;
     ret (failure 500 "Failed to delete school")).

Definition DELETE (request : Request) (id : jsstring) : M Response :=
  try_catch
    (let token := auth_token request in
     if falsy token then ret (failure 401 "Authentication required")
     else
       match verifyToken (str token) with
       | None => ret (failure 401 "Invalid authentication token")
       | Some userId =>
           match parseInt id with
           | NaN => ret (failure 400 "Invalid school ID")
           | Num schoolId => DELETE_store userId schoolId
           end
       end)
    (ret (failure 500 "Internal server error")).

End Handlers.

End Route.

Import Route.
(** ** The schema bootstrap of [src/lib/database.ts] *)

Module Database.

(** [CREATE TRIGGER t BEFORE UPDATE ON tbl FOR EACH ROW EXECUTE FUNCTION f()]. *)
Record TriggerDef := {
  trg_table : string;
  trg_function : string
}.

(** The schema objects the bootstrap creates. *)
Record Catalog := {
  tables : gmap string TableDef;
  functions : gmap string string;
  triggers : gmap string TriggerDef
}.

Definition empty_catalog : Catalog :=
  {| tables := ∅; functions := ∅; triggers := ∅ |}.

Inductive Ddl :=
  | CreateTableIfNotExists (t : TableDef)
  | CreateOrReplaceFunction (fname body : string)
  | CreateTriggerIfAbsent (tgname : string) (tg : TriggerDef).
      (* DO $$ BEGIN IF NOT EXISTS (SELECT 1 FROM pg_trigger
         WHERE tgname = ...) THEN CREATE TRIGGER ... END IF; END $$ *)

Definition has_column (t : TableDef) (c : string) : bool :=
  existsb (fun k => String.eqb (col_name k) c) (tbl_columns t).

(** Every [REFERENCES tbl(col)] of [t] names a column of a table that is
    there. *)
Definition references_ok (c : Catalog) (t : TableDef) : bool :=
  forallb
    (fun k =>
       match col_references k with
       | None => true
       | Some (tn, cn, _) =>
           match tables c !! tn with
           | Some t' => has_column t' cn
           | None => false
           end
       end)
    (tbl_columns t).

(** One DDL statement; [None] is an error raised by the server. *)
Definition run_ddl (s : Ddl) (c : Catalog) : option Catalog :=
  match s with
  | CreateTableIfNotExists t =>
      match tables c !! tbl_name t with
      | Some _ => Some c
      | None =>
          if references_ok c t then
            Some {| tables := <[tbl_name t := t]> (tables c);
                    functions := functions c;
                    triggers := triggers c |}
          else None
      end
  | CreateOrReplaceFunction f b =>
      Some {| tables := tables c;
              functions := <[f := b]> (functions c);
              triggers := triggers c |}
  | CreateTriggerIfAbsent n tg =>
      match triggers c !! n with
      | Some _ => Some c
      | None =>
          match tables c !! trg_table tg, functions c !! trg_function tg with
          | Some _, Some _ =>
              Some {| tables := tables c;
                      functions := functions c;
                      triggers := <[n := tg]> (triggers c) |}
          | _, _ => None
          end
      end
  end.

Definition createUpdateFunction : Ddl :=
  CreateOrReplaceFunction "update_updated_at_column"
    "BEGIN NEW.updated_at = CURRENT_TIMESTAMP; RETURN NEW; END;".

Definition createUsersTrigger : Ddl :=
  CreateTriggerIfAbsent "update_app_users_updated_at"
    {| trg_table := "app_users"; trg_function := "update_updated_at_column" |}.

Definition createSchoolsTrigger : Ddl :=
  CreateTriggerIfAbsent "update_schools_updated_at"
    {| trg_table := "schools"; trg_function := "update_updated_at_column" |}.

(** The six [await client.query(...)] of lines 103-108, in order. *)
Definition statements : list Ddl :=
  [ CreateTableIfNotExists createUsersTable;
    CreateTableIfNotExists createOtpTable;
    CreateTableIfNotExists createSchoolsTable;
    createUpdateFunction;
    createUsersTrigger;
    createSchoolsTrigger ].

(** The statements one after the other, stopping at the first error. *)
Fixpoint exec (l : list Ddl) (c : Catalog) : option Catalog :=
  match l with
  | [] => Some c
  | s :: r =>
      match run_ddl s c with
      | Some c' => exec r c'
      | None => None
      end
  end.

(** The module-level state of [database.ts] and the schema behind the
    pool. *)
Record Proc := {
  isInitializing : bool;
  isInitialized : bool;
  catalog : Catalog
}.

Definition fresh (c : Catalog) : Proc :=
  {| isInitializing := false; isInitialized := false; catalog := c |}.

(** Where one call of [initializeDatabase] stands.  Between two awaits a
    call runs without interruption, so these are the only points at which
    another call can run. *)
Inductive Call :=
  | Entered                      (* not yet invoked *)
  | Connecting                   (* at [await pool.connect()] *)
  | Querying (rest : list Ddl)   (* at [await client.query], [rest] to run *)
  | Resolved                     (* returned *)
  | Rejected.                    (* threw *)

Definition settled (c : Call) : bool :=
  match c with
  | Resolved | Rejected => true
  | _ => false
  end.

(** One uninterrupted segment of a call.  [ok] tells whether the awaited
    operation succeeds on the server side. *)
Definition step (ok : bool) (c : Call) (p : Proc) : Call * Proc :=
  match c with
  | Entered =>
      if isInitialized p || isInitializing p then (Resolved, p)
      else (Connecting,
            {| isInitializing := true; isInitialized := isInitialized p;
               catalog := catalog p |})
  | Connecting =>
      (* [pool.connect()] is awaited outside the [try]: when it rejects,
         the [finally] does not run *)
      if ok then (Querying statements, p) else (Rejected, p)
  | Querying [] =>
      (Resolved,
       {| isInitializing := false; isInitialized := true;
          catalog := catalog p |})
  | Querying (s :: rest) =>
      match (if ok then run_ddl s (catalog p) else None) with
      | Some c' =>
          match rest with
          | [] =>
              (Resolved,
               {| isInitializing := false; isInitialized := true;
                  catalog := c' |})
          | _ :: _ =>
              (Querying rest,
               {| isInitializing := isInitializing p;
                  isInitialized := isInitialized p; catalog := c' |})
          end
      | None =>
          (Rejected,
           {| isInitializing := false; isInitialized := isInitialized p;
              catalog := catalog p |})
      end
  | Resolved => (Resolved, p)
  | Rejected => (Rejected, p)
  end.

(** A call run alone, from its invocation until it settles: one segment
    for the entry and the connection each, then one per statement. *)
Fixpoint run_call (fuel : nat) (ok : bool) (c : Call) (p : Proc) : Call * Proc :=
  match fuel with
  | O => (c, p)
  | S f =>
      if settled c then (c, p)
      else let '(c', p') := step ok c p in run_call f ok c' p'
  end.

Definition initializeDatabase (p : Proc) : Call * Proc :=
  run_call 8 true Entered p.

(** Several calls in one process.  A schedule names, segment by segment,
    the call that runs next and whether its awaited operation succeeded. *)
Record System := {
  proc : Proc;
  calls : list Call
}.

Definition start (n : nat) (c : Catalog) : System :=
  {| proc := fresh c; calls := replicate n Entered |}.

Definition sys_step (s : System) (e : nat * bool) : System :=
  match calls s !! fst e with
  | Some c =>
      let '(c', p') := step (snd e) c (proc s) in
      {| proc := p'; calls := <[fst e := c']> (calls s) |}
  | None => s
  end.

Definition run (sched : list (nat * bool)) (s : System) : System :=
  fold_left sys_step sched s.

(** Every segment of the schedule succeeds on the server side. *)
Definition no_fault (sched : list (nat * bool)) : Prop :=
  Forall (fun e => snd e = true) sched.

(** Every call gets at least [k] turns. *)
Definition turns (i : nat) (sched : list (nat * bool)) : nat :=
  length (filter (fun e => fst e = i) sched).

(** *** Notions for the bootstrap *)

(** What a statement leaves behind. *)
Definition established (s : Ddl) (c : Catalog) : Prop :=
  match s with
  | CreateTableIfNotExists t => is_Some (tables c !! tbl_name t)
  | CreateOrReplaceFunction f b => functions c !! f = Some b
  | CreateTriggerIfAbsent n _ => is_Some (triggers c !! n)
  end.

(** Two statements do not define the same function differently. *)
Definition agree (s s' : Ddl) : Prop :=
  match s, s' with
  | CreateOrReplaceFunction f b, CreateOrReplaceFunction f' b' =>
      f = f' -> b = b'
  | _, _ => True
  end.

(** The process once the bootstrap has gone through. *)
Definition ready (c1 : Catalog) : Proc :=
  {| isInitializing := false; isInitialized := true; catalog := c1 |}.

(** An upper bound on the segments a call still has to run. *)
Definition remaining (c : Call) : nat :=
  match c with
  | Entered => 8
  | Connecting => 7
  | Querying rest => Nat.max 1 (length rest)
  | Resolved | Rejected => 0
  end.

Definition remaining_at (s : System) (i : nat) : nat :=
  match calls s !! i with
  | Some c => remaining c
  | None => 0
  end.

(** The calls that are under way: at most one, and what is left for it
    to run leads to [c1]. *)
Definition under_way (a : Call) (c c1 : Catalog) : Prop :=
  match a with
  | Connecting => exec statements c = Some c1
  | Querying rest => rest <> [] /\ exec rest c = Some c1
  | _ => False
  end.

Definition idle (a : Call) : Prop := a = Entered \/ a = Resolved.

Definition inv (c1 : Catalog) (s : System) : Prop :=
  (isInitializing (proc s) = false /\ isInitialized (proc s) = false
   /\ Forall (fun a => a = Entered) (calls s)
   /\ exec statements (catalog (proc s)) = Some c1)
  \/ (isInitializing (proc s) = true /\ isInitialized (proc s) = false
      /\ exists i a, calls s !! i = Some a
                     /\ under_way a (catalog (proc s)) c1
                     /\ forall j b, j <> i -> calls s !! j = Some b -> idle b)
  \/ (isInitializing (proc s) = false /\ isInitialized (proc s) = true
      /\ catalog (proc s) = c1
      /\ Forall idle (calls s)).

End Database.

Import Database.
(** ** Notions the statements below are phrased with *)

Module Notions.

(** The auth gate of [PUT] and [DELETE], lines 10-28 and 185-203: the
    identity the cookie resolves to, or nothing. *)
Definition authenticate (verifyToken : jsstring -> option Z)
    (request : Request) : option Z :=
  if falsy (auth_token request) then None
  else verifyToken (str (auth_token request)).

(** The form passes the three checks of lines 48-69, with the values the
    update statement then receives. *)
Definition valid_fields (form : gmap string jsstring)
    (n a c st e : jsstring) (k : Z) : Prop :=
  form !! "name" = Some n /\ n <> []
  /\ form !! "address" = Some a /\ a <> []
  /\ form !! "city" = Some c /\ c <> []
  /\ form !! "state" = Some st /\ st <> []
  /\ form !! "email_id" = Some e /\ emailRegex_test e = true
  /\ exists t, form !! "contact" = Some t /\ parseInt t = Num k /\ 0 < k.

(** A required field is missing or empty. *)
Definition field_missing (form : gmap string jsstring) : Prop :=
  exists f, In f ["name"; "address"; "city"; "state"; "contact"; "email_id"]
            /\ falsy (form !! f) = true.

(** The contact does not parse to a number above zero. *)
Definition contact_rejected (form : gmap string jsstring) : Prop :=
  match parseInt (str (form !! "contact")) with
  | NaN => True
  | Num k => k <= 0
  end.

(** The e-mail does not match the pattern. *)
Definition email_rejected (form : gmap string jsstring) : Prop :=
  emailRegex_test (str (form !! "email_id")) = false.

(** The form fails one of the three checks. *)
Definition invalid_form (form : gmap string jsstring) : Prop :=
  field_missing form \/ email_rejected form \/ contact_rejected form.

(** A 400 answer of the validation. *)
Definition validation_error (r : Response) : Prop :=
  status r = 400 /\ success r = false /\
  (error r = Some "All fields are required"
   \/ error r = Some "Invalid email format"
   \/ error r = Some "Invalid contact number").

(** A decimal digit, as a code unit. *)
Definition isDecimalDigit (c : N) : bool := ((48 <=? c) && (c <=? 57))%N.

(** The number a string of decimal digits denotes. *)
Definition decimalValue (s : jsstring) : N :=
  fold_left (fun acc c => acc * 10 + (c - 48))%N s 0%N.

(** The words of the specification about the contact, read on the text
    itself: the contact is numeric (decimal digits only, at least one) and
    denotes a positive integer. *)
Definition numeric_positive_integer (s : jsstring) : bool :=
  negb (bool_decide (s = [])) && forallb isDecimalDigit s
  && (0 <? decimalValue s)%N.

(** The school [n] with its owner in the store the ownership query of
    [PUT_store] and [DELETE_store] reads, and the store the write then
    runs on; the handler starts with [length (log w)] operations behind
    it. *)
Definition store_at_check (E : Env) (w : World) : Db :=
  meanwhile E (S (length (log w))) (meanwhile E (length (log w)) (db w)).

Definition store_at_write (E : Env) (w : World) : Db :=
  meanwhile E (S (S (length (log w)))) (store_at_check E w).

Definition owns (d : Db) (userId schoolId : Z) : Prop :=
  exists s, schools d !! schoolId = Some s /\ created_by s = Some userId.

End Notions.

Import Notions.

(** ** createSchool *)

Module Create.

Section CreateSchool.

(** The store part of the handler, whatever it does once the fields have
    passed validation. *)
Variable insertSchool :
  jsstring -> jsstring -> jsstring -> jsstring -> Z -> jsstring -> Z -> M Response.


End CreateSchool.

End Create.

Import Create.

(** ** A small store and some requests *)

Module Sample.

Definition verify (t : jsstring) : option Z :=
  if bool_decide (t = lit "alice") then Some 1
  else if bool_decide (t = lit "bob") then Some 2
  else None.

Definition user (e : string) : User :=
  {| email := lit e; password_hash := lit "h"; is_verified := true;
     user_created_at := 0; last_login := None; user_updated_at := 0 |}.

(** The school of the end-to-end scenario of the specification, owned by
    user 1. *)
Definition school_x : School :=
  {| name := lit "X"; address := lit "1 Rd"; city := lit "C";
     state := lit "S"; contact := 5551234; image := Some (lit "x.png");
     email_id := lit "x@x.com"; created_by := Some 1;
     created_at := 10; updated_at := 10 |}.

(** A school whose creator is gone. *)
Definition school_anon : School :=
  {| name := lit "Z"; address := lit "9 Rd"; city := lit "C";
     state := lit "S"; contact := 5550000; image := None;
     email_id := lit "z@z.com"; created_by := None;
     created_at := 5; updated_at := 20 |}.

Definition db0 : Db :=
  {| app_users := {[ 1 := user "a@x.com"; 2 := user "b@x.com" ]};
     otp_verifications :=
       {[ 1 := {| user_id := Some 1; otp_hash := lit "o";
                  expires_at := 100; otp_created_at := 0 |} ]};
     schools := {[ 7 := school_x; 8 := school_anon ]} |}.

Definition w0 : World := {| db := db0; log := [] |}.

Definition form_with (contact : string) : gmap string jsstring :=
  {[ "name" := lit "Y"; "address" := lit "2 Rd"; "city" := lit "D";
     "state" := lit "T"; "contact" := lit contact;
     "email_id" := lit "y@y.org" ]}.

Definition form_ok : gmap string jsstring := form_with "5559876".

(** The same form without a name. *)
Definition form_no_name : gmap string jsstring := delete "name" form_ok.

Definition request (token : option string) (form : gmap string jsstring) : Request :=
  {| auth_token := lit <$> token; formData := Some form |}.

Definition at_noon : Env := calm (fun _ => 1200).

(** While the handler waits for its write (its third operation), another
    session removes user 1. *)
Definition owner_removed : Env :=
  {| fault := fun _ => false;
     meanwhile := fun n d => if Nat.eqb n 2 then delete_user 1100 1 d else d;
     clock := fun _ => 1200 |}.

(** Three calls of [initializeDatabase] started before the first has
    finished, and a fourth after it. *)
Definition overlapping : list (nat * bool) :=
  [ (0, true); (1, true); (0, true); (2, true); (0, true); (0, true);
    (0, true); (0, true); (0, true); (0, true); (3, true) ]%nat.

(** The schema the bootstrap builds on an empty database. *)
Definition schema : Catalog :=
  {| tables :=
       {[ "app_users" := createUsersTable;
          "otp_verifications" := createOtpTable;
          "schools" := createSchoolsTable ]};
     functions :=
       {[ "update_updated_at_column" :=
            "BEGIN NEW.updated_at = CURRENT_TIMESTAMP; RETURN NEW; END;" ]};
     triggers :=
       {[ "update_app_users_updated_at" :=
            {| trg_table := "app_users";
               trg_function := "update_updated_at_column" |};
          "update_schools_updated_at" :=
            {| trg_table := "schools";
               trg_function := "update_updated_at_column" |} ]} |}.

End Sample.

(** ** Further notions: connections, integrity, faulty runs *)

Module Conduct.

(** Nobody else writes (store operations may still fail). *)
Definition undisturbed (E : Env) : Prop :=
  forall n d, meanwhile E n d = d.

(** Clients checked out of the pool and not given back, over the
    operations [ops] issued from position [n] on: a [Connect] that does not
    fail takes one, a [Release] returns one. *)
Fixpoint held (E : Env) (n : nat) (ops : list Op) : Z :=
  match ops with
  | [] => 0
  | Connect :: r => (if fault E n then 0 else 1) + held E (S n) r
  | Release :: r => held E (S n) r - 1
  | Query _ :: r => held E (S n) r
  end.

(** A statement that writes. *)
Definition writes (o : Op) : bool :=
  match o with
  | Query (UpdateSchool _ _ _ _ _ _ _) => true
  | Query (DeleteSchool _) => true
  | _ => false
  end.

(** The envelope of an answer: success goes with 200 and no error text,
    failure with one of the five error statuses, an error text and no
    data. *)
Definition well_formed (r : Response) : Prop :=
  (success r = true /\ status r = 200 /\ error r = None)
  \/ (success r = false
      /\ In (status r) [400; 401; 403; 404; 500]
      /\ (exists msg, error r = Some msg)
      /\ message r = None /\ data r = None).

(** Every reference to a user names a user that is there: the two foreign
    keys of [database.ts]. *)
Definition references_hold (d : Db) : Prop :=
  (forall i s u, schools d !! i = Some s -> created_by s = Some u ->
                 is_Some (app_users d !! u))
  /\ (forall i o u, otp_verifications d !! i = Some o -> user_id o = Some u ->
                    is_Some (app_users d !! u)).

(** [email TEXT UNIQUE]. *)
Definition emails_unique (d : Db) : Prop :=
  forall u v x y,
    app_users d !! u = Some x -> app_users d !! v = Some y ->
    email x = email y -> u = v.

(** The decimal digits of a number, most significant first, as
    [Number.prototype.toString] and template literals print a non-negative
    integer below 10^21. *)
Fixpoint digitsOf (fuel : nat) (n : N) (acc : jsstring) : jsstring :=
  match fuel with
  | O => acc
  | S f =>
      let acc' := (48 + n mod 10)%N :: acc in
      if (n / 10 =? 0)%N then acc' else digitsOf f (n / 10) acc'
  end.

Definition toDecimal (n : N) : jsstring :=
  digitsOf (S (N.to_nat (N.log2 n))) n [].

(** A call of [initializeDatabase] run alone, the awaited operations
    succeeding or failing as [oks] says, one entry per segment. *)
Fixpoint run_steps (oks : list bool) (c : Call) (p : Proc) : Call * Proc :=
  match oks with
  | [] => (c, p)
  | ok :: r =>
      if settled c then (c, p)
      else let '(c', p') := step ok c p in run_steps r c' p'
  end.

(** A call between its connection and its end. *)
Definition in_progress (c : Call) : bool :=
  match c with
  | Connecting | Querying _ => true
  | _ => false
  end.

(** [l] is what is left of the six statements after some of them. *)
Definition remainder (l : list Ddl) : Prop :=
  exists done_, statements = done_ ++ l.

End Conduct.

Import Conduct.

(** ** The ranges of the columns *)

Module Columns.

(** [id SERIAL] of [schools], and the [$1] compared with it: a 32-bit
    integer. *)
Definition int4 (z : Z) : bool :=
  (-2147483648 <=? z) && (z <=? 2147483647).

(** [contact BIGINT]: a 64-bit integer. *)
Definition int8 (z : Z) : bool :=
  (-9223372036854775808 <=? z) && (z <=? 9223372036854775807).

(** The integers a JavaScript Number holds one by one: up to 2^53.  Above,
    [parseInt] and the text the driver sends for its result are rounded,
    which [Number] here, an exact integer, does not follow. *)
Definition exact_number (z : Z) : bool := Z.abs z <=? 9007199254740992.

(** The parameters of a statement are in the range of the columns they are
    compared with or written to. *)
Definition fits (q : Sql) : bool :=
  match q with
  | SelectOwner i => int4 i
  | UpdateSchool _ _ _ _ k _ i => int8 k && int4 i
  | DeleteSchool i => int4 i
  | SelectSchoolWithOwner i => int4 i
  end.

(** The store towards a call that starts in [w] and ends in [w']: nobody
    else writes, and of the operations of the call those that fail are the
    statements with a parameter out of range, which the server refuses. *)
Definition orderly (E : Env) (w w' : World) : Prop :=
  undisturbed E
  /\ forall i, (length (log w) <= i)%nat ->
       fault E i = match log w' !! i with
                   | Some (Query q) => negb (fits q)
                   | _ => false
                   end.

End Columns.

Import Columns.

(** ** The schools page (the client of the route handlers)

    The component of [src/unnamed/part_001]: its search box, its filter and
    its edit and delete handlers. *)

Module Page.

(** A school as the page holds it.  The declaration of the type
    ([@/types/school]) is not among the sources; the fields are those the
    page reads, optional where the page reads them with [?.].  [contact]
    holds the text [school.contact?.toString()] yields. *)
Record SchoolView := {
  v_id : Z;
  v_name : option jsstring;
  v_address : option jsstring;
  v_city : option jsstring;
  v_state : option jsstring;
  v_email_id : option jsstring;
  v_contact : option jsstring;
  v_created_by_email : option jsstring
}.

(** [String.prototype.includes] and [String.prototype.trim]. *)
Fixpoint startsWith (q s : jsstring) : bool :=
  match q, s with
  | [], _ => true
  | c :: q', d :: s' => (c =? d)%N && startsWith q' s'
  | _ :: _, [] => false
  end.

Fixpoint includes (s q : jsstring) : bool :=
  startsWith q s ||
  match s with
  | [] => false
  | _ :: s' => includes s' q
  end.

Definition trimEnd (s : jsstring) : jsstring := rev (trimStart (rev s)).

Definition trim (s : jsstring) : jsstring := trimEnd (trimStart s).

(** The four characters the search box strips: the two angle brackets,
    the apostrophe and the double quote. *)
Definition harmful (c : N) : bool :=
  ((c =? 60) || (c =? 62) || (c =? 39) || (c =? 34))%N.

(** The global replacement of those characters by nothing. *)
Definition sanitize (value : jsstring) : jsstring :=
  List.filter (fun c => negb (harmful c)) value.

(** [handleSearchChange]: the new search query and the toast shown, if
    any.  Too long an input leaves the query as it was. *)
Definition handleSearchChange (value searchQuery : jsstring)
    : jsstring * option string :=
  if (100 <? length value)%nat then
    (searchQuery,
     Some "Search query too long. Maximum 100 characters allowed.")
  else (sanitize value, None).

Section Filter.

(** [String.prototype.toLowerCase], a function of the engine. *)
Variable toLowerCase : jsstring -> jsstring.

(** [field?.toLowerCase().includes(query)], [undefined] counting as
    false. *)
Definition lower_includes (field : option jsstring) (query : jsstring) : bool :=
  match field with
  | Some s => includes (toLowerCase s) query
  | None => false
  end.

(** The predicate of the filter, lines 255-261. *)
Definition shown (query : jsstring) (school : SchoolView) : bool :=
  lower_includes (v_name school) query
  || lower_includes (v_address school) query
  || lower_includes (v_city school) query
  || lower_includes (v_state school) query
  || lower_includes (v_email_id school) query
  || match v_contact school with
     | Some t => includes t query
     | None => false
     end
  || match v_created_by_email school with
     | Some e => negb (bool_decide (e = [])) && includes (toLowerCase e) query
     | None => false
     end.

(** [filteredSchools], lines 239-273. *)
Definition filteredSchools (schools : list SchoolView) (searchQuery : jsstring)
    : list SchoolView :=
  if bool_decide (trim searchQuery = []) then schools
  else
    let query := trim (toLowerCase searchQuery) in
    if (length query <? 1)%nat then schools
    else List.filter (shown query) schools.

End Filter.

(** What a handler of the page does to the outside. *)
Inductive Effect :=
  | ToastError (msg : jsstring)
  | ToastSuccess (msg : jsstring)
  | RouterPush (path : jsstring).

(** [schools.find(school => school.id === schoolId)]. *)
Definition find_school (schools : list SchoolView) (schoolId : Z)
    : option SchoolView :=
  List.find (fun school => v_id school =? schoolId) schools.

(** [created_by_email !== user.email]. *)
Definition not_mine (created_by_email : option jsstring) (email : jsstring) : bool :=
  negb (bool_decide (created_by_email = Some email)).

(** An integer inside a template literal, or under [toString]: its
    decimal digits, after a minus sign when it is negative.  So the engine
    prints a Number below 10^21; from there on it prints an exponent,
    which is not followed here (see [Columns.exact_number]). *)
Definition show (z : Z) : jsstring :=
  if z <? 0 then 45%N :: toDecimal (Z.to_N (- z)) else toDecimal (Z.to_N z).

(** [handleEditSchool], lines 188-221; [user] is the e-mail of the user who
    is logged in, if one is. *)
Definition handleEditSchool (user : option jsstring) (schools : list SchoolView)
    (schoolId : Number) : list Effect :=
  match schoolId with
  | NaN => [ToastError (lit "Invalid school ID")]
  | Num id =>
      if (id =? 0) || (id <=? 0) then [ToastError (lit "Invalid school ID")]
      else
        match user with
        | None =>
            [ToastError (lit "You must be logged in to edit schools");
             RouterPush (lit "/login")]
        | Some email =>
            match find_school schools id with
            | None => [ToastError (lit "School not found")]
            | Some schoolToEdit =>
                if not_mine (v_created_by_email schoolToEdit) email
                then [ToastError (lit "You can only edit schools you created")]
                else [RouterPush (lit "/edit-school/" ++ show id)]
            end
        end
  end.

(** What becomes of the request [fetch] sends. *)
Inductive Net :=
  | Lost (message : jsstring)
      (* [fetch] rejects with an error of this message; the server never
         sees the request *)
  | Aborted (handled : bool)
      (* the controller aborts after 15 s; the server has handled the
         request by then, or never will *)
  | Delivered.
      (* the server handles the request and its answer arrives *)

(** [result.error || result.message || 'Failed to delete school']: an
    empty text is falsy. *)
Definition first_text (e m : option string) : jsstring :=
  match e with
  | Some (String c s) => lit (String c s)
  | _ =>
      match m with
      | Some (String c s) => lit (String c s)
      | _ => lit "Failed to delete school"
      end
  end.

(** The state of the page the delete handler touches. *)
Record PageState := {
  schools_shown : list SchoolView;
  deleteLoading : option Z
}.

(** The message [handleDeleteSchool] throws for an answer that is not
    [ok], lines 146-158. *)
Definition delete_failure_message (status : Z) : jsstring :=
  if status =? 401 then lit "You are not authorized to delete this school"
  else if status =? 404 then lit "School not found or already deleted"
  else if status =? 403 then lit "You can only delete schools you created"
  else if 500 <=? status then lit "Server error occurred. Please try again later."
  else lit "Delete failed with status " ++ show status.

Definition name_text (n : option jsstring) : jsstring :=
  match n with
  | Some s => s
  | None => lit "undefined"
  end.

Section Delete.

Variable verifyToken : jsstring -> option Z.
Variable E : Env.

(** [handleDeleteSchool], lines 100-186.  [cookie] is the [auth-token]
    cookie of the browser, [confirmed] the answer to the dialog.  The
    request goes to [DELETE] of the route with the id printed in the path.
    The result is the state of the page, the effects in order, and the
    world of the server. *)
Definition handleDeleteSchool (net : Net) (cookie : option jsstring)
    (confirmed : bool) (user : option jsstring) (page : PageState)
    (schoolId : Number) (w : World) : PageState * list Effect * World :=
  match schoolId with
  | NaN => (page, [ToastError (lit "Invalid school ID")], w)
  | Num id =>
      if (id =? 0) || (id <=? 0)
      then (page, [ToastError (lit "Invalid school ID")], w)
      else
        match user with
        | None =>
            (page,
             [ToastError (lit "You must be logged in to delete schools");
              RouterPush (lit "/login")], w)
        | Some email =>
            match find_school (schools_shown page) id with
            | None => (page, [ToastError (lit "School not found")], w)
            | Some schoolToDelete =>
                if not_mine (v_created_by_email schoolToDelete) email
                then (page,
                      [ToastError (lit "You can only delete schools you created")],
                      w)
                else if negb confirmed then (page, [], w)
                else
                  let idle_page :=
                    {| schools_shown := schools_shown page;
                       deleteLoading := None |} in
                  let request :=
                    {| auth_token := cookie; formData := None |} in
                  match net with
                  | Lost message => (idle_page, [ToastError message], w)
                  | Aborted handled =>
                      (idle_page,
                       [ToastError
                          (lit "Delete operation timed out. Please try again.")],
                       if handled
                       then snd (DELETE verifyToken E request (show id) w)
                       else w)
                  | Delivered =>
                      match DELETE verifyToken E request (show id) w with
                      | (Throw, w') =>
                          (idle_page,
                           [ToastError
                              (lit "Server error occurred. Please try again later.")],
                           w')
                      | (Return response, w') =>
                          if negb ((200 <=? status response)
                                   && (status response <=? 299))
                          then (idle_page,
                                [ToastError
                                   (delete_failure_message (status response))],
                                w')
                          else if success response then
                            ({| schools_shown :=
                                  List.filter
                                    (fun school => negb (v_id school =? id))
                                    (schools_shown page);
                                deleteLoading := None |},
                             [ToastSuccess
                                (34%N :: name_text (v_name schoolToDelete)
                                 ++ 34%N :: lit " deleted successfully!")],
                             w')
                          else
                            (idle_page,
                             [ToastError
                                (first_text (error response)
                                   (message response))],
                             w')
                      end
                  end
            end
        end
  end.

End Delete.

End Page.

Import Page.

(** ** Notions for the page *)

Module Shown.

Section Searched.

Variable toLowerCase : jsstring -> jsstring.

Definition lowered (field : option jsstring) : list jsstring :=
  match field with
  | Some s => [toLowerCase s]
  | None => []
  end.

(** The texts of a school the filter looks into: the five text fields and
    the e-mail of the creator in lower case, and the contact as it is. *)
Definition searched (school : SchoolView) : list jsstring :=
  lowered (v_name school) ++ lowered (v_address school)
  ++ lowered (v_city school) ++ lowered (v_state school)
  ++ lowered (v_email_id school)
  ++ match v_contact school with Some t => [t] | None => [] end
  ++ match v_created_by_email school with
     | Some (c :: e) => [toLowerCase (c :: e)]
     | _ => []
     end.

End Searched.

(** A row of the join as the page receives it. *)
Definition view (id : Z) (s : School) (created_by_email : option jsstring)
    : SchoolView :=
  {| v_id := id;
     v_name := Some (name s);
     v_address := Some (address s);
     v_city := Some (city s);
     v_state := Some (state s);
     v_email_id := Some (email_id s);
     v_contact := Some (show (contact s));
     v_created_by_email := created_by_email |}.

(** The search query after a series of inputs, starting from the empty
    one. *)
Definition typed (values : list jsstring) : jsstring :=
  fold_left (fun q v => fst (handleSearchChange v q)) values [].

End Shown.

Import Shown.

(** ** More environments and pages to evaluate on *)

Module Cases.

(** The third operation of the handler, its write, is refused. *)
Definition write_fails : Env :=
  {| fault := fun n => Nat.eqb n 2; meanwhile := fun _ d => d;
     clock := fun _ => 1200 |}.

(** The connection is had, the query then fails. *)
Definition query_fails : Env :=
  {| fault := fun n => Nat.eqb n 1; meanwhile := fun _ d => d;
     clock := fun _ => 1200 |}.

(** The page of user 1 after the list has been fetched. *)
Definition page0 : PageState :=
  {| schools_shown :=
       [ view 7 Sample.school_x (owner_email Sample.db0 Sample.school_x);
         view 8 Sample.school_anon
           (owner_email Sample.db0 Sample.school_anon) ];
     deleteLoading := None |}.


End Cases.

(** * Properties *)

(** ** [parseInt] and the e-mail pattern *)

Section JsFacts.

Local Open Scope N_scope.

Lemma digit_not_space c : isDecimalDigit c = true -> isWhiteSpace c = false.
Proof.
  unfold isDecimalDigit, isWhiteSpace. intros H.
  apply andb_true_iff in H as [H1 H2].
  apply N.leb_le in H1. apply N.leb_le in H2.
  repeat (apply orb_false_iff; split);
    try (apply N.eqb_neq; lia);
    apply andb_false_iff; first [ left; apply N.leb_gt; lia | right; apply N.leb_gt; lia ].
Qed.

Lemma digit_radix10 c :
  isDecimalDigit c = true -> radixDigit 10 c = Some (c - 48).
Proof.
  unfold isDecimalDigit, radixDigit, digitValue. intros H. rewrite H.
  apply andb_true_iff in H as [H1 H2].
  apply N.leb_le in H1. apply N.leb_le in H2.
  replace (c - 48 <? 10) with true; [done |].
  symmetry. apply N.ltb_lt. lia.
Qed.

Lemma nondigit_radix10 c :
  isDecimalDigit c = false -> radixDigit 10 c = None.
Proof.
  unfold isDecimalDigit, radixDigit, digitValue. intros H. rewrite H.
  destruct ((97 <=? c) && (c <=? 122)) eqn:Hl.
  - apply andb_true_iff in Hl as [H1 H2].
    apply N.leb_le in H1. apply N.leb_le in H2.
    replace (c - 87 <? 10) with false; [done |].
    symmetry. apply N.ltb_ge. lia.
  - destruct ((65 <=? c) && (c <=? 90)) eqn:Hu; [| done].
    apply andb_true_iff in Hu as [H1 H2].
    apply N.leb_le in H1. apply N.leb_le in H2.
    replace (c - 55 <? 10) with false; [done |].
    symmetry. apply N.ltb_ge. lia.
Qed.

(** The digit prefix of digits followed by something that is no digit. *)
Lemma digitsPrefix_decimal ds g :
  forallb isDecimalDigit ds = true ->
  match g with c :: _ => isDecimalDigit c = false | [] => True end ->
  digitsPrefix 10 (ds ++ g) = List.map (fun c => c - 48) ds.
Proof.
  intros Hds Hg. induction ds as [| d ds IH]; simpl in *.
  - destruct g as [| c g]; [done |]. simpl. by rewrite nondigit_radix10.
  - apply andb_true_iff in Hds as [Hd Hds].
    rewrite digit_radix10 by done. by rewrite IH.
Qed.

Lemma mathInt_decimal_from ds acc :
  fold_left (fun a d => a * 10 + d) (List.map (fun c => c - 48) ds) acc
  = fold_left (fun a c => a * 10 + (c - 48)) ds acc.
Proof.
  revert acc. induction ds as [| d ds IH]; intros acc; simpl; [done |].
  apply IH.
Qed.

Lemma mathInt_decimal ds :
  mathInt 10 (List.map (fun c => c - 48) ds) = decimalValue ds.
Proof. apply mathInt_decimal_from. Qed.

(** Decimal digits, then anything that does not start with a digit: the
    value is that of the digits.  The one exception is the hexadecimal
    prefix, a lone [0] followed by [x] or [X]. *)
Lemma parseInt_decimal_prefix (ds g : jsstring) :
  ds <> [] ->
  forallb isDecimalDigit ds = true ->
  match g with c :: _ => isDecimalDigit c = false | [] => True end ->
  ~ (ds = [48] /\ exists x r, g = x :: r /\ (x = 120 \/ x = 88)) ->
  parseInt (ds ++ g) = Num (Z.of_N (decimalValue ds)).
Proof.
  intros Hne Hds Hg Hhex.
  destruct ds as [| d ds]; [done |].
  pose proof Hds as Hall.
  simpl in Hds. apply andb_true_iff in Hds as [Hd Hds'].
  pose proof (digit_not_space d Hd) as Hsp.
  assert (Hd' : 48 <= d <= 57).
  { unfold isDecimalDigit in Hd. apply andb_true_iff in Hd as [H1 H2].
    apply N.leb_le in H1. apply N.leb_le in H2. lia. }
  assert (Hplus : (d =? 43) || (d =? 45) = false).
  { apply orb_false_iff; split; apply N.eqb_neq; lia. }
  assert (Hdig : digitsPrefix 10 ((d :: ds) ++ g)
                 = List.map (fun c => c - 48) (d :: ds))
    by (by apply digitsPrefix_decimal).
  assert (Hsign : match (d :: ds) ++ g with 45 :: _ => (-1)%Z | _ => 1%Z end = 1%Z).
  { simpl. destruct d as [| p]; [done |].
    do 6 (destruct p as [p | p |]; try done); lia. }
  assert (Hrad :
    match (d :: ds) ++ g with
    | 48 :: x :: r =>
        if (x =? 120) || (x =? 88) then (16, r) else (10, (d :: ds) ++ g)
    | _ => (10, (d :: ds) ++ g)
    end = (10, (d :: ds) ++ g)).
  { simpl. destruct (decide (d = 48)) as [-> | Hn].
    - destruct ds as [| x ds]; simpl.
      + destruct g as [| x r]; [done |].
        destruct ((x =? 120) || (x =? 88)) eqn:Hx; [| done].
        exfalso. apply Hhex. split; [done |]. exists x, r. split; [done |].
        apply orb_true_iff in Hx as [Hx | Hx]; apply N.eqb_eq in Hx; auto.
      + simpl in Hds'. apply andb_true_iff in Hds' as [Hx _].
        unfold isDecimalDigit in Hx. apply andb_true_iff in Hx as [H1 H2].
        apply N.leb_le in H1. apply N.leb_le in H2.
        replace ((x =? 120) || (x =? 88)) with false; [done |].
        symmetry. apply orb_false_iff; split; apply N.eqb_neq; lia.
    - destruct d as [| p]; [done |].
      do 6 (destruct p as [p | p |]; try done). }
  unfold parseInt.
  replace (trimStart ((d :: ds) ++ g)) with ((d :: ds) ++ g)
    by (simpl; by rewrite Hsp).
  rewrite Hsign.
  replace (match (d :: ds) ++ g with
           | c :: r => if (c =? 43) || (c =? 45) then r else (d :: ds) ++ g
           | [] => []
           end) with ((d :: ds) ++ g) by (simpl; by rewrite Hplus).
  rewrite Hrad, Hdig.
  rewrite <- mathInt_decimal. simpl List.map.
  cbv iota. f_equal. lia.
Qed.

(** A string of decimal digits parses to the number it denotes. *)
Lemma parseInt_decimal (ds : jsstring) :
  ds <> [] -> forallb isDecimalDigit ds = true ->
  parseInt ds = Num (Z.of_N (decimalValue ds)).
Proof.
  intros Hne Hds.
  rewrite <- (app_nil_r ds) at 1.
  apply parseInt_decimal_prefix; try done.
  by intros [_ (x & r & Hnil & _)].
Qed.

Lemma forallb_notSpaceAt l :
  forallb notSpaceAt l = true <-> Forall (fun x => notSpaceAt x = true) l.
Proof.
  induction l as [| x l IH]; simpl.
  - split; [constructor | done].
  - rewrite andb_true_iff, IH. split.
    + intros [? ?]. by constructor.
    + by inversion 1.
Qed.

Lemma domainPart_spec seen s :
  domainPart seen s = true <->
  exists b c, s = b ++ 46 :: c /\ (seen = true \/ b <> []) /\ c <> []
              /\ Forall (fun x => notSpaceAt x = true) b
              /\ Forall (fun x => notSpaceAt x = true) c.
Proof.
  revert seen. induction s as [| x r IH]; intros seen; simpl.
  - split; [done |]. intros (b & c & H & _). by destruct b.
  - rewrite orb_true_iff, !andb_true_iff, IH. split.
    + intros [[[[Hs Hx] Hr] Hall] | [Hx (b & c & -> & _ & Hc & Hb & Hcc)]].
      * apply N.eqb_eq in Hx as ->.
        exists [], r. simpl. repeat split; auto.
        all: try (by apply forallb_notSpaceAt).
        all: intros ->; by rewrite bool_decide_eq_true_2 in Hr.
      * exists (x :: b), c. repeat split; auto; try (by constructor).
    + intros (b & c & Heq & Hs & Hc & Hb & Hcc).
      destruct b as [| y b]; simpl in Heq; injection Heq as -> ->.
      * left. destruct Hs as [-> | ?]; [| done]. repeat split.
        -- by rewrite bool_decide_eq_false_2.
        -- by apply forallb_notSpaceAt.
      * right. inversion Hb; subst. split; [done |].
        exists b, c. repeat split; auto.
Qed.

Lemma localPart_spec seen s :
  localPart seen s = true <->
  exists a b c, s = a ++ 64 :: b ++ 46 :: c
                /\ (seen = true \/ a <> []) /\ b <> [] /\ c <> []
                /\ Forall (fun x => notSpaceAt x = true) a
                /\ Forall (fun x => notSpaceAt x = true) b
                /\ Forall (fun x => notSpaceAt x = true) c.
Proof.
  revert seen. induction s as [| x r IH]; intros seen; simpl.
  - split; [done |]. intros (a & b & c & H & _). by destruct a.
  - destruct (notSpaceAt x) eqn:Hx.
    + rewrite IH. split.
      * intros (a & b & c & -> & _ & Hb & Hc & Ha & Hbb & Hcc).
        exists (x :: a), b, c. repeat split; auto; try (by constructor).
      * intros (a & b & c & Heq & Hs & Hb & Hc & Ha & Hbb & Hcc).
        destruct a as [| y a]; simpl in Heq; injection Heq as -> ->.
        -- done.
        -- inversion Ha; subst. exists a, b, c. repeat split; auto.
    + rewrite !andb_true_iff, domainPart_spec. split.
      * intros [[Hs Hat] (b & c & -> & Hb & Hc & Hbb & Hcc)].
        apply N.eqb_eq in Hat as ->.
        exists [], b, c. simpl. repeat split; auto.
        destruct Hb as [? | ?]; done.
      * intros (a & b & c & Heq & Hs & Hb & Hc & Ha & Hbb & Hcc).
        destruct a as [| y a]; simpl in Heq; injection Heq as -> ->.
        -- split; [split; [by destruct Hs | done] |].
           exists b, c. repeat split; auto.
        -- inversion Ha; subst. congruence.
Qed.

(** The matcher decides the pattern. *)
Lemma emailRegex_test_spec s : emailRegex_test s = true <-> emailPattern s.
Proof.
  unfold emailRegex_test, emailPattern. rewrite localPart_spec. split.
  - intros (a & b & c & H & [? | Ha] & ?); [done |].
    exists a, b, c. tauto.
  - intros (a & b & c & H & Ha & ?). exists a, b, c. tauto.
Qed.

End JsFacts.

(** ** The handlers, gate by gate *)

Section HandlerFacts.

Variable verifyToken : jsstring -> option Z.
Variable E : Env.

Lemma quiet_fault n : quiet E -> fault E n = false.
Proof. intros H. apply H. Qed.

Lemma quiet_meanwhile n d : quiet E -> meanwhile E n d = d.
Proof. intros H. apply H. Qed.

Lemma connect_quiet w :
  quiet E ->
  connect E w = (Return tt, {| db := db w; log := log w ++ [Connect] |}).
Proof.
  intros H. unfold connect.
  by rewrite quiet_fault, quiet_meanwhile.
Qed.

Lemma query_quiet q w :
  quiet E ->
  query E q w =
    (Return (fst (run_sql (clock E (length (log w))) q (db w))),
     {| db := snd (run_sql (clock E (length (log w))) q (db w));
        log := log w ++ [Query q] |}).
Proof.
  intros H. unfold query.
  rewrite quiet_fault, quiet_meanwhile by done.
  by destruct (run_sql _ _ _).
Qed.

Lemma authenticate_Some request uid :
  authenticate verifyToken request = Some uid ->
  falsy (auth_token request) = false
  /\ verifyToken (str (auth_token request)) = Some uid.
Proof.
  unfold authenticate. by destruct (falsy (auth_token request)).
Qed.

Lemma falsy_Some v s : v = Some s -> s <> [] -> falsy v = false.
Proof. intros -> Hs. by destruct s. Qed.

(** *** The auth gate *)

Lemma PUT_unauthenticated request id w :
  authenticate verifyToken request = None ->
  exists msg, PUT verifyToken E request id w = (Return (failure 401 msg), w).
Proof.
  unfold authenticate, PUT, try_catch, ret. intros H.
  destruct (falsy (auth_token request)); [by eexists |].
  rewrite H. by eexists.
Qed.

Lemma DELETE_unauthenticated request id w :
  authenticate verifyToken request = None ->
  exists msg, DELETE verifyToken E request id w = (Return (failure 401 msg), w).
Proof.
  unfold authenticate, DELETE, try_catch, ret. intros H.
  destruct (falsy (auth_token request)); [by eexists |].
  rewrite H. by eexists.
Qed.

(** *** The identifier gate *)

Lemma PUT_bad_id request id w uid :
  authenticate verifyToken request = Some uid ->
  parseInt id = NaN ->
  PUT verifyToken E request id w = (Return (failure 400 "Invalid school ID"), w).
Proof.
  intros [Hf Hv]%authenticate_Some Hid.
  unfold PUT, try_catch, ret. by rewrite Hf, Hv, Hid.
Qed.

Lemma DELETE_bad_id request id w uid :
  authenticate verifyToken request = Some uid ->
  parseInt id = NaN ->
  DELETE verifyToken E request id w = (Return (failure 400 "Invalid school ID"), w).
Proof.
  intros [Hf Hv]%authenticate_Some Hid.
  unfold DELETE, try_catch, ret. by rewrite Hf, Hv, Hid.
Qed.

Lemma GET_bad_id request id w :
  parseInt id = NaN ->
  GET E request id w = (Return (failure 400 "Invalid school ID"), w).
Proof. intros Hid. unfold GET, try_catch, ret. by rewrite Hid. Qed.

Lemma DELETE_good_id request id w uid n :
  authenticate verifyToken request = Some uid ->
  parseInt id = Num n ->
  DELETE verifyToken E request id w =
    try_catch (DELETE_store E uid n)
      (ret (failure 500 "Internal server error")) w.
Proof.
  intros [Hf Hv]%authenticate_Some Hid.
  unfold DELETE, try_catch. by rewrite Hf, Hv, Hid.
Qed.

(** *** The validation gate *)

Lemma PUT_no_body request id w uid n :
  authenticate verifyToken request = Some uid ->
  parseInt id = Num n ->
  formData request = None ->
  PUT verifyToken E request id w
  = (Return (failure 500 "Internal server error"), w).
Proof.
  intros [Hf Hv]%authenticate_Some Hid Hform.
  unfold PUT, try_catch, throw, ret. by rewrite Hf, Hv, Hid, Hform.
Qed.

Lemma PUT_invalid_form request id w uid n form :
  authenticate verifyToken request = Some uid ->
  parseInt id = Num n ->
  formData request = Some form ->
  invalid_form form ->
  exists r, PUT verifyToken E request id w = (Return r, w) /\ validation_error r.
Proof.
  intros [Hf Hv]%authenticate_Some Hid Hform Hbad.
  unfold PUT, try_catch, ret. rewrite Hf, Hv, Hid, Hform.
  destruct (falsy (form !! "name") || falsy (form !! "address")
            || falsy (form !! "city") || falsy (form !! "state")
            || falsy (form !! "contact") || falsy (form !! "email_id")) eqn:Hm.
  { eexists. split; [done |]. unfold validation_error; simpl; auto. }
  destruct (emailRegex_test (str (form !! "email_id"))) eqn:He; simpl.
  2:{ eexists. split; [done |]. unfold validation_error; simpl; auto. }
  destruct (parseInt (str (form !! "contact"))) as [| k] eqn:Hc.
  { eexists. split; [done |]. unfold validation_error; simpl; auto. }
  destruct (k <=? 0) eqn:Hk.
  { eexists. split; [done |]. unfold validation_error; simpl; auto. }
  exfalso. destruct Hbad as [(f & Hin & Hfal) | [Hem | Hco]].
  - repeat (apply orb_false_iff in Hm as [Hm ?]).
    simpl in Hin. intuition (subst; congruence).
  - unfold email_rejected in Hem. congruence.
  - unfold contact_rejected in Hco. rewrite Hc in Hco.
    apply Z.leb_gt in Hk. lia.
Qed.

Lemma PUT_valid_form request id w uid n form nm a c st e k :
  authenticate verifyToken request = Some uid ->
  parseInt id = Num n ->
  formData request = Some form ->
  valid_fields form nm a c st e k ->
  PUT verifyToken E request id w =
    try_catch (PUT_store E uid n nm a c st k e)
      (ret (failure 500 "Internal server error")) w.
Proof.
  intros [Hf Hv]%authenticate_Some Hid Hform
    (Hn & Hn' & Ha & Ha' & Hc & Hc' & Hs & Hs' & He & He' & t & Ht & Hp & Hk).
  unfold PUT, try_catch. rewrite Hf, Hv, Hid, Hform.
  rewrite Hn, Ha, Hc, Hs, He, Ht.
  assert (He'' : e <> []) by (intros ->; discriminate).
  assert (Ht' : t <> []) by (intros ->; discriminate).
  rewrite (falsy_Some _ nm), (falsy_Some _ a), (falsy_Some _ c),
    (falsy_Some _ st), (falsy_Some _ t), (falsy_Some _ e) by done.
  simpl. rewrite He', Hp. simpl.
  by replace (k <=? 0) with false by (symmetry; apply Z.leb_gt; lia).
Qed.

(** A form that fails no check has six fields that pass them all. *)
Lemma valid_or_invalid form :
  invalid_form form \/ exists nm a c st e k, valid_fields form nm a c st e k.
Proof.
  unfold invalid_form, field_missing, email_rejected, contact_rejected,
    valid_fields.
  destruct (form !! "name") as [nm |] eqn:Hn;
    [| left; left; exists "name"; rewrite Hn; simpl; auto 10].
  destruct (form !! "address") as [a |] eqn:Ha;
    [| left; left; exists "address"; rewrite Ha; simpl; auto 10].
  destruct (form !! "city") as [c |] eqn:Hc;
    [| left; left; exists "city"; rewrite Hc; simpl; auto 10].
  destruct (form !! "state") as [st |] eqn:Hs;
    [| left; left; exists "state"; rewrite Hs; simpl; auto 10].
  destruct (form !! "contact") as [t |] eqn:Ht;
    [| left; left; exists "contact"; rewrite Ht; simpl; auto 10].
  destruct (form !! "email_id") as [e |] eqn:He;
    [| left; left; exists "email_id"; rewrite He; simpl; auto 10].
  destruct nm as [| x1 nm]; [left; left; exists "name"; rewrite Hn; simpl; auto 10 |].
  destruct a as [| x2 a]; [left; left; exists "address"; rewrite Ha; simpl; auto 10 |].
  destruct c as [| x3 c]; [left; left; exists "city"; rewrite Hc; simpl; auto 10 |].
  destruct st as [| x4 st]; [left; left; exists "state"; rewrite Hs; simpl; auto 10 |].
  simpl str.
  destruct (emailRegex_test e) eqn:Hre; [| left; right; by left].
  destruct (parseInt t) as [| k] eqn:Hp; [left; right; by right |].
  destruct (decide (k <= 0)) as [Hk | Hk]; [left; right; by right |].
  right. exists (x1 :: nm), (x2 :: a), (x3 :: c), (x4 :: st), e, k.
  repeat split; try done. exists t. repeat split; [done | lia].
Qed.

(** *** The store part, when nothing fails and nobody else writes *)

Lemma PUT_store_quiet uid n nm a c st k e w :
  quiet E ->
  PUT_store E uid n nm a c st k e w =
    match schools (db w) !! n with
    | None =>
        (Return (failure 404 "School not found"),
         {| db := db w;
            log := log w ++ [Connect; Query (SelectOwner n); Release] |})
    | Some s =>
        if decide (created_by s = Some uid) then
          let s' := updated_row s nm a c st k e
                      (clock E (S (S (length (log w))))) in
          (Return (ok_message "School updated successfully"
                     (Some (RowSchool n s'))),
           {| db := with_schools (db w) (<[n := s']> (schools (db w)));
              log := log w ++ [Connect; Query (SelectOwner n);
                               Query (UpdateSchool nm a c st k e n);
                               Release] |})
        else
          (Return (failure 403 "You can only edit schools you created"),
           {| db := db w;
              log := log w ++ [Connect; Query (SelectOwner n); Release] |})
    end.
Proof.
  intros Hq. unfold PUT_store, bind, try_catch.
  rewrite connect_quiet by done.
  rewrite query_quiet by done. simpl.
  destruct (schools (db w) !! n) as [s |] eqn:Hs; simpl.
  2:{ unfold release, ret. simpl. by rewrite <- !app_assoc. }
  unfold strict_ne. simpl.
  destruct (decide (created_by s = Some uid)) as [Ho | Ho].
  - rewrite bool_decide_eq_true_2 by done. simpl.
    rewrite query_quiet by done. simpl. rewrite Hs. simpl.
    unfold release, ret. simpl.
    rewrite !length_app. simpl.
    replace (length (log w) + 1 + 1)%nat with (S (S (length (log w)))) by lia.
    by rewrite <- !app_assoc.
  - rewrite bool_decide_eq_false_2 by done. simpl.
    unfold release, ret. simpl. by rewrite <- !app_assoc.
Qed.

Lemma DELETE_store_quiet uid n w :
  quiet E ->
  DELETE_store E uid n w =
    match schools (db w) !! n with
    | None =>
        (Return (failure 404 "School not found"),
         {| db := db w;
            log := log w ++ [Connect; Query (SelectOwner n); Release] |})
    | Some s =>
        if decide (created_by s = Some uid) then
          (Return (ok_message "School deleted successfully" None),
           {| db := with_schools (db w) (delete n (schools (db w)));
              log := log w ++ [Connect; Query (SelectOwner n);
                               Query (DeleteSchool n); Release] |})
        else
          (Return (failure 403 "You can only delete schools you created"),
           {| db := db w;
              log := log w ++ [Connect; Query (SelectOwner n); Release] |})
    end.
Proof.
  intros Hq. unfold DELETE_store, bind, try_catch.
  rewrite connect_quiet by done.
  rewrite query_quiet by done. simpl.
  destruct (schools (db w) !! n) as [s |] eqn:Hs; simpl.
  2:{ unfold release, ret. simpl. by rewrite <- !app_assoc. }
  unfold strict_ne. simpl.
  destruct (decide (created_by s = Some uid)) as [Ho | Ho].
  - rewrite bool_decide_eq_true_2 by done. simpl.
    rewrite query_quiet by done. simpl. rewrite Hs. simpl.
    unfold release, ret. simpl. by rewrite <- !app_assoc.
  - rewrite bool_decide_eq_false_2 by done. simpl.
    unfold release, ret. simpl. by rewrite <- !app_assoc.
Qed.

Lemma GET_quiet request id n w :
  quiet E ->
  parseInt id = Num n ->
  GET E request id w =
    match schools (db w) !! n with
    | None =>
        (Return (failure 404 "School not found"),
         {| db := db w;
            log := log w ++ [Connect; Query (SelectSchoolWithOwner n);
                             Release] |})
    | Some s =>
        (Return (ok_data (Some (RowSchoolWithOwner n s (owner_email (db w) s)))),
         {| db := db w;
            log := log w ++ [Connect; Query (SelectSchoolWithOwner n);
                             Release] |})
    end.
Proof.
  intros Hq Hid. unfold GET, bind, try_catch. rewrite Hid.
  rewrite connect_quiet by done.
  rewrite query_quiet by done. simpl.
  destruct (schools (db w) !! n) as [s |] eqn:Hs; simpl;
    unfold release, ret; simpl; by rewrite <- !app_assoc.
Qed.

(** A request by anyone but the owner of the row leaves the store as it
    was, whatever the form holds. *)
Lemma PUT_keeps_store request id w :
  quiet E ->
  (forall uid n, authenticate verifyToken request = Some uid ->
                 parseInt id = Num n -> ~ owns (db w) uid n) ->
  db (snd (PUT verifyToken E request id w)) = db w
  /\ forall r, fst (PUT verifyToken E request id w) = Return r -> success r = false.
Proof.
  intros Hq Hno.
  destruct (authenticate verifyToken request) as [uid |] eqn:Hauth.
  2:{ destruct (PUT_unauthenticated request id w Hauth) as [msg ->].
      simpl. split; [done |]. by intros r [= <-]. }
  destruct (parseInt id) as [| n] eqn:Hid.
  { rewrite (PUT_bad_id request id w uid) by done.
    simpl. split; [done |]. by intros r [= <-]. }
  destruct (formData request) as [form |] eqn:Hform.
  2:{ rewrite (PUT_no_body request id w uid n) by done.
      simpl. split; [done |]. by intros r [= <-]. }
  destruct (valid_or_invalid form) as [Hbad | (nm & a & c & st & e & k & Hok)].
  { destruct (PUT_invalid_form request id w uid n form) as (r & -> & Hr); try done.
    simpl. split; [done |]. intros r' [= <-]. apply Hr. }
  rewrite (PUT_valid_form request id w uid n form nm a c st e k) by done.
  unfold try_catch. rewrite PUT_store_quiet by done.
  destruct (schools (db w) !! n) as [s |] eqn:Hs.
  2:{ simpl. split; [done |]. by intros r [= <-]. }
  destruct (decide (created_by s = Some uid)) as [Ho | Ho].
  { exfalso. apply (Hno uid n); try done. by exists s. }
  simpl. split; [done |]. by intros r [= <-].
Qed.

Lemma DELETE_keeps_store request id w :
  quiet E ->
  (forall uid n, authenticate verifyToken request = Some uid ->
                 parseInt id = Num n -> ~ owns (db w) uid n) ->
  db (snd (DELETE verifyToken E request id w)) = db w
  /\ forall r, fst (DELETE verifyToken E request id w) = Return r -> success r = false.
Proof.
  intros Hq Hno.
  destruct (authenticate verifyToken request) as [uid |] eqn:Hauth.
  2:{ destruct (DELETE_unauthenticated request id w Hauth) as [msg ->].
      simpl. split; [done |]. by intros r [= <-]. }
  destruct (parseInt id) as [| n] eqn:Hid.
  { rewrite (DELETE_bad_id request id w uid) by done.
    simpl. split; [done |]. by intros r [= <-]. }
  rewrite (DELETE_good_id request id w uid n) by done.
  unfold try_catch. rewrite DELETE_store_quiet by done.
  destruct (schools (db w) !! n) as [s |] eqn:Hs.
  2:{ simpl. split; [done |]. by intros r [= <-]. }
  destruct (decide (created_by s = Some uid)) as [Ho | Ho].
  { exfalso. apply (Hno uid n); try done. by exists s. }
  simpl. split; [done |]. by intros r [= <-].
Qed.

End HandlerFacts.

(** ** The store part under any environment *)

Section StoreFacts.

Variable verifyToken : jsstring -> option Z.
Variable E : Env.

Lemma log_after_one (w : World) (o : Op) :
  length (log w ++ [o]) = S (length (log w)).
Proof. rewrite length_app. simpl. lia. Qed.

Lemma log_after_two (w : World) (o1 o2 : Op) :
  length ((log w ++ [o1]) ++ [o2]) = S (S (length (log w))).
Proof. rewrite !length_app. simpl. lia. Qed.

(** A successful [DELETE_store] found the caller as owner when it checked,
    and removed the row from the store it wrote to. *)
Lemma DELETE_store_success uid n w r w' :
  DELETE_store E uid n w = (Return r, w') ->
  success r = true ->
  owns (store_at_check E w) uid n
  /\ is_Some (schools (store_at_write E w) !! n)
  /\ db w' = with_schools (store_at_write E w)
               (delete n (schools (store_at_write E w))).
Proof.
  unfold DELETE_store, bind, try_catch, connect, query, release, ret,
    store_at_write, store_at_check.
  destruct (fault E (length (log w))); [discriminate |].
  cbn [db log]. rewrite log_after_one.
  destruct (fault E (S (length (log w)))).
  { intros [= <- <-]. discriminate. }
  cbn [run_sql db log].
  set (d1 := meanwhile E (S (length (log w))) (meanwhile E (length (log w)) (db w))).
  destruct (schools d1 !! n) as [s |] eqn:Hs; cbn [rows db log].
  2:{ intros [= <- <-]. discriminate. }
  unfold strict_ne. cbn [row_created_by].
  destruct (decide (created_by s = Some uid)) as [Ho | Ho].
  2:{ rewrite bool_decide_eq_false_2 by done. cbn.
      intros [= <- <-]. discriminate. }
  rewrite bool_decide_eq_true_2 by done. cbn [negb db log].
  rewrite log_after_two.
  destruct (fault E (S (S (length (log w))))).
  { intros [= <- <-]. discriminate. }
  set (d2 := meanwhile E (S (S (length (log w)))) d1).
  destruct (schools d2 !! n) as [s2 |] eqn:Hs2; cbn.
  2:{ intros [= <- <-]. discriminate. }
  intros [= <- <-] _. cbn. repeat split; [by exists s | by exists s2].
Qed.

(** The same for [PUT_store]: the row written is the row found at the
    write, with the six columns replaced. *)
Lemma PUT_store_success uid n nm a c st k e w r w' :
  PUT_store E uid n nm a c st k e w = (Return r, w') ->
  success r = true ->
  owns (store_at_check E w) uid n
  /\ exists s2, schools (store_at_write E w) !! n = Some s2
     /\ db w' = with_schools (store_at_write E w)
                  (<[n := updated_row s2 nm a c st k e
                            (clock E (S (S (length (log w)))))]>
                     (schools (store_at_write E w))).
Proof.
  unfold PUT_store, bind, try_catch, connect, query, release, ret,
    store_at_write, store_at_check.
  destruct (fault E (length (log w))); [discriminate |].
  cbn [db log]. rewrite log_after_one.
  destruct (fault E (S (length (log w)))).
  { intros [= <- <-]. discriminate. }
  cbn [run_sql db log].
  set (d1 := meanwhile E (S (length (log w))) (meanwhile E (length (log w)) (db w))).
  destruct (schools d1 !! n) as [s |] eqn:Hs; cbn [rows db log].
  2:{ intros [= <- <-]. discriminate. }
  unfold strict_ne. cbn [row_created_by].
  destruct (decide (created_by s = Some uid)) as [Ho | Ho].
  2:{ rewrite bool_decide_eq_false_2 by done. cbn.
      intros [= <- <-]. discriminate. }
  rewrite bool_decide_eq_true_2 by done. cbn [negb db log].
  rewrite log_after_two.
  destruct (fault E (S (S (length (log w))))).
  { intros [= <- <-]. discriminate. }
  set (d2 := meanwhile E (S (S (length (log w)))) d1).
  destruct (schools d2 !! n) as [s2 |] eqn:Hs2; cbn.
  2:{ intros [= <- <-]. discriminate. }
  intros [= <- <-] _. cbn. split; [by exists s |]. by exists s2.
Qed.

(** A successful [DELETE] passed both gates and then [DELETE_store]. *)
Lemma DELETE_success request id w r w' :
  DELETE verifyToken E request id w = (Return r, w') ->
  success r = true ->
  exists uid n,
    authenticate verifyToken request = Some uid /\ parseInt id = Num n
    /\ DELETE_store E uid n w = (Return r, w').
Proof.
  intros Hrun Hok.
  destruct (authenticate verifyToken request) as [uid |] eqn:Hauth.
  2:{ destruct (DELETE_unauthenticated verifyToken E request id w Hauth) as [m Hm].
      rewrite Hm in Hrun. injection Hrun as <- <-. discriminate. }
  destruct (parseInt id) as [| n] eqn:Hid.
  { rewrite (DELETE_bad_id verifyToken E request id w uid) in Hrun by done.
    injection Hrun as <- <-. discriminate. }
  exists uid, n. repeat split.
  rewrite (DELETE_good_id verifyToken E request id w uid n) in Hrun by done.
  unfold try_catch, ret in Hrun.
  destruct (DELETE_store E uid n w) as [[r0 |] w0]; [done |].
  injection Hrun as <- <-. discriminate.
Qed.

(** A successful [PUT] passed the three gates and then [PUT_store]. *)
Lemma PUT_success request id w r w' :
  PUT verifyToken E request id w = (Return r, w') ->
  success r = true ->
  exists uid n form nm a c st e k,
    authenticate verifyToken request = Some uid /\ parseInt id = Num n
    /\ formData request = Some form /\ valid_fields form nm a c st e k
    /\ PUT_store E uid n nm a c st k e w = (Return r, w').
Proof.
  intros Hrun Hok.
  destruct (authenticate verifyToken request) as [uid |] eqn:Hauth.
  2:{ destruct (PUT_unauthenticated verifyToken E request id w Hauth) as [m Hm].
      rewrite Hm in Hrun. injection Hrun as <- <-. discriminate. }
  destruct (parseInt id) as [| n] eqn:Hid.
  { rewrite (PUT_bad_id verifyToken E request id w uid) in Hrun by done.
    injection Hrun as <- <-. discriminate. }
  destruct (formData request) as [form |] eqn:Hform.
  2:{ rewrite (PUT_no_body verifyToken E request id w uid n) in Hrun by done.
      injection Hrun as <- <-. discriminate. }
  destruct (valid_or_invalid form) as [Hbad | (nm & a & c & st & e & k & Hv)].
  { destruct (PUT_invalid_form verifyToken E request id w uid n form)
      as (r0 & Hr0 & Hval); try done.
    rewrite Hr0 in Hrun. injection Hrun as <- <-.
    destruct Hval as (_ & Hs & _). congruence. }
  exists uid, n, form, nm, a, c, st, e, k. do 4 (split; [done |]).
  rewrite (PUT_valid_form verifyToken E request id w uid n form nm a c st e k)
    in Hrun by done.
  unfold try_catch, ret in Hrun.
  destruct (PUT_store E uid n nm a c st k e w) as [[r0 |] w0]; [done |].
  injection Hrun as <- <-. discriminate.
Qed.

End StoreFacts.

(** ** Authentication, ownership and the order of the gates *)

Lemma authenticate_None verifyToken request :
  authenticate verifyToken request = None <->
  auth_token request = None \/ auth_token request = Some []
  \/ verifyToken (str (auth_token request)) = None.
Proof.
  unfold authenticate.
  destruct (auth_token request) as [[| c t] |]; simpl; split; auto.
  intros [? | [? | ?]]; done.
Qed.

(** C1, as stated, fails: user 2 holds a valid token and is not the owner
    of school 7, yet a [PUT] without a name is answered 400, not 403. *)
Lemma put_by_stranger_without_name :
  authenticate Sample.verify (Sample.request (Some "bob") Sample.form_no_name)
    = Some 2
  /\ created_by <$> schools Sample.db0 !! 7 = Some (Some 1)
  /\ PUT Sample.verify Sample.at_noon
       (Sample.request (Some "bob") Sample.form_no_name) (lit "7") Sample.w0
     = (Return (failure 400 "All fields are required"), Sample.w0).
Proof. repeat split; vm_compute; reflexivity. Qed.

(** C1 (amended).  For every PUT or DELETE on /schools/{id}: without an
    auth-token cookie, or with a token that fails verification, the answer
    is 401 and the store is neither read nor written.  When the token
    resolves to a user other than [created_by] of the row, a DELETE is
    answered 403, a PUT whose form passes validation is answered 403, and
    in either case (whatever the form) the store is left as it was. *)
Theorem mutation_needs_owner verifyToken E request id w :
  (authenticate verifyToken request = None ->
   exists m1 m2,
     PUT verifyToken E request id w = (Return (failure 401 m1), w)
     /\ DELETE verifyToken E request id w = (Return (failure 401 m2), w))
  /\ (forall uid n s,
        quiet E ->
        authenticate verifyToken request = Some uid ->
        parseInt id = Num n ->
        schools (db w) !! n = Some s ->
        created_by s <> Some uid ->
        fst (DELETE verifyToken E request id w)
          = Return (failure 403 "You can only delete schools you created")
        /\ db (snd (DELETE verifyToken E request id w)) = db w
        /\ (forall form nm a c st e k,
              formData request = Some form ->
              valid_fields form nm a c st e k ->
              fst (PUT verifyToken E request id w)
                = Return (failure 403 "You can only edit schools you created"))
        /\ db (snd (PUT verifyToken E request id w)) = db w).
Proof.
  split.
  - intros Hauth.
    destruct (PUT_unauthenticated verifyToken E request id w Hauth) as [m1 H1].
    destruct (DELETE_unauthenticated verifyToken E request id w Hauth) as [m2 H2].
    by exists m1, m2.
  - intros uid n s Hq Hauth Hid Hs Hne.
    assert (Hno : forall uid' n', authenticate verifyToken request = Some uid' ->
                    parseInt id = Num n' -> ~ owns (db w) uid' n').
    { intros uid' n' Ha Hn (s' & Hs' & Ho). congruence. }
    split; [| split; [| split]].
    + rewrite (DELETE_good_id verifyToken E request id w uid n) by done.
      unfold try_catch. rewrite DELETE_store_quiet, Hs by done.
      by rewrite decide_False.
    + by apply DELETE_keeps_store.
    + intros form nm a c st e k Hform Hv.
      rewrite (PUT_valid_form verifyToken E request id w uid n form nm a c st e k)
        by done.
      unfold try_catch. rewrite PUT_store_quiet, Hs by done.
      by rewrite decide_False.
    + by apply PUT_keeps_store.
Qed.

Lemma mutation_needs_owner_witness :
  (exists m1 m2,
     PUT Sample.verify Sample.at_noon (Sample.request None Sample.form_ok)
       (lit "7") Sample.w0 = (Return (failure 401 m1), Sample.w0)
     /\ DELETE Sample.verify Sample.at_noon (Sample.request None Sample.form_ok)
          (lit "7") Sample.w0 = (Return (failure 401 m2), Sample.w0))
  /\ fst (PUT Sample.verify Sample.at_noon
            (Sample.request (Some "bob") Sample.form_ok) (lit "7") Sample.w0)
     = Return (failure 403 "You can only edit schools you created").
Proof.
  split.
  - apply (mutation_needs_owner Sample.verify Sample.at_noon
             (Sample.request None Sample.form_ok) (lit "7") Sample.w0).
    reflexivity.
  - eapply (mutation_needs_owner Sample.verify Sample.at_noon
              (Sample.request (Some "bob") Sample.form_ok) (lit "7") Sample.w0).
    + intros n. split; reflexivity.
    + reflexivity.
    + reflexivity.
    + reflexivity.
    + vm_compute. discriminate.
    + reflexivity.
    + unfold valid_fields. repeat split; try reflexivity; try discriminate.
      eexists. repeat split; try reflexivity.
Defined.

(** ** Validation *)


(** A contact the handler turns down is not the numeral of a positive
    integer: the check never refuses what the specification admits. *)
Lemma contact_rejected_not_numeral form t :
  form !! "contact" = Some t ->
  contact_rejected form ->
  numeric_positive_integer t = false.
Proof.
  unfold contact_rejected, numeric_positive_integer. intros -> Hrej. simpl in Hrej.
  destruct (bool_decide (t = [])) eqn:Ht; [done |]. simpl.
  destruct (forallb isDecimalDigit t) eqn:Hd; [| done]. simpl.
  apply bool_decide_eq_false in Ht.
  rewrite parseInt_decimal in Hrej by done.
  apply N.ltb_ge. lia.
Qed.




(** ** Deleting a school *)

(** C5.  After a DELETE that answered success, whatever happened around
    it, a GET of the same identifier on the store it left answers 404:
    the row is gone from the table. *)
Theorem deleted_school_not_found verifyToken E request id w r w'
    E' request' l :
  DELETE verifyToken E request id w = (Return r, w') ->
  success r = true ->
  quiet E' ->
  fst (GET E' request' id {| db := db w'; log := l |})
    = Return (failure 404 "School not found")
  /\ exists n, parseInt id = Num n /\ schools (db w') !! n = None.
Proof.
  intros Hrun Hok Hq.
  destruct (DELETE_success verifyToken E request id w r w' Hrun Hok)
    as (uid & n & Hauth & Hid & Hstore).
  destruct (DELETE_store_success E uid n w r w' Hstore Hok) as (_ & _ & Hdb).
  assert (Hgone : schools (db w') !! n = None).
  { rewrite Hdb. simpl. apply lookup_delete_eq. }
  split; [| by exists n].
  rewrite (GET_quiet E' request' id n) by done.
  simpl. by rewrite Hgone.
Qed.

Lemma deleted_school_not_found_witness :
  fst (GET Sample.at_noon (Sample.request None ∅) (lit "7")
         {| db := db (snd (DELETE Sample.verify Sample.at_noon
                             (Sample.request (Some "alice") ∅) (lit "7")
                             Sample.w0));
            log := [] |})
  = Return (failure 404 "School not found").
Proof.
  assert (Hq : quiet Sample.at_noon) by (intros n; split; reflexivity).
  exact (proj1 (deleted_school_not_found Sample.verify Sample.at_noon
                  (Sample.request (Some "alice") ∅) (lit "7") Sample.w0
                  (ok_message "School deleted successfully" None)
                  (snd (DELETE Sample.verify Sample.at_noon
                          (Sample.request (Some "alice") ∅) (lit "7")
                          Sample.w0))
                  Sample.at_noon (Sample.request None ∅) []
                  eq_refl eq_refl Hq)).
Defined.

(** ** The ownership check and the write are two statements *)

(** C8, as stated, fails: user 1 owns school 7 when the handler checks;
    before the update runs another session removes user 1, which clears
    [created_by]; the update, keyed by id alone, still rewrites the row
    and the handler answers success. *)
Lemma owner_removed_between_check_and_write :
  owns (store_at_check Sample.owner_removed Sample.w0) 1 7
  /\ created_by <$> schools (store_at_write Sample.owner_removed Sample.w0) !! 7
     = Some None
  /\ success <$>
       (match fst (PUT Sample.verify Sample.owner_removed
                     (Sample.request (Some "alice") Sample.form_ok) (lit "7")
                     Sample.w0) with
        | Return r => Some r
        | Throw => None
        end) = Some true
  /\ name <$>
       schools (db (snd (PUT Sample.verify Sample.owner_removed
                           (Sample.request (Some "alice") Sample.form_ok)
                           (lit "7") Sample.w0))) !! 7
     = Some (lit "Y").
Proof.
  split; [exists Sample.school_x; split; vm_compute; reflexivity |].
  repeat split; vm_compute; reflexivity.
Qed.

(** C8 (amended).  In PUT and DELETE the ownership check is a SELECT of
    its own, and the write that follows is keyed by the id alone.  A
    request is answered success only if the caller owned the row in the
    store the SELECT read; the caller still owns it in the store the
    write runs on provided no other request changed the store between
    the two statements. *)
Theorem ownership_checked_before_write verifyToken E request id w r w' :
  PUT verifyToken E request id w = (Return r, w')
  \/ DELETE verifyToken E request id w = (Return r, w') ->
  success r = true ->
  exists uid n,
    authenticate verifyToken request = Some uid
    /\ parseInt id = Num n
    /\ owns (store_at_check E w) uid n
    /\ ((forall d, meanwhile E (S (S (length (log w)))) d = d) ->
        owns (store_at_write E w) uid n).
Proof.
  intros [Hrun | Hrun] Hok.
  - destruct (PUT_success verifyToken E request id w r w' Hrun Hok)
      as (uid & n & form & nm & a & c & st & e & k & Hauth & Hid & _ & _ & Hst).
    destruct (PUT_store_success E uid n nm a c st k e w r w' Hst Hok) as [Hown _].
    exists uid, n. repeat split; try done.
    intros Hsame. unfold store_at_write. by rewrite Hsame.
  - destruct (DELETE_success verifyToken E request id w r w' Hrun Hok)
      as (uid & n & Hauth & Hid & Hst).
    destruct (DELETE_store_success E uid n w r w' Hst Hok) as [Hown _].
    exists uid, n. repeat split; try done.
    intros Hsame. unfold store_at_write. by rewrite Hsame.
Qed.

Lemma ownership_checked_before_write_witness :
  exists uid n,
    authenticate Sample.verify (Sample.request (Some "alice") ∅) = Some uid
    /\ parseInt (lit "7") = Num n
    /\ owns (store_at_check Sample.at_noon Sample.w0) uid n
    /\ ((forall d, meanwhile Sample.at_noon 2 d = d) ->
        owns (store_at_write Sample.at_noon Sample.w0) uid n).
Proof.
  exact (ownership_checked_before_write Sample.verify Sample.at_noon
           (Sample.request (Some "alice") ∅) (lit "7") Sample.w0
           (ok_message "School deleted successfully" None)
           (snd (DELETE Sample.verify Sample.at_noon
                   (Sample.request (Some "alice") ∅) (lit "7") Sample.w0))
           (or_intror eq_refl) eq_refl).
Defined.

(** ** Schools without an owner *)

(** C9, as stated, fails: school 8 has no owner and user 1 holds a valid
    token, yet a PUT without a name is answered 400, not 403. *)
Lemma put_on_anonymous_school_without_name :
  created_by <$> schools Sample.db0 !! 8 = Some None
  /\ authenticate Sample.verify
       (Sample.request (Some "alice") Sample.form_no_name) = Some 1
  /\ PUT Sample.verify Sample.at_noon
       (Sample.request (Some "alice") Sample.form_no_name) (lit "8") Sample.w0
     = (Return (failure 400 "All fields are required"), Sample.w0).
Proof. repeat split; vm_compute; reflexivity. Qed.

(** C9 (amended).  For a school whose [created_by] is null and every
    caller identity: an authenticated DELETE is answered 403; an
    authenticated PUT is answered 403 when its form passes validation and
    400 when it does not; no PUT or DELETE is answered success and the
    store is left as it was, so the school is never updated or deleted. *)
Theorem anonymous_school_is_frozen verifyToken E request id w uid n s :
  quiet E ->
  authenticate verifyToken request = Some uid ->
  parseInt id = Num n ->
  schools (db w) !! n = Some s ->
  created_by s = None ->
  fst (DELETE verifyToken E request id w)
    = Return (failure 403 "You can only delete schools you created")
  /\ (forall form nm a c st e k,
        formData request = Some form ->
        valid_fields form nm a c st e k ->
        fst (PUT verifyToken E request id w)
          = Return (failure 403 "You can only edit schools you created"))
  /\ (forall form,
        formData request = Some form ->
        invalid_form form ->
        exists r, fst (PUT verifyToken E request id w) = Return r
                  /\ validation_error r)
  /\ (forall r, fst (PUT verifyToken E request id w) = Return r ->
                success r = false)
  /\ db (snd (PUT verifyToken E request id w)) = db w
  /\ db (snd (DELETE verifyToken E request id w)) = db w.
Proof.
  intros Hq Hauth Hid Hs Hnull.
  assert (Hne : created_by s <> Some uid) by (rewrite Hnull; discriminate).
  assert (Hno : forall uid' n', authenticate verifyToken request = Some uid' ->
                  parseInt id = Num n' -> ~ owns (db w) uid' n').
  { intros uid' n' Ha Hn (s' & Hs' & Ho). congruence. }
  destruct (PUT_keeps_store verifyToken E request id w Hq Hno) as [Hput Hfail].
  destruct (DELETE_keeps_store verifyToken E request id w Hq Hno) as [Hdel _].
  repeat split; try done.
  - rewrite (DELETE_good_id verifyToken E request id w uid n) by done.
    unfold try_catch. rewrite DELETE_store_quiet, Hs by done.
    by rewrite decide_False.
  - intros form nm a c st e k Hform Hv.
    rewrite (PUT_valid_form verifyToken E request id w uid n form nm a c st e k)
      by done.
    unfold try_catch. rewrite PUT_store_quiet, Hs by done.
    by rewrite decide_False.
  - intros form Hform Hbad.
    destruct (PUT_invalid_form verifyToken E request id w uid n form)
      as (r & -> & Hr); try done.
    by exists r.
Qed.

Lemma anonymous_school_is_frozen_witness :
  fst (DELETE Sample.verify Sample.at_noon
         (Sample.request (Some "bob") Sample.form_ok) (lit "8") Sample.w0)
  = Return (failure 403 "You can only delete schools you created").
Proof.
  assert (Hq : quiet Sample.at_noon) by (intros n; split; reflexivity).
  exact (proj1 (anonymous_school_is_frozen Sample.verify Sample.at_noon
                  (Sample.request (Some "bob") Sample.form_ok) (lit "8")
                  Sample.w0 2 8 Sample.school_anon
                  Hq eq_refl eq_refl eq_refl eq_refl)).
Defined.

(** ** The path identifier *)

(** C10, as stated, fails: with an identifier that is no number and no
    cookie, PUT and DELETE answer 401, not 400. *)
Lemma unparseable_id_without_cookie :
  parseInt (lit "abc") = NaN
  /\ PUT Sample.verify Sample.at_noon (Sample.request None Sample.form_ok)
       (lit "abc") Sample.w0
     = (Return (failure 401 "Authentication required"), Sample.w0)
  /\ DELETE Sample.verify Sample.at_noon (Sample.request None Sample.form_ok)
       (lit "abc") Sample.w0
     = (Return (failure 401 "Authentication required"), Sample.w0).
Proof. repeat split; vm_compute; reflexivity. Qed.

(** C10 (amended).  When [parseInt] of the path id is [NaN], GET answers
    400 "Invalid school ID"; PUT and DELETE answer the same once the
    caller is authenticated, and 401 otherwise; in all cases no store
    operation is issued.  The handlers use the id only through
    [parseInt]: two ids with the same [parseInt] are handled alike, and
    decimal digits followed by text that starts with no digit are read as
    the digits (unless the text is [0x...], which is read as
    hexadecimal). *)
Theorem path_id_is_parsed verifyToken E request w :
  (forall id,
     parseInt id = NaN ->
     GET E request id w = (Return (failure 400 "Invalid school ID"), w)
     /\ (forall uid,
           authenticate verifyToken request = Some uid ->
           PUT verifyToken E request id w
             = (Return (failure 400 "Invalid school ID"), w)
           /\ DELETE verifyToken E request id w
              = (Return (failure 400 "Invalid school ID"), w))
     /\ (authenticate verifyToken request = None ->
         exists m1 m2,
           PUT verifyToken E request id w = (Return (failure 401 m1), w)
           /\ DELETE verifyToken E request id w = (Return (failure 401 m2), w)))
  /\ (forall id id',
        parseInt id = parseInt id' ->
        GET E request id w = GET E request id' w
        /\ PUT verifyToken E request id w = PUT verifyToken E request id' w
        /\ DELETE verifyToken E request id w = DELETE verifyToken E request id' w)
  /\ (forall ds g : jsstring,
        ds <> [] ->
        forallb isDecimalDigit ds = true ->
        match g with c :: _ => isDecimalDigit c = false | [] => True end ->
        ~ (ds = [48%N] /\ exists x r, g = x :: r /\ (x = 120%N \/ x = 88%N)) ->
        parseInt (ds ++ g) = parseInt ds).
Proof.
  split; [| split].
  - intros id Hid. split; [by apply GET_bad_id |]. split.
    + intros uid Hauth. split.
      * by apply (PUT_bad_id verifyToken E request id w uid).
      * by apply (DELETE_bad_id verifyToken E request id w uid).
    + intros Hauth.
      destruct (PUT_unauthenticated verifyToken E request id w Hauth) as [m1 H1].
      destruct (DELETE_unauthenticated verifyToken E request id w Hauth) as [m2 H2].
      by exists m1, m2.
  - intros id id' Heq. unfold GET, PUT, DELETE. by rewrite Heq.
  - intros ds g Hne Hds Hg Hhex.
    rewrite parseInt_decimal_prefix, parseInt_decimal by done. done.
Qed.

Lemma path_id_is_parsed_witness :
  GET Sample.at_noon (Sample.request None ∅) (lit "abc") Sample.w0
    = (Return (failure 400 "Invalid school ID"), Sample.w0)
  /\ GET Sample.at_noon (Sample.request None ∅) (lit "7abc") Sample.w0
     = GET Sample.at_noon (Sample.request None ∅) (lit "7") Sample.w0
  /\ parseInt (lit "7" ++ lit "abc") = parseInt (lit "7").
Proof.
  pose proof (path_id_is_parsed Sample.verify Sample.at_noon
                (Sample.request None ∅) Sample.w0) as (H1 & H2 & H3).
  split; [| split].
  - apply (H1 (lit "abc")). reflexivity.
  - apply (H2 (lit "7abc") (lit "7")). reflexivity.
  - apply (H3 (lit "7") (lit "abc")).
    + discriminate.
    + reflexivity.
    + reflexivity.
    + intros [Heq _]. discriminate.
Defined.

(** ** Removing a user *)

Lemma schools_on_delete :
  on_delete_of createSchoolsTable "created_by" = Some SetNull.
Proof. reflexivity. Qed.

Lemma otp_on_delete :
  on_delete_of createOtpTable "user_id" = Some Cascade.
Proof. reflexivity. Qed.

(** C6.  The schema declares [ON DELETE SET NULL] for [schools.created_by].
    When a user is removed, each school that user created stays in the
    table with [created_by] null and its other columns as they were (the
    update trigger stamps [updated_at]); the schools of other users are
    untouched, and no school row appears or disappears. *)
Theorem user_removal_keeps_schools now uid d :
  is_Some (app_users d !! uid) ->
  on_delete_of createSchoolsTable "created_by" = Some SetNull
  /\ app_users (delete_user now uid d) !! uid = None
  /\ (forall i s,
        schools d !! i = Some s ->
        created_by s = Some uid ->
        schools (delete_user now uid d) !! i
        = Some {| name := name s; address := address s; city := city s;
                  state := state s; contact := contact s; image := image s;
                  email_id := email_id s; created_by := None;
                  created_at := created_at s; updated_at := now |})
  /\ (forall i s,
        schools d !! i = Some s ->
        created_by s <> Some uid ->
        schools (delete_user now uid d) !! i = Some s)
  /\ dom (schools (delete_user now uid d)) = dom (schools d).
Proof.
  intros [u Hu]. split; [reflexivity |].
  unfold delete_user. rewrite Hu. cbn [app_users schools].
  rewrite schools_on_delete. unfold apply_ref_action.
  split; [apply lookup_delete_eq |]. split; [| split].
  - intros i s Hs Ho. rewrite lookup_fmap, Hs. simpl.
    by rewrite decide_True.
  - intros i s Hs Ho. rewrite lookup_fmap, Hs. simpl.
    by rewrite decide_False.
  - apply dom_fmap_L.
Qed.

Lemma user_removal_keeps_schools_witness :
  schools (delete_user 1100 1 Sample.db0) !! 7
  = Some {| name := lit "X"; address := lit "1 Rd"; city := lit "C";
            state := lit "S"; contact := 5551234; image := Some (lit "x.png");
            email_id := lit "x@x.com"; created_by := None;
            created_at := 10; updated_at := 1100 |}.
Proof.
  assert (Hu : is_Some (app_users Sample.db0 !! 1)) by (eexists; reflexivity).
  exact (proj1 (proj2 (proj2 (user_removal_keeps_schools 1100 1 Sample.db0 Hu)))
           7 Sample.school_x eq_refl eq_refl).
Defined.

(** By contrast the one-time passcodes of the user go with the user. *)
Lemma user_removal_cascades_to_otp now uid d i o :
  is_Some (app_users d !! uid) ->
  otp_verifications d !! i = Some o ->
  user_id o = Some uid ->
  otp_verifications (delete_user now uid d) !! i = None.
Proof.
  intros [u Hu] Ho Hid. unfold delete_user. rewrite Hu. cbn [otp_verifications].
  rewrite otp_on_delete. unfold apply_ref_action.
  apply map_lookup_filter_None. right. intros o' Ho'. simpl.
  intros Hne. apply Hne. congruence.
Qed.

(** ** The schema bootstrap *)

Section Bootstrap.

Lemma run_ddl_establishes s c c' :
  run_ddl s c = Some c' -> established s c'.
Proof.
  destruct s as [t | f b | n tg]; simpl.
  - destruct (tables c !! tbl_name t) eqn:Ht.
    + intros [= <-]. by rewrite Ht.
    + destruct (references_ok c t); [| done].
      intros [= <-]. simpl. rewrite lookup_insert_eq. by eexists.
  - intros [= <-]. simpl. apply lookup_insert_eq.
  - destruct (triggers c !! n) eqn:Hn.
    + intros [= <-]. by rewrite Hn.
    + destruct (tables c !! trg_table tg); [| done].
      destruct (functions c !! trg_function tg); [| done].
      intros [= <-]. simpl. rewrite lookup_insert_eq. by eexists.
Qed.

Lemma established_noop s c : established s c -> run_ddl s c = Some c.
Proof.
  destruct s as [t | f b | n tg]; simpl.
  - by intros [x ->].
  - intros H. rewrite insert_id by done. by destruct c.
  - by intros [x ->].
Qed.

Lemma established_kept s s' c c' :
  agree s s' -> established s c -> run_ddl s' c = Some c' -> established s c'.
Proof.
  intros Hag He Hrun.
  destruct s' as [t' | f' b' | n' tg']; simpl in Hrun.
  - destruct (tables c !! tbl_name t') eqn:Ht; [by injection Hrun as <- |].
    destruct (references_ok c t'); [| done]. injection Hrun as <-.
    destruct s as [t | f b | n tg]; simpl in *; try done.
    destruct (decide (tbl_name t' = tbl_name t)) as [Heq | Hne].
    + rewrite Heq, lookup_insert_eq. by eexists.
    + by rewrite lookup_insert_ne.
  - injection Hrun as <-.
    destruct s as [t | f b | n tg]; simpl in *; try done.
    destruct (decide (f' = f)) as [-> | Hne].
    + rewrite lookup_insert_eq. f_equal. symmetry. by apply Hag.
    + by rewrite lookup_insert_ne.
  - destruct (triggers c !! n') eqn:Hn; [by injection Hrun as <- |].
    destruct (tables c !! trg_table tg') as [tb |]; [| done].
    destruct (functions c !! trg_function tg') as [fb |]; [| done].
    injection Hrun as <-.
    destruct s as [t | f b | n tg]; simpl in *; try done.
    destruct (decide (n' = n)) as [-> | Hne].
    + rewrite lookup_insert_eq. by eexists.
    + by rewrite lookup_insert_ne.
Qed.

Lemma exec_keeps s l c c' :
  Forall (agree s) l -> established s c -> exec l c = Some c' -> established s c'.
Proof.
  revert c. induction l as [| s' l IH]; intros c Hag He Hex; simpl in Hex.
  - by injection Hex as <-.
  - inversion Hag; subst.
    destruct (run_ddl s' c) as [c'' |] eqn:Hrun; [| done].
    apply (IH c''); [done | | done]. by eapply established_kept.
Qed.

Lemma exec_establishes l c c' :
  ForallOrdPairs agree l -> exec l c = Some c' ->
  Forall (fun s => established s c') l.
Proof.
  revert c. induction l as [| s l IH]; intros c Hag Hex; simpl in Hex.
  - constructor.
  - inversion Hag; subst.
    destruct (run_ddl s c) as [c'' |] eqn:Hrun; [| done].
    constructor; [| by eapply IH].
    apply (exec_keeps s l c''); [done | | done]. by eapply run_ddl_establishes.
Qed.

Lemma exec_noop l c :
  Forall (fun s => established s c) l -> exec l c = Some c.
Proof.
  induction 1 as [| s l Hs _ IH]; simpl; [done |].
  by rewrite established_noop.
Qed.

Lemma statements_agree : ForallOrdPairs agree statements.
Proof. unfold statements. repeat constructor. Qed.

(** Once the six statements have run, running them again changes nothing
    and raises nothing. *)
Lemma exec_statements_again c c1 :
  exec statements c = Some c1 -> exec statements c1 = Some c1.
Proof.
  intros H. apply exec_noop.
  eapply exec_establishes; [apply statements_agree | done].
Qed.

(** On an empty database the six statements succeed. *)
Lemma exec_statements_empty :
  exists c1, exec statements empty_catalog = Some c1.
Proof. eexists. vm_compute. reflexivity. Qed.

(** *** One call *)

Lemma run_call_querying rest ini c c1 fuel :
  rest <> [] ->
  exec rest c = Some c1 ->
  (length rest <= fuel)%nat ->
  run_call fuel true (Querying rest)
    {| isInitializing := ini; isInitialized := false; catalog := c |}
  = (Resolved, ready c1).
Proof.
  revert c fuel. induction rest as [| s rest IH]; intros c fuel Hne Hex Hlen; [done |].
  destruct fuel as [| fuel]; [simpl in Hlen; lia |].
  simpl in Hex. destruct (run_ddl s c) as [c' |] eqn:Hrun; [| done].
  cbn [run_call settled step catalog]. rewrite Hrun.
  destruct rest as [| s' rest].
  - simpl in Hex. injection Hex as <-.
    destruct fuel; reflexivity.
  - cbn [isInitializing isInitialized].
    apply IH; [done | done | simpl in *; lia].
Qed.

Lemma initializeDatabase_fresh c c1 :
  exec statements c = Some c1 ->
  initializeDatabase (fresh c) = (Resolved, ready c1).
Proof.
  intros Hex.
  change (run_call 6 true (Querying statements)
            {| isInitializing := true; isInitialized := false; catalog := c |}
          = (Resolved, ready c1)).
  apply run_call_querying; [done | done | simpl; lia].
Qed.

Lemma initializeDatabase_ready c1 :
  initializeDatabase (ready c1) = (Resolved, ready c1).
Proof. reflexivity. Qed.

(** *** Several calls *)

Lemma settled_remaining c : settled c = true <-> remaining c = 0%nat.
Proof. destruct c as [| | rest | |]; simpl; split; try done; lia. Qed.

Lemma step_remaining ok c p :
  (remaining (fst (step ok c p)) <= pred (remaining c))%nat.
Proof.
  destruct c as [| | rest | |]; simpl; try lia.
  - destruct (isInitialized p || isInitializing p); simpl; lia.
  - destruct ok; simpl; lia.
  - destruct rest as [| s rest]; simpl; [lia |].
    destruct (if ok then run_ddl s (catalog p) else None); simpl; [| lia].
    destruct rest as [| s' rest]; simpl; lia.
Qed.

Lemma sys_step_length s e : length (calls (sys_step s e)) = length (calls s).
Proof.
  unfold sys_step. destruct (calls s !! fst e) as [c |]; [| done].
  destruct (step (snd e) c (proc s)). simpl. apply length_insert.
Qed.

Lemma run_length sched s : length (calls (run sched s)) = length (calls s).
Proof.
  revert s. induction sched as [| e sched IH]; intros s; simpl; [done |].
  unfold run in IH. by rewrite IH, sys_step_length.
Qed.

Lemma sys_step_remaining_same s e :
  (remaining_at (sys_step s e) (fst e) <= pred (remaining_at s (fst e)))%nat.
Proof.
  unfold remaining_at, sys_step.
  destruct (calls s !! fst e) as [c |] eqn:Hc; [| by rewrite Hc].
  pose proof (step_remaining (snd e) c (proc s)) as Hle.
  destruct (step (snd e) c (proc s)) as [c' p']. simpl in *.
  rewrite list_lookup_insert_eq; [done |]. by eapply lookup_lt_Some.
Qed.

Lemma sys_step_remaining_other s e i :
  fst e <> i -> remaining_at (sys_step s e) i = remaining_at s i.
Proof.
  intros Hne. unfold remaining_at, sys_step.
  destruct (calls s !! fst e) as [c |] eqn:Hc; [| done].
  destruct (step (snd e) c (proc s)) as [c' p']. simpl.
  by rewrite list_lookup_insert_ne.
Qed.

Lemma run_remaining sched s i :
  (remaining_at (run sched s) i <= remaining_at s i - turns i sched)%nat.
Proof.
  revert s. induction sched as [| e sched IH]; intros s; simpl.
  - unfold turns. simpl. lia.
  - unfold run in *. specialize (IH (sys_step s e)).
    unfold turns in *. rewrite filter_cons.
    destruct (decide (fst e = i)) as [<- | Hne]; simpl.
    + pose proof (sys_step_remaining_same s e). lia.
    + rewrite sys_step_remaining_other in IH by done. lia.
Qed.

(** Every call that gets eight turns settles, faults or not. *)
Lemma run_settles sched n c :
  (forall i, (i < n)%nat -> (8 <= turns i sched)%nat) ->
  Forall (fun a => settled a = true) (calls (run sched (start n c))).
Proof.
  intros Hturns. apply Forall_lookup. intros i a Ha.
  assert (Hi : (i < n)%nat).
  { apply lookup_lt_Some in Ha. rewrite run_length in Ha.
    simpl in Ha. by rewrite length_replicate in Ha. }
  pose proof (run_remaining sched (start n c) i) as Hle.
  unfold remaining_at at 1 in Hle. rewrite Ha in Hle.
  assert (Hstart : remaining_at (start n c) i = 8%nat).
  { unfold remaining_at, start. simpl. by rewrite lookup_replicate_2. }
  specialize (Hturns i Hi). apply settled_remaining. lia.
Qed.

Lemma inv_start n c c1 : exec statements c = Some c1 -> inv c1 (start n c).
Proof.
  intros H. left. simpl. repeat split; try done.
  apply Forall_forall. intros a Ha. by apply elem_of_replicate in Ha as [-> _].
Qed.

Lemma inv_step c1 s i :
  inv c1 s -> inv c1 (sys_step s (i, true)).
Proof.
  intros Hinv. unfold sys_step. simpl.
  destruct (calls s !! i) as [a |] eqn:Ha; [| done].
  assert (Hlt : (i < length (calls s))%nat) by (by eapply lookup_lt_Some).
  destruct s as [[ing ed cat] cs]. unfold inv in *. simpl in *.
  destruct Hinv as [(-> & -> & Hall & Hex) | [(-> & -> & i0 & a0 & Ha0 & Hway & Hothers)
                                             | (-> & -> & -> & Hall)]]; simpl in *.
  - (* nobody has started *)
    assert (a = Entered) as ->.
    { eapply Forall_lookup in Hall; eauto. }
    simpl. right. left. simpl. repeat split; try done.
    exists i, Connecting. split; [by apply list_lookup_insert_eq |].
    split; [done |]. intros j b Hj Hb.
    rewrite list_lookup_insert_ne in Hb by done.
    left. eapply Forall_lookup in Hall; eauto.
  - (* one call is under way *)
    destruct (decide (i = i0)) as [-> | Hne].
    + assert (a = a0) as -> by congruence.
      assert (Hrest : forall j b, j <> i0 -> <[i0 := b]> cs !! j = cs !! j)
        by (intros; by apply list_lookup_insert_ne).
      destruct a0 as [| | rest | |]; simpl in Hway; try done.
      * simpl. right. left. simpl. repeat split; try done.
        exists i0, (Querying statements).
        split; [by apply list_lookup_insert_eq |]. split; [done |].
        intros j b Hj Hb. rewrite Hrest in Hb by done. eauto.
      * destruct Hway as [Hne Hex].
        destruct rest as [| s rest]; [done |].
        simpl in Hex. simpl.
        destruct (run_ddl s cat) as [c' |] eqn:Hrun; [| done].
        destruct rest as [| s' rest].
        -- simpl in Hex. injection Hex as ->.
           right. right. simpl. repeat split; try done.
           apply Forall_lookup. intros j b Hb.
           destruct (decide (j = i0)) as [-> | Hj].
           ++ rewrite list_lookup_insert_eq in Hb by done.
              injection Hb as <-. by right.
           ++ rewrite Hrest in Hb by done. eauto.
        -- right. left. simpl. repeat split; try done.
           exists i0, (Querying (s' :: rest)).
           split; [by apply list_lookup_insert_eq |]. split; [done |].
           intros j b Hj Hb. rewrite Hrest in Hb by done. eauto.
    + assert (Hidle : idle a) by eauto.
      assert (Hstep : step true a
                {| isInitializing := true; isInitialized := false; catalog := cat |}
              = (Resolved,
                 {| isInitializing := true; isInitialized := false; catalog := cat |})).
      { by destruct Hidle as [-> | ->]. }
      rewrite Hstep. right. left. simpl. repeat split; try done.
      exists i0, a0. split; [by rewrite list_lookup_insert_ne |].
      split; [done |]. intros j b Hj Hb.
      destruct (decide (j = i)) as [-> | Hji].
      * rewrite list_lookup_insert_eq in Hb by done. injection Hb as <-. by right.
      * rewrite list_lookup_insert_ne in Hb by done. eauto.
  - (* the schema is in place *)
    assert (Hidle : idle a) by (eapply Forall_lookup in Hall; eauto).
    assert (Hstep : step true a
              {| isInitializing := false; isInitialized := true; catalog := c1 |}
            = (Resolved,
               {| isInitializing := false; isInitialized := true; catalog := c1 |})).
    { by destruct Hidle as [-> | ->]. }
    rewrite Hstep. right. right. simpl. repeat split; try done.
    apply Forall_insert; [done | by right].
Qed.

Lemma inv_run c1 sched s :
  no_fault sched -> inv c1 s -> inv c1 (run sched s).
Proof.
  intros Hok. revert s. induction Hok as [| [i ok] sched Hi _ IH]; intros s Hinv.
  - done.
  - simpl in Hi. subst ok. simpl. apply IH. by apply inv_step.
Qed.

(** When every call has settled, the schema is in place and no call
    threw. *)
Lemma inv_settled c1 s :
  calls s <> [] ->
  inv c1 s ->
  Forall (fun a => settled a = true) (calls s) ->
  catalog (proc s) = c1 /\ Forall (fun a => a = Resolved) (calls s).
Proof.
  intros Hne [(_ & _ & Hall & _) | [(_ & _ & i & a & Ha & Hway & _)
                                   | (_ & _ & Hcat & Hall)]] Hset.
  - destruct (calls s) as [| a l]; [done |].
    inversion Hall; subst. inversion Hset; subst. done.
  - eapply Forall_lookup in Hset; eauto.
    destruct a; simpl in *; done.
  - split; [done |]. apply Forall_lookup. intros i a Ha.
    eapply Forall_lookup in Hall; eauto. eapply Forall_lookup in Hset; eauto.
    simpl in Hset. by destruct Hall as [-> | ->].
Qed.

End Bootstrap.

(** C7.  Let the six statements succeed on the schema [c] and lead to
    [c1].  One call of [initializeDatabase] leaves [c1] and the flag
    [isInitialized]; a call in a new process on [c1] raises nothing and
    leaves [c1]; so does a later call in the same process.  For any
    number of calls in one process, interleaved at their awaits in any
    order, once all have settled the schema is [c1] and none has thrown;
    and all settle as soon as each has had eight turns. *)
Theorem initializeDatabase_idempotent c c1 n sched :
  exec statements c = Some c1 ->
  (0 < n)%nat ->
  no_fault sched ->
  initializeDatabase (fresh c) = (Resolved, ready c1)
  /\ initializeDatabase (fresh c1) = (Resolved, ready c1)
  /\ initializeDatabase (ready c1) = (Resolved, ready c1)
  /\ (Forall (fun a => settled a = true) (calls (run sched (start n c))) ->
      catalog (proc (run sched (start n c))) = c1
      /\ Forall (fun a => a = Resolved) (calls (run sched (start n c))))
  /\ ((forall i, (i < n)%nat -> (8 <= turns i sched)%nat) ->
      Forall (fun a => settled a = true) (calls (run sched (start n c)))).
Proof.
  intros Hex Hn Hok. split; [| split; [| split; [| split]]].
  - by apply initializeDatabase_fresh.
  - apply initializeDatabase_fresh. by eapply exec_statements_again.
  - apply initializeDatabase_ready.
  - apply inv_settled.
    + intros Hnil. apply (f_equal length) in Hnil.
      rewrite run_length in Hnil. simpl in Hnil.
      rewrite length_replicate in Hnil. lia.
    + apply inv_run; [done |]. by apply inv_start.
  - apply run_settles.
Qed.

Lemma exec_statements_schema :
  exec statements empty_catalog = Some Sample.schema.
Proof. vm_compute. reflexivity. Qed.

Lemma initializeDatabase_idempotent_witness :
  catalog (proc (run Sample.overlapping (start 4 empty_catalog))) = Sample.schema
  /\ Forall (fun a => a = Resolved)
       (calls (run Sample.overlapping (start 4 empty_catalog))).
Proof.
  assert (Hok : no_fault Sample.overlapping) by (repeat constructor).
  assert (Hn : (0 < 4)%nat) by lia.
  apply (initializeDatabase_idempotent empty_catalog Sample.schema 4
           Sample.overlapping exec_statements_schema Hn Hok).
  vm_compute. repeat constructor.
Defined.

(** When the connection cannot be had, the call throws before its [try]:
    [isInitializing] stays set and later calls return at once. *)
Example connect_failure_leaves_flag :
  run [(0, true); (0, false); (1, true)]%nat (start 2 empty_catalog)
  = {| proc := {| isInitializing := true; isInitialized := false;
                  catalog := empty_catalog |};
       calls := [Rejected; Resolved] |}.
Proof. reflexivity. Qed.

(** ** Sample evaluations *)

Example parseInt_plain : parseInt (lit "42") = Num 42.
Proof. reflexivity. Qed.
Example parseInt_prefix : parseInt (lit "12abc") = Num 12.
Proof. reflexivity. Qed.
Example parseInt_fraction : parseInt (lit "3.7") = Num 3.
Proof. reflexivity. Qed.
Example parseInt_space_sign : parseInt (lit "  -7x") = Num (-7).
Proof. reflexivity. Qed.
Example parseInt_hex : parseInt (lit "0x1F") = Num 31.
Proof. reflexivity. Qed.
Example parseInt_hex_empty : parseInt (lit "0x") = NaN.
Proof. reflexivity. Qed.
Example parseInt_word : parseInt (lit "abc") = NaN.
Proof. reflexivity. Qed.
Example parseInt_empty : parseInt [] = NaN.
Proof. reflexivity. Qed.
Example email_ok : emailRegex_test (lit "x@x.com") = true.
Proof. reflexivity. Qed.
Example email_two_dots : emailRegex_test (lit "a.b@c.d.e") = true.
Proof. reflexivity. Qed.
Example email_no_dot : emailRegex_test (lit "x@xcom") = false.
Proof. reflexivity. Qed.
Example email_two_at : emailRegex_test (lit "x@y@z.com") = false.
Proof. reflexivity. Qed.
Example email_dot_first : emailRegex_test (lit "x@.com") = false.
Proof. reflexivity. Qed.
Example email_dot_last : emailRegex_test (lit "x@com.") = false.
Proof. reflexivity. Qed.
Example email_space : emailRegex_test (lit "x y@z.com") = false.
Proof. reflexivity. Qed.
Example parseInt_hex_id : parseInt (lit "0x1F") <> parseInt (lit "0").
Proof. discriminate. Qed.

(** The operations of an owner's update, in order. *)
Example put_log :
  log (snd (PUT Sample.verify Sample.at_noon
              (Sample.request (Some "alice") Sample.form_ok) (lit "7") Sample.w0))
  = [ Connect; Query (SelectOwner 7);
      Query (UpdateSchool (lit "Y") (lit "2 Rd") (lit "D") (lit "T") 5559876
               (lit "y@y.org") 7);
      Release ].
Proof. reflexivity. Qed.

(** The end of the scenario of the specification: another logged-in user
    may not delete the school, its owner may, and then it is gone. *)
Example scenario_delete :
  let stranger := DELETE Sample.verify Sample.at_noon
                    (Sample.request (Some "bob") ∅) (lit "7") Sample.w0 in
  let owner := DELETE Sample.verify Sample.at_noon
                 (Sample.request (Some "alice") ∅) (lit "7") (snd stranger) in
  fst stranger = Return (failure 403 "You can only delete schools you created")
  /\ fst owner = Return (ok_message "School deleted successfully" None)
  /\ schools (db (snd owner)) !! 7 = None
  /\ fst (GET Sample.at_noon (Sample.request None ∅) (lit "7") (snd owner))
     = Return (failure 404 "School not found").
Proof. repeat split; vm_compute; reflexivity. Qed.

(** A statement the server refuses is answered 500, and the client is
    released. *)
Example put_store_failure :
  PUT Sample.verify
    {| fault := fun n => Nat.eqb n 1; meanwhile := fun _ d => d;
       clock := fun _ => 0 |}
    (Sample.request (Some "alice") Sample.form_ok) (lit "7") Sample.w0
  = (Return (failure 500 "Failed to update school"),
     {| db := Sample.db0;
        log := [Connect; Query (SelectOwner 7); Release] |}).
Proof. reflexivity. Qed.

(** [GET] does not release the client when its query fails. *)
Example get_store_failure :
  GET {| fault := fun n => Nat.eqb n 1; meanwhile := fun _ d => d;
         clock := fun _ => 0 |}
    (Sample.request None ∅) (lit "7") Sample.w0
  = (Return (failure 500 "Failed to fetch school"),
     {| db := Sample.db0;
        log := [Connect; Query (SelectSchoolWithOwner 7)] |}).
Proof. reflexivity. Qed.

(** * The code around the claims *)

(** ** The handlers under any environment *)

Section AnyEnvironment.

Variable verifyToken : jsstring -> option Z.
Variable E : Env.

(** [PUT_store], path by path. *)
Lemma PUT_store_run uid n nm a c st k e w :
  let l := length (log w) in
  let d0 := meanwhile E l (db w) in
  let d1 := meanwhile E (S l) d0 in
  let d2 := meanwhile E (S (S l)) d1 in
  let checked := [Connect; Query (SelectOwner n); Release] in
  let written := [Connect; Query (SelectOwner n);
                  Query (UpdateSchool nm a c st k e n); Release] in
  PUT_store E uid n nm a c st k e w =
    if fault E l then (Throw, {| db := d0; log := log w ++ [Connect] |})
    else if fault E (S l) then
      (Return (failure 500 "Failed to update school"),
       {| db := d1; log := log w ++ checked |})
    else
      match schools d1 !! n with
      | None =>
          (Return (failure 404 "School not found"),
           {| db := d1; log := log w ++ checked |})
      | Some s =>
          if decide (created_by s = Some uid) then
            if fault E (S (S l)) then
              (Return (failure 500 "Failed to update school"),
               {| db := d2; log := log w ++ written |})
            else
              match schools d2 !! n with
              | None =>
                  (Return (failure 500 "Failed to update school"),
                   {| db := d2; log := log w ++ written |})
              | Some s2 =>
                  let s' := updated_row s2 nm a c st k e (clock E (S (S l))) in
                  (Return (ok_message "School updated successfully"
                             (Some (RowSchool n s'))),
                   {| db := with_schools d2 (<[n := s']> (schools d2));
                      log := log w ++ written |})
              end
          else
            (Return (failure 403 "You can only edit schools you created"),
             {| db := d1; log := log w ++ checked |})
      end.
Proof.
  intros l d0 d1 d2 checked written.
  unfold PUT_store, bind, try_catch, connect, query, release, ret.
  fold l. fold d0.
  destruct (fault E l); [done |].
  cbn [db log]. rewrite log_after_one. fold l. fold d1.
  destruct (fault E (S l)).
  { cbn. by rewrite <- !app_assoc. }
  cbn [run_sql db log].
  destruct (schools d1 !! n) as [s |] eqn:Hs; cbn [rows db log].
  2:{ cbn. by rewrite <- !app_assoc. }
  unfold strict_ne. cbn [row_created_by].
  destruct (decide (created_by s = Some uid)) as [Ho | Ho].
  2:{ rewrite bool_decide_eq_false_2 by done. cbn. by rewrite <- !app_assoc. }
  rewrite bool_decide_eq_true_2 by done. cbn [negb db log].
  rewrite log_after_two. fold l. fold d2.
  destruct (fault E (S (S l))).
  { cbn. by rewrite <- !app_assoc. }
  cbn [run_sql].
  destruct (schools d2 !! n) as [s2 |] eqn:Hs2; cbn; by rewrite <- !app_assoc.
Qed.

(** [DELETE_store], path by path. *)
Lemma DELETE_store_run uid n w :
  let l := length (log w) in
  let d0 := meanwhile E l (db w) in
  let d1 := meanwhile E (S l) d0 in
  let d2 := meanwhile E (S (S l)) d1 in
  let checked := [Connect; Query (SelectOwner n); Release] in
  let written := [Connect; Query (SelectOwner n);
                  Query (DeleteSchool n); Release] in
  DELETE_store E uid n w =
    if fault E l then (Throw, {| db := d0; log := log w ++ [Connect] |})
    else if fault E (S l) then
      (Return (failure 500 "Failed to delete school"),
       {| db := d1; log := log w ++ checked |})
    else
      match schools d1 !! n with
      | None =>
          (Return (failure 404 "School not found"),
           {| db := d1; log := log w ++ checked |})
      | Some s =>
          if decide (created_by s = Some uid) then
            if fault E (S (S l)) then
              (Return (failure 500 "Failed to delete school"),
               {| db := d2; log := log w ++ written |})
            else
              match schools d2 !! n with
              | None =>
                  (Return (failure 500 "Failed to delete school"),
                   {| db := d2; log := log w ++ written |})
              | Some _ =>
                  (Return (ok_message "School deleted successfully" None),
                   {| db := with_schools d2 (delete n (schools d2));
                      log := log w ++ written |})
              end
          else
            (Return (failure 403 "You can only delete schools you created"),
             {| db := d1; log := log w ++ checked |})
      end.
Proof.
  intros l d0 d1 d2 checked written.
  unfold DELETE_store, bind, try_catch, connect, query, release, ret.
  fold l. fold d0.
  destruct (fault E l); [done |].
  cbn [db log]. rewrite log_after_one. fold l. fold d1.
  destruct (fault E (S l)).
  { cbn. by rewrite <- !app_assoc. }
  cbn [run_sql db log].
  destruct (schools d1 !! n) as [s |] eqn:Hs; cbn [rows db log].
  2:{ cbn. by rewrite <- !app_assoc. }
  unfold strict_ne. cbn [row_created_by].
  destruct (decide (created_by s = Some uid)) as [Ho | Ho].
  2:{ rewrite bool_decide_eq_false_2 by done. cbn. by rewrite <- !app_assoc. }
  rewrite bool_decide_eq_true_2 by done. cbn [negb db log].
  rewrite log_after_two. fold l. fold d2.
  destruct (fault E (S (S l))).
  { cbn. by rewrite <- !app_assoc. }
  cbn [run_sql].
  destruct (schools d2 !! n) as [s2 |] eqn:Hs2; cbn; by rewrite <- !app_assoc.
Qed.

(** [GET], path by path. *)
Lemma GET_run request id n w :
  parseInt id = Num n ->
  let l := length (log w) in
  let d0 := meanwhile E l (db w) in
  let d1 := meanwhile E (S l) d0 in
  let q := Query (SelectSchoolWithOwner n) in
  GET E request id w =
    if fault E l then
      (Return (failure 500 "Failed to fetch school"),
       {| db := d0; log := log w ++ [Connect] |})
    else if fault E (S l) then
      (Return (failure 500 "Failed to fetch school"),
       {| db := d1; log := log w ++ [Connect; q] |})
    else
      match schools d1 !! n with
      | None =>
          (Return (failure 404 "School not found"),
           {| db := d1; log := log w ++ [Connect; q; Release] |})
      | Some s =>
          (Return (ok_data (Some (RowSchoolWithOwner n s (owner_email d1 s)))),
           {| db := d1; log := log w ++ [Connect; q; Release] |})
      end.
Proof.
  intros Hid l d0 d1 q.
  unfold GET, bind, try_catch, connect, query, release, ret. rewrite Hid.
  fold l. fold d0.
  destruct (fault E l); [done |].
  cbn [db log]. rewrite log_after_one. fold l. fold d1.
  destruct (fault E (S l)).
  { cbn. by rewrite <- !app_assoc. }
  cbn [run_sql db log].
  destruct (schools d1 !! n) as [s |] eqn:Hs; cbn; by rewrite <- !app_assoc.
Qed.

Lemma PUT_invalid_form_failure request id w uid n form :
  authenticate verifyToken request = Some uid ->
  parseInt id = Num n ->
  formData request = Some form ->
  invalid_form form ->
  exists msg, PUT verifyToken E request id w = (Return (failure 400 msg), w).
Proof.
  intros [Hf Hv]%authenticate_Some Hid Hform Hbad.
  unfold PUT, try_catch, ret. rewrite Hf, Hv, Hid, Hform.
  destruct (falsy (form !! "name") || falsy (form !! "address")
            || falsy (form !! "city") || falsy (form !! "state")
            || falsy (form !! "contact") || falsy (form !! "email_id")) eqn:Hm.
  { by eexists. }
  destruct (emailRegex_test (str (form !! "email_id"))) eqn:He; simpl.
  2:{ by eexists. }
  destruct (parseInt (str (form !! "contact"))) as [| k] eqn:Hc.
  { by eexists. }
  destruct (k <=? 0) eqn:Hk.
  { by eexists. }
  exfalso. destruct Hbad as [(f & Hin & Hfal) | [Hem | Hco]].
  - repeat (apply orb_false_iff in Hm as [Hm ?]).
    simpl in Hin. intuition (subst; congruence).
  - unfold email_rejected in Hem. congruence.
  - unfold contact_rejected in Hco. rewrite Hc in Hco.
    apply Z.leb_gt in Hk. lia.
Qed.

(** The gates of [PUT]: a request is turned away with the world as it
    was, or it reaches [PUT_store]. *)
Lemma PUT_gates request id w :
  (exists code msg,
     In code [400; 401; 500]
     /\ PUT verifyToken E request id w = (Return (failure code msg), w))
  \/ (exists uid n form nm a c st e k,
        authenticate verifyToken request = Some uid
        /\ parseInt id = Num n
        /\ formData request = Some form
        /\ valid_fields form nm a c st e k
        /\ PUT verifyToken E request id w
           = try_catch (PUT_store E uid n nm a c st k e)
               (ret (failure 500 "Internal server error")) w).
Proof.
  destruct (authenticate verifyToken request) as [uid |] eqn:Hauth.
  2:{ left. destruct (PUT_unauthenticated verifyToken E request id w Hauth) as [m Hm].
      exists 401, m. simpl. auto. }
  destruct (parseInt id) as [| n] eqn:Hid.
  { left. exists 400, "Invalid school ID". split; [simpl; auto |].
    by apply (PUT_bad_id verifyToken E request id w uid). }
  destruct (formData request) as [form |] eqn:Hform.
  2:{ left. exists 500, "Internal server error". split; [simpl; auto |].
      by apply (PUT_no_body verifyToken E request id w uid n). }
  destruct (valid_or_invalid form) as [Hbad | (nm & a & c & st & e & k & Hv)].
  - left.
    destruct (PUT_invalid_form_failure request id w uid n form) as [m Hm];
      try done.
    exists 400, m. simpl. auto.
  - right. exists uid, n, form, nm, a, c, st, e, k. do 4 (split; [done |]).
    by apply (PUT_valid_form verifyToken E request id w uid n form).
Qed.

(** The gates of [DELETE]. *)
Lemma DELETE_gates request id w :
  (exists code msg,
     In code [400; 401]
     /\ DELETE verifyToken E request id w = (Return (failure code msg), w))
  \/ (exists uid n,
        authenticate verifyToken request = Some uid
        /\ parseInt id = Num n
        /\ DELETE verifyToken E request id w
           = try_catch (DELETE_store E uid n)
               (ret (failure 500 "Internal server error")) w).
Proof.
  destruct (authenticate verifyToken request) as [uid |] eqn:Hauth.
  2:{ left. destruct (DELETE_unauthenticated verifyToken E request id w Hauth)
        as [m Hm].
      exists 401, m. simpl. auto. }
  destruct (parseInt id) as [| n] eqn:Hid.
  { left. exists 400, "Invalid school ID". split; [simpl; auto |].
    by apply (DELETE_bad_id verifyToken E request id w uid). }
  right. exists uid, n. do 2 (split; [done |]).
  by apply DELETE_good_id.
Qed.

End AnyEnvironment.

Ltac paths :=
  cbv zeta;
  repeat match goal with
    | |- context [if fault ?E ?n then _ else _] =>
        let Hf := fresh "Hfault" in destruct (fault E n) eqn:Hf
    | |- context [match schools ?d !! ?n with _ => _ end] =>
        let Hs := fresh "Hrow" in destruct (schools d !! n) eqn:Hs
    | |- context [if decide ?P then _ else _] => destruct (decide P)
    end.

Ltac use_faults :=
  repeat match goal with
    | H : fault _ _ = _ |- _ => rewrite H
    end.

(** X1.  The three handlers catch what the store throws: under every
    environment each of them returns an answer. *)
Theorem handlers_always_answer verifyToken E request id w :
  (exists r w', PUT verifyToken E request id w = (Return r, w'))
  /\ (exists r w', GET E request id w = (Return r, w'))
  /\ (exists r w', DELETE verifyToken E request id w = (Return r, w')).
Proof.
  split; [| split].
  - destruct (PUT_gates verifyToken E request id w)
      as [(code & msg & _ & ->) | (uid & n & form & nm & a & c & st & e & k
                                   & _ & _ & _ & _ & ->)]; [by eauto |].
    unfold try_catch, ret. rewrite PUT_store_run. paths; by eauto.
  - destruct (parseInt id) as [| n] eqn:Hid.
    + rewrite GET_bad_id by done. by eauto.
    + rewrite (GET_run E request id n) by done. paths; by eauto.
  - destruct (DELETE_gates verifyToken E request id w)
      as [(code & msg & _ & ->) | (uid & n & _ & _ & ->)]; [by eauto |].
    unfold try_catch, ret. rewrite DELETE_store_run. paths; by eauto.
Qed.

Lemma failure_well_formed code msg :
  In code [400; 401; 403; 404; 500] -> well_formed (failure code msg).
Proof. intros H. right. simpl. repeat split; eauto. Qed.

(** X2.  Every answer of the three handlers is a well-formed envelope:
    [success] is true exactly with status 200 and no error text; a
    failure carries one of the statuses 400, 401, 403, 404, 500, an error
    text and no data. *)
Theorem answers_are_well_formed verifyToken E request id w r w' :
  PUT verifyToken E request id w = (Return r, w')
  \/ GET E request id w = (Return r, w')
  \/ DELETE verifyToken E request id w = (Return r, w') ->
  well_formed r.
Proof.
  intros [Hrun | [Hrun | Hrun]]; revert Hrun.
  - destruct (PUT_gates verifyToken E request id w)
      as [(code & msg & Hcode & ->) | (uid & n & form & nm & a & c & st & e & k
                                      & _ & _ & _ & _ & ->)].
    + intros [= <- _]. apply failure_well_formed. simpl in *. tauto.
    + unfold try_catch, ret. rewrite PUT_store_run.
      paths; intros [= <- _];
        first [ apply failure_well_formed; simpl; tauto | by left ].
  - destruct (parseInt id) as [| n] eqn:Hid.
    + rewrite GET_bad_id by done. intros [= <- _].
      apply failure_well_formed. simpl; tauto.
    + rewrite (GET_run E request id n) by done.
      paths; intros [= <- _];
        first [ apply failure_well_formed; simpl; tauto | by left ].
  - destruct (DELETE_gates verifyToken E request id w)
      as [(code & msg & Hcode & ->) | (uid & n & _ & _ & ->)].
    + intros [= <- _]. apply failure_well_formed. simpl in *. tauto.
    + unfold try_catch, ret. rewrite DELETE_store_run.
      paths; intros [= <- _];
        first [ apply failure_well_formed; simpl; tauto | by left ].
Qed.

Lemma answers_are_well_formed_witness :
  well_formed (failure 403 "You can only delete schools you created").
Proof.
  apply (answers_are_well_formed Sample.verify Sample.at_noon
           (Sample.request (Some "bob") ∅) (lit "7") Sample.w0 _
           (snd (DELETE Sample.verify Sample.at_noon
                   (Sample.request (Some "bob") ∅) (lit "7") Sample.w0))).
  right. right. reflexivity.
Defined.

(** X3.  A 500 comes from the environment only: when no store operation
    fails, no other request writes in between and (for PUT) the body can
    be read as form data, no handler answers 500. *)
Theorem no_500_without_failure verifyToken E request id w r w' :
  quiet E ->
  (is_Some (formData request)
   /\ PUT verifyToken E request id w = (Return r, w'))
  \/ GET E request id w = (Return r, w')
  \/ DELETE verifyToken E request id w = (Return r, w') ->
  status r <> 500.
Proof.
  intros Hq [[Hbody Hrun] | [Hrun | Hrun]]; revert Hrun.
  - destruct (authenticate verifyToken request) as [uid |] eqn:Hauth.
    2:{ destruct (PUT_unauthenticated verifyToken E request id w Hauth) as [m ->].
        by intros [= <- _]. }
    destruct (parseInt id) as [| n] eqn:Hid.
    { rewrite (PUT_bad_id verifyToken E request id w uid) by done.
      by intros [= <- _]. }
    destruct Hbody as [form Hform].
    destruct (valid_or_invalid form) as [Hbad | (nm & a & c & st & e & k & Hv)].
    { destruct (PUT_invalid_form_failure verifyToken E request id w uid n form)
        as [m ->]; try done. by intros [= <- _]. }
    rewrite (PUT_valid_form verifyToken E request id w uid n form nm a c st e k)
      by done.
    unfold try_catch. rewrite PUT_store_quiet by done.
    paths; by intros [= <- _].
  - destruct (parseInt id) as [| n] eqn:Hid.
    + rewrite GET_bad_id by done. by intros [= <- _].
    + rewrite (GET_quiet E request id n) by done. paths; by intros [= <- _].
  - destruct (DELETE_gates verifyToken E request id w)
      as [(code & msg & Hcode & ->) | (uid & n & _ & _ & ->)].
    + intros [= <- _]. simpl in *. intuition lia.
    + unfold try_catch. rewrite DELETE_store_quiet by done.
      paths; by intros [= <- _].
Qed.

Lemma no_500_without_failure_witness :
  status (failure 404 "School not found") <> 500.
Proof.
  assert (Hq : quiet Sample.at_noon) by (intros n; split; reflexivity).
  apply (no_500_without_failure Sample.verify Sample.at_noon
           (Sample.request None ∅) (lit "9") Sample.w0 _
           (snd (GET Sample.at_noon (Sample.request None ∅) (lit "9") Sample.w0))
           Hq).
  right. left. reflexivity.
Defined.

(** X4.  PUT and DELETE give back every client they take from the pool:
    over the operations a call adds to the log, under every environment,
    no client stays checked out. *)
Theorem mutations_release_their_client verifyToken E request id w :
  (exists ops,
     log (snd (PUT verifyToken E request id w)) = log w ++ ops
     /\ held E (length (log w)) ops = 0)
  /\ (exists ops,
        log (snd (DELETE verifyToken E request id w)) = log w ++ ops
        /\ held E (length (log w)) ops = 0).
Proof.
  split.
  - destruct (PUT_gates verifyToken E request id w)
      as [(code & msg & _ & ->) | (uid & n & form & nm & a & c & st & e & k
                                   & _ & _ & _ & _ & ->)].
    { exists []. simpl. by rewrite app_nil_r. }
    unfold try_catch, ret. rewrite PUT_store_run.
    paths; simpl; eexists; (split; [reflexivity |]); simpl; use_faults; lia.
  - destruct (DELETE_gates verifyToken E request id w)
      as [(code & msg & _ & ->) | (uid & n & _ & _ & ->)].
    { exists []. simpl. by rewrite app_nil_r. }
    unfold try_catch, ret. rewrite DELETE_store_run.
    paths; simpl; eexists; (split; [reflexivity |]); simpl; use_faults; lia.
Qed.

(** X5.  GET gives its client back unless its query fails: when the
    connection is had and the query then throws, the [catch] answers 500
    without [client.release()], and the client stays checked out. *)
Theorem GET_keeps_client_when_query_fails E request id w :
  exists ops,
    log (snd (GET E request id w)) = log w ++ ops
    /\ held E (length (log w)) ops =
         match parseInt id with
         | NaN => 0
         | Num _ =>
             if negb (fault E (length (log w)))
                && fault E (S (length (log w)))
             then 1 else 0
         end.
Proof.
  destruct (parseInt id) as [| n] eqn:Hid.
  - rewrite GET_bad_id by done. exists []. simpl. by rewrite app_nil_r.
  - rewrite (GET_run E request id n) by done.
    paths; simpl; eexists; (split; [reflexivity |]); simpl; use_faults; simpl; lia.
Qed.

(** X6.  A PUT or DELETE that answers failure has written nothing, also
    when the store fails half-way: with no other writer, the store after
    a failed call is the store before it. *)
Theorem failed_mutation_writes_nothing verifyToken E request id w r w' :
  undisturbed E ->
  PUT verifyToken E request id w = (Return r, w')
  \/ DELETE verifyToken E request id w = (Return r, w') ->
  success r = false ->
  db w' = db w.
Proof.
  intros Hu [Hrun | Hrun]; revert Hrun.
  - destruct (PUT_gates verifyToken E request id w)
      as [(code & msg & _ & ->) | (uid & n & form & nm & a & c & st & e & k
                                   & _ & _ & _ & _ & ->)].
    { by intros [= <- <-]. }
    unfold try_catch, ret. rewrite PUT_store_run.
    paths; intros [= <- <-]; simpl; intros Hs; try discriminate;
      by rewrite ?Hu.
  - destruct (DELETE_gates verifyToken E request id w)
      as [(code & msg & _ & ->) | (uid & n & _ & _ & ->)].
    { by intros [= <- <-]. }
    unfold try_catch, ret. rewrite DELETE_store_run.
    paths; intros [= <- <-]; simpl; intros Hs; try discriminate;
      by rewrite ?Hu.
Qed.

Lemma failed_mutation_writes_nothing_witness :
  db (snd (PUT Sample.verify Cases.write_fails
             (Sample.request (Some "alice") Sample.form_ok) (lit "7") Sample.w0))
  = Sample.db0.
Proof.
  eapply (failed_mutation_writes_nothing Sample.verify Cases.write_fails
            (Sample.request (Some "alice") Sample.form_ok) (lit "7") Sample.w0
            (failure 500 "Failed to update school")).
  - intros n d. reflexivity.
  - left. reflexivity.
  - reflexivity.
Defined.

(** X7.  GET is read-only: under every environment it issues no
    statement that writes, and with no other writer the store after the
    call is the store before it, whether the call fails or not. *)
Theorem GET_is_read_only E request id w :
  (exists ops,
     log (snd (GET E request id w)) = log w ++ ops
     /\ Forall (fun o => writes o = false) ops)
  /\ (undisturbed E -> db (snd (GET E request id w)) = db w).
Proof.
  destruct (parseInt id) as [| n] eqn:Hid.
  - rewrite GET_bad_id by done. simpl. split; [| done].
    exists []. by rewrite app_nil_r.
  - rewrite (GET_run E request id n) by done. split.
    + paths; simpl; eexists; (split; [reflexivity |]); by repeat constructor.
    + intros Hu. paths; simpl; by rewrite ?Hu.
Qed.

Lemma GET_is_read_only_witness :
  db (snd (GET Sample.at_noon (Sample.request None ∅) (lit "7") Sample.w0))
  = Sample.db0.
Proof.
  apply (proj2 (GET_is_read_only Sample.at_noon (Sample.request None ∅)
                  (lit "7") Sample.w0)).
  intros n d. reflexivity.
Defined.

(** ** What a mutation leaves alone *)

(** X8.  With no other writer, a PUT (whether it succeeds, is refused or
    fails) leaves the users and the one-time passcodes alone, adds and
    removes no school, and changes no school but the one addressed; of
    that one it keeps [created_by], [created_at] and [image]: a PUT never
    moves a school to another owner. *)
Theorem PUT_touches_one_row verifyToken E request id w :
  undisturbed E ->
  let d' := db (snd (PUT verifyToken E request id w)) in
  app_users d' = app_users (db w)
  /\ otp_verifications d' = otp_verifications (db w)
  /\ dom (schools d') = dom (schools (db w))
  /\ forall j s,
       schools (db w) !! j = Some s ->
       exists s',
         schools d' !! j = Some s'
         /\ created_by s' = created_by s
         /\ created_at s' = created_at s
         /\ image s' = image s
         /\ (parseInt id <> Num j -> s' = s).
Proof.
  intros Hu.
  assert (Hsame : forall d, d = db w ->
            app_users d = app_users (db w)
            /\ otp_verifications d = otp_verifications (db w)
            /\ dom (schools d) = dom (schools (db w))
            /\ forall j s, schools (db w) !! j = Some s ->
                 exists s', schools d !! j = Some s'
                   /\ created_by s' = created_by s /\ created_at s' = created_at s
                   /\ image s' = image s /\ (parseInt id <> Num j -> s' = s)).
  { intros d ->. repeat split; try done. intros j s Hs. by exists s. }
  destruct (PUT_gates verifyToken E request id w)
    as [(code & msg & _ & ->) | (uid & n & form & nm & a & c & st & e & k
                                 & _ & Hid & _ & _ & ->)].
  { by apply Hsame. }
  unfold try_catch, ret. rewrite PUT_store_run. cbv zeta. rewrite !Hu.
  paths; cbn [snd db]; try (by apply Hsame).
  cbn [with_schools app_users otp_verifications schools].
  split; [done |]. split; [done |]. split.
  - apply dom_insert_lookup_L. by eexists.
  - intros j sj Hsj. destruct (decide (j = n)) as [-> | Hj].
    + rewrite lookup_insert_eq. eexists. split; [done |].
      match goal with
      | H : schools (db w) !! n = Some ?x |- _ =>
          assert (x = sj) as -> by congruence
      end.
      repeat split; try done; intros Hne; by rewrite Hid in Hne.
    + rewrite lookup_insert_ne by done. by exists sj.
Qed.

Lemma PUT_touches_one_row_witness :
  schools (db (snd (PUT Sample.verify Sample.at_noon
                      (Sample.request (Some "alice") Sample.form_ok)
                      (lit "7") Sample.w0))) !! 8
  = Some Sample.school_anon.
Proof.
  assert (Hu : undisturbed Sample.at_noon) by (intros n d; reflexivity).
  destruct (PUT_touches_one_row Sample.verify Sample.at_noon
              (Sample.request (Some "alice") Sample.form_ok) (lit "7")
              Sample.w0 Hu) as (_ & _ & _ & H).
  destruct (H 8 Sample.school_anon eq_refl) as (s' & Hs' & _ & _ & _ & Heq).
  rewrite Hs'. f_equal. apply Heq. discriminate.
Defined.

(** X9.  With no other writer, a DELETE leaves the users, the one-time
    passcodes and every school but the one addressed alone; the addressed
    row is gone exactly when the answer is success. *)
Theorem DELETE_touches_one_row verifyToken E request id w r w' :
  undisturbed E ->
  DELETE verifyToken E request id w = (Return r, w') ->
  app_users (db w') = app_users (db w)
  /\ otp_verifications (db w') = otp_verifications (db w)
  /\ (forall j, parseInt id <> Num j ->
                schools (db w') !! j = schools (db w) !! j)
  /\ (forall n, parseInt id = Num n ->
                schools (db w') !! n
                = if success r then None else schools (db w) !! n).
Proof.
  intros Hu.
  destruct (DELETE_gates verifyToken E request id w)
    as [(code & msg & _ & ->) | (uid & n & _ & Hid & ->)].
  { intros [= <- <-]. simpl. repeat split; done. }
  unfold try_catch, ret. rewrite DELETE_store_run. cbv zeta. rewrite !Hu.
  paths; intros [= <- <-]; cbn [snd db success failure ok_message];
    try (repeat split; done).
  cbn [with_schools app_users otp_verifications schools].
  repeat split; try done.
  - intros j Hj. apply lookup_delete_ne. intros ->. by rewrite Hid in Hj.
  - intros n' Hn'. assert (n' = n) as -> by congruence.
    apply lookup_delete_eq.
Qed.

Lemma DELETE_touches_one_row_witness :
  schools (db (snd (DELETE Sample.verify Sample.at_noon
                      (Sample.request (Some "alice") ∅) (lit "7")
                      Sample.w0))) !! 8
  = Some Sample.school_anon.
Proof.
  assert (Hu : undisturbed Sample.at_noon) by (intros n d; reflexivity).
  destruct (DELETE_touches_one_row Sample.verify Sample.at_noon
              (Sample.request (Some "alice") ∅) (lit "7") Sample.w0
              (ok_message "School deleted successfully" None)
              (snd (DELETE Sample.verify Sample.at_noon
                      (Sample.request (Some "alice") ∅) (lit "7") Sample.w0))
              Hu eq_refl) as (_ & _ & H & _).
  rewrite (H 8); [reflexivity | discriminate].
Defined.

(** ** How the handlers compose *)

(** X10.  A PUT repeated is a PUT: when a PUT has succeeded, the same
    request sent again (with the same time stamp) gets the same answer and
    leaves the store as the first left it. *)
Theorem PUT_twice verifyToken E E' request id w r w1 :
  quiet E -> quiet E' ->
  PUT verifyToken E request id w = (Return r, w1) ->
  success r = true ->
  clock E' (S (S (length (log w1)))) = clock E (S (S (length (log w)))) ->
  fst (PUT verifyToken E' request id w1) = Return r
  /\ db (snd (PUT verifyToken E' request id w1)) = db w1.
Proof.
  intros Hq Hq' Hrun Hok Hclock.
  destruct (PUT_success verifyToken E request id w r w1 Hrun Hok)
    as (uid & n & form & nm & a & c & st & e & k & Hauth & Hid & Hform & Hv & Hst).
  rewrite (PUT_valid_form verifyToken E' request id w1 uid n form nm a c st e k)
    by done.
  unfold try_catch. rewrite PUT_store_quiet by done.
  rewrite PUT_store_quiet in Hst by done.
  destruct (schools (db w) !! n) as [s |] eqn:Hs.
  2:{ injection Hst as <- <-. discriminate. }
  destruct (decide (created_by s = Some uid)) as [Ho | Ho].
  2:{ injection Hst as <- <-. discriminate. }
  cbv zeta in Hst. injection Hst as <- <-. cbn [db with_schools schools].
  rewrite lookup_insert_eq.
  rewrite decide_True by done. cbv zeta. cbn [fst snd db log].
  cbn [log] in Hclock. rewrite Hclock.
  assert (Hsame : updated_row
            (updated_row s nm a c st k e (clock E (S (S (length (log w))))))
            nm a c st k e (clock E (S (S (length (log w)))))
          = updated_row s nm a c st k e (clock E (S (S (length (log w)))))) by done.
  rewrite Hsame. split; [done |].
  unfold with_schools. cbn. by rewrite insert_insert_eq.
Qed.

Lemma PUT_twice_witness :
  db (snd (PUT Sample.verify Sample.at_noon
             (Sample.request (Some "alice") Sample.form_ok) (lit "7")
             (snd (PUT Sample.verify Sample.at_noon
                     (Sample.request (Some "alice") Sample.form_ok) (lit "7")
                     Sample.w0))))
  = db (snd (PUT Sample.verify Sample.at_noon
               (Sample.request (Some "alice") Sample.form_ok) (lit "7")
               Sample.w0)).
Proof.
  assert (Hq : quiet Sample.at_noon) by (intros n; split; reflexivity).
  exact (proj2 (PUT_twice Sample.verify Sample.at_noon Sample.at_noon
                  (Sample.request (Some "alice") Sample.form_ok) (lit "7")
                  Sample.w0 _ _ Hq Hq eq_refl eq_refl eq_refl)).
Defined.

(** X11.  What PUT answers is what GET then reads: after a PUT that
    succeeded, whatever happened around it, a GET of the same id on the
    store it left returns the row the PUT returned, joined with the
    owner's e-mail. *)
Theorem PUT_then_GET verifyToken E request id w r w' E' request' l :
  PUT verifyToken E request id w = (Return r, w') ->
  success r = true ->
  quiet E' ->
  exists n s',
    parseInt id = Num n
    /\ data r = Some (RowSchool n s')
    /\ fst (GET E' request' id {| db := db w'; log := l |})
       = Return (ok_data (Some (RowSchoolWithOwner n s'
                                  (owner_email (db w') s')))).
Proof.
  intros Hrun Hok Hq.
  destruct (PUT_success verifyToken E request id w r w' Hrun Hok)
    as (uid & n & form & nm & a & c & st & e & k & _ & Hid & _ & _ & Hst).
  revert Hst. rewrite PUT_store_run.
  paths; intros [= <- <-]; try discriminate.
  eexists n, _. split; [done |]. split; [reflexivity |].
  rewrite (GET_quiet E' request' id n) by done.
  cbn [db with_schools schools]. by rewrite lookup_insert_eq.
Qed.

Lemma PUT_then_GET_witness :
  exists n s',
    parseInt (lit "7") = Num n
    /\ data (ok_message "School updated successfully"
               (Some (RowSchool 7
                  (updated_row Sample.school_x (lit "Y") (lit "2 Rd") (lit "D")
                     (lit "T") 5559876 (lit "y@y.org") 1200))))
       = Some (RowSchool n s')
    /\ fst (GET Sample.at_noon (Sample.request None ∅) (lit "7")
              {| db := db (snd (PUT Sample.verify Sample.at_noon
                                  (Sample.request (Some "alice") Sample.form_ok)
                                  (lit "7") Sample.w0));
                 log := [] |})
       = Return (ok_data (Some (RowSchoolWithOwner n s'
                   (owner_email
                      (db (snd (PUT Sample.verify Sample.at_noon
                                  (Sample.request (Some "alice") Sample.form_ok)
                                  (lit "7") Sample.w0))) s')))).
Proof.
  assert (Hq : quiet Sample.at_noon) by (intros n; split; reflexivity).
  exact (PUT_then_GET Sample.verify Sample.at_noon
           (Sample.request (Some "alice") Sample.form_ok) (lit "7") Sample.w0
           _ (snd (PUT Sample.verify Sample.at_noon
                     (Sample.request (Some "alice") Sample.form_ok) (lit "7")
                     Sample.w0))
           Sample.at_noon (Sample.request None ∅) [] eq_refl eq_refl Hq).
Defined.

(** X12.  A deleted school stays deleted for the mutations too: after a
    DELETE that succeeded, on the store it left, every authenticated
    DELETE of the same id and every authenticated PUT of it with a valid
    form is answered 404, whoever sends it. *)
Theorem deleted_school_cannot_be_mutated verifyToken E request id w r w'
    E' request' uid' l :
  DELETE verifyToken E request id w = (Return r, w') ->
  success r = true ->
  quiet E' ->
  authenticate verifyToken request' = Some uid' ->
  fst (DELETE verifyToken E' request' id {| db := db w'; log := l |})
    = Return (failure 404 "School not found")
  /\ (forall form nm a c st e k,
        formData request' = Some form ->
        valid_fields form nm a c st e k ->
        fst (PUT verifyToken E' request' id {| db := db w'; log := l |})
          = Return (failure 404 "School not found")).
Proof.
  intros Hrun Hok Hq Hauth'.
  destruct (DELETE_success verifyToken E request id w r w' Hrun Hok)
    as (uid & n & Hauth & Hid & Hstore).
  destruct (DELETE_store_success E uid n w r w' Hstore Hok) as (_ & _ & Hdb).
  assert (Hgone : schools (db w') !! n = None).
  { rewrite Hdb. simpl. apply lookup_delete_eq. }
  split.
  - rewrite (DELETE_good_id verifyToken E' request' id _ uid' n) by done.
    unfold try_catch. rewrite DELETE_store_quiet by done.
    cbn [db]. by rewrite Hgone.
  - intros form nm a c st e k Hform Hv.
    rewrite (PUT_valid_form verifyToken E' request' id _ uid' n form nm a c st e k)
      by done.
    unfold try_catch. rewrite PUT_store_quiet by done.
    cbn [db]. by rewrite Hgone.
Qed.

Lemma deleted_school_cannot_be_mutated_witness :
  fst (DELETE Sample.verify Sample.at_noon (Sample.request (Some "alice") ∅)
         (lit "7")
         {| db := db (snd (DELETE Sample.verify Sample.at_noon
                             (Sample.request (Some "alice") ∅) (lit "7")
                             Sample.w0));
            log := [] |})
  = Return (failure 404 "School not found").
Proof.
  assert (Hq : quiet Sample.at_noon) by (intros n; split; reflexivity).
  exact (proj1 (deleted_school_cannot_be_mutated Sample.verify Sample.at_noon
                  (Sample.request (Some "alice") ∅) (lit "7") Sample.w0
                  (ok_message "School deleted successfully" None)
                  (snd (DELETE Sample.verify Sample.at_noon
                          (Sample.request (Some "alice") ∅) (lit "7")
                          Sample.w0))
                  Sample.at_noon (Sample.request (Some "alice") ∅) 1 []
                  eq_refl eq_refl Hq eq_refl)).
Defined.

(** X13.  PUT and DELETE go to the store exactly when the gates before it
    are passed: a PUT adds nothing to the log of operations if and only
    if the caller is not authenticated, or the id is no number, or the
    body is no form, or the form fails validation; a DELETE if and only
    if one of the first two holds. *)
Theorem store_reached_iff_gates_passed verifyToken E request id w :
  (log (snd (PUT verifyToken E request id w)) = log w <->
   ~ exists uid n form nm a c st e k,
       authenticate verifyToken request = Some uid
       /\ parseInt id = Num n
       /\ formData request = Some form
       /\ valid_fields form nm a c st e k)
  /\ (log (snd (DELETE verifyToken E request id w)) = log w <->
      authenticate verifyToken request = None \/ parseInt id = NaN).
Proof.
  assert (Hgrow : forall ops : list Op, ops <> [] -> log w ++ ops <> log w).
  { intros ops Hne Heq. apply (f_equal length) in Heq.
    rewrite length_app in Heq. destruct ops; [done | simpl in Heq; lia]. }
  split.
  - destruct (PUT_gates verifyToken E request id w)
      as [(code & msg & Hcode & Hrun) | (uid & n & form & nm & a & c & st & e & k
                                        & Hauth & Hid & Hform & Hv & Hrun)].
    + split; [| by rewrite Hrun].
      intros _ (uid & n & form & nm & a & c & st & e & k & Hauth & Hid & Hform & Hv).
      rewrite (PUT_valid_form verifyToken E request id w uid n form nm a c st e k)
        in Hrun by done.
      apply (f_equal (fun x => log (snd x))) in Hrun. cbn [snd] in Hrun.
      revert Hrun. unfold try_catch, ret. rewrite PUT_store_run.
      paths; simpl; intros Hw; by apply Hgrow in Hw.
    + split.
      * rewrite Hrun. unfold try_catch, ret. rewrite PUT_store_run.
        paths; simpl; intros Hw; by apply Hgrow in Hw.
      * intros Hno. exfalso. apply Hno.
        by exists uid, n, form, nm, a, c, st, e, k.
  - destruct (authenticate verifyToken request) as [uid |] eqn:Hauth.
    2:{ destruct (DELETE_unauthenticated verifyToken E request id w Hauth)
          as [m ->]. simpl. split; auto. }
    destruct (parseInt id) as [| n] eqn:Hid.
    { rewrite (DELETE_bad_id verifyToken E request id w uid) by done.
      simpl. split; auto. }
    rewrite (DELETE_good_id verifyToken E request id w uid n) by done.
    unfold try_catch, ret. rewrite DELETE_store_run. split.
    + paths; simpl; intros Hw; by apply Hgrow in Hw.
    + intros [? | ?]; done.
Qed.

(** ** Identifiers in paths, and what a PUT can write *)

Section Decimal.

Local Open Scope N_scope.

Lemma digitsOf_value fuel n acc :
  n < 2 ^ N.of_nat fuel ->
  fold_left (fun a c => a * 10 + (c - 48)) (digitsOf fuel n acc) 0
  = fold_left (fun a c => a * 10 + (c - 48)) acc n.
Proof.
  revert n acc. induction fuel as [| fuel IH]; intros n acc Hlt.
  - simpl in *. assert (n = 0) as -> by lia. done.
  - cbn [digitsOf].
    pose proof (N.div_mod n 10 ltac:(lia)) as Hdm.
    pose proof (N.mod_lt n 10 ltac:(lia)) as Hmod.
    destruct (n / 10 =? 0) eqn:Hq.
    + apply N.eqb_eq in Hq. cbn [fold_left].
      f_equal. rewrite Hq in Hdm. clear - Hdm Hmod.
      revert Hdm Hmod. generalize (n mod 10). intros m Hdm Hmod. lia.
    + apply N.eqb_neq in Hq. rewrite IH.
      * cbn [fold_left]. f_equal. clear - Hdm Hmod.
        revert Hdm Hmod. generalize (n mod 10), (n / 10). intros m q Hdm Hmod. lia.
      * replace (N.of_nat (S fuel)) with (N.succ (N.of_nat fuel)) in Hlt by lia.
        rewrite N.pow_succ_r' in Hlt. clear - Hlt Hdm Hmod.
        revert Hlt Hdm Hmod.
        generalize (n mod 10), (n / 10), (2 ^ N.of_nat fuel).
        intros m q p Hlt Hdm Hmod. lia.
Qed.

Lemma digitsOf_digits fuel n acc :
  forallb isDecimalDigit acc = true ->
  forallb isDecimalDigit (digitsOf fuel n acc) = true.
Proof.
  revert n acc. induction fuel as [| fuel IH]; intros n acc Hacc; [done |].
  cbn [digitsOf].
  pose proof (N.mod_lt n 10 ltac:(lia)) as Hmod.
  assert (Hd : forallb isDecimalDigit ((48 + n mod 10) :: acc) = true).
  { cbn [forallb]. rewrite Hacc, andb_true_r. unfold isDecimalDigit.
    apply andb_true_iff. revert Hmod. generalize (n mod 10). intros m Hmod.
    split; apply N.leb_le; lia. }
  destruct (n / 10 =? 0); [done |]. by apply IH.
Qed.

Lemma digitsOf_nonempty fuel n acc : digitsOf (S fuel) n acc <> [].
Proof.
  cbn [digitsOf]. destruct (n / 10 =? 0); [done |].
  generalize (n / 10). intros m.
  assert (H : forall f m acc', acc' <> [] -> digitsOf f m acc' <> []).
  { clear. induction f as [| f IH]; intros m acc' Hne; [done |].
    cbn [digitsOf]. destruct (m / 10 =? 0); [done |]. by apply IH. }
  by apply H.
Qed.

Lemma toDecimal_value n : decimalValue (toDecimal n) = n.
Proof.
  unfold decimalValue, toDecimal. rewrite digitsOf_value; [done |].
  rewrite Nat2N.inj_succ, N2Nat.id.
  destruct (decide (n = 0)) as [-> | Hn]; [done |].
  apply N.log2_spec. lia.
Qed.

Lemma parseInt_toDecimal n : parseInt (toDecimal n) = Num (Z.of_N n).
Proof.
  rewrite parseInt_decimal.
  - by rewrite toDecimal_value.
  - apply digitsOf_nonempty.
  - by apply digitsOf_digits.
Qed.

End Decimal.

(** X15.  The id the page prints into the path is the id the route
    reads: for every id from 0 to 2^53, the integers a Number holds one
    by one and prints digit by digit (the ids of the id column, below
    2^31, are among them), [parseInt] of its decimal text is the id, so
    [/api/schools/${schoolId}] addresses the school [schoolId]. *)
Theorem path_id_round_trip (id : Z) :
  0 <= id -> exact_number id = true -> parseInt (show id) = Num id.
Proof.
  intros Hid _. unfold show.
  destruct (id <? 0) eqn:Hneg; [apply Z.ltb_lt in Hneg; lia |].
  rewrite parseInt_toDecimal. f_equal. lia.
Qed.

Lemma path_id_round_trip_witness :
  parseInt (show 7) = Num 7
  /\ parseInt (show 2147483647) = Num 2147483647
  /\ parseInt (show 9007199254740992) = Num 9007199254740992.
Proof.
  split; [| split].
  - apply (path_id_round_trip 7); [lia | reflexivity].
  - apply (path_id_round_trip 2147483647); [lia | reflexivity].
  - apply (path_id_round_trip 9007199254740992); [lia | reflexivity].
Defined.

(** X16.  Whatever a PUT writes has passed the checks: after a PUT that
    answered success, under every environment, the row it returns is the
    row in the store, its four text columns are not empty, its e-mail
    matches the pattern and its contact is above zero. *)
Theorem PUT_writes_valid_rows verifyToken E request id w r w' :
  PUT verifyToken E request id w = (Return r, w') ->
  success r = true ->
  exists n s',
    parseInt id = Num n
    /\ data r = Some (RowSchool n s')
    /\ schools (db w') !! n = Some s'
    /\ name s' <> [] /\ address s' <> [] /\ city s' <> [] /\ state s' <> []
    /\ emailPattern (email_id s')
    /\ 0 < contact s'.
Proof.
  intros Hrun Hok.
  destruct (PUT_success verifyToken E request id w r w' Hrun Hok)
    as (uid & n & form & nm & a & c & st & e & k & _ & Hid & _ & Hv & Hst).
  destruct Hv as (_ & Hn & _ & Ha & _ & Hc & _ & Hs & _ & He & t & _ & _ & Hk).
  revert Hst. rewrite PUT_store_run.
  paths; intros [= <- <-]; try discriminate.
  eexists n, _. split; [done |]. split; [reflexivity |].
  cbn [db with_schools schools]. rewrite lookup_insert_eq.
  split; [done |]. cbn. repeat split; try done.
  by apply localPart_spec in He as (x & y & z & ? & [? | ?] & ?); [| exists x, y, z].
Qed.

Lemma PUT_writes_valid_rows_witness :
  exists n s',
    parseInt (lit "7") = Num n
    /\ data (ok_message "School updated successfully"
               (Some (RowSchool 7
                  (updated_row Sample.school_x (lit "Y") (lit "2 Rd") (lit "D")
                     (lit "T") 5559876 (lit "y@y.org") 1200))))
       = Some (RowSchool n s')
    /\ schools (db (snd (PUT Sample.verify Sample.at_noon
                           (Sample.request (Some "alice") Sample.form_ok)
                           (lit "7") Sample.w0))) !! n = Some s'
    /\ name s' <> [] /\ address s' <> [] /\ city s' <> [] /\ state s' <> []
    /\ emailPattern (email_id s')
    /\ 0 < contact s'.
Proof.
  exact (PUT_writes_valid_rows Sample.verify Sample.at_noon
           (Sample.request (Some "alice") Sample.form_ok) (lit "7") Sample.w0
           _ (snd (PUT Sample.verify Sample.at_noon
                     (Sample.request (Some "alice") Sample.form_ok) (lit "7")
                     Sample.w0))
           eq_refl eq_refl).
Defined.

(** ** The bootstrap when things fail *)

Section BootstrapFaults.

Lemma count_insert (P : Call -> bool) (l : list Call) i a b :
  l !! i = Some a ->
  (length (List.filter P (<[i := b]> l)) + (if P a then 1 else 0)
   = length (List.filter P l) + (if P b then 1 else 0))%nat.
Proof.
  revert i. induction l as [| x l IH]; intros i Hi; [done |].
  destruct i as [| i]; simpl in *.
  - injection Hi as ->. destruct (P a), (P b); simpl; lia.
  - specialize (IH i Hi). destruct (P x); simpl; lia.
Qed.

Lemma count_positive (P : Call -> bool) (l : list Call) i a :
  l !! i = Some a -> P a = true ->
  (1 <= length (List.filter P l))%nat.
Proof.
  revert i. induction l as [| x l IH]; intros i Hi Ha; [done |].
  destruct i as [| i]; simpl in *.
  - injection Hi as ->. rewrite Ha. simpl. lia.
  - specialize (IH i Hi Ha). destruct (P x); simpl; lia.
Qed.

Lemma count_replicate_entered n :
  length (List.filter in_progress (replicate n Entered)) = 0%nat.
Proof. induction n; [done |]. simpl. done. Qed.

(** At most one call is between its connection and its end, and then the
    flag [isInitializing] is set. *)
Lemma one_at_a_time_step s e :
  let k s := length (List.filter in_progress (calls s)) in
  (k s = 0 \/ (k s = 1 /\ isInitializing (proc s) = true))%nat ->
  (k (sys_step s e) = 0
   \/ (k (sys_step s e) = 1 /\ isInitializing (proc (sys_step s e)) = true))%nat.
Proof.
  intros k Hinv. unfold k in *. clear k. unfold sys_step.
  destruct (calls s !! fst e) as [a |] eqn:Ha; [| done].
  destruct (step (snd e) a (proc s)) as [a' p'] eqn:Hstep. cbn [calls proc].
  pose proof (count_insert in_progress (calls s) (fst e) a a' Ha) as Hcount.
  destruct a as [| | rest | |]; simpl in Hstep, Hcount.
  - destruct (isInitialized (proc s) || isInitializing (proc s)) eqn:Hflags.
    + injection Hstep as <- <-. simpl in Hcount.
      destruct Hinv as [H0 | [H1 Hing]]; [left | right; split; [| done]]; lia.
    + injection Hstep as <- <-. simpl in *.
      apply orb_false_iff in Hflags as [_ Hing].
      destruct Hinv as [H0 | [_ H1]]; [| congruence].
      right. split; [lia | done].
  - pose proof (count_positive in_progress _ _ _ Ha eq_refl) as Hpos.
    destruct Hinv as [H0 | [H1 Hing]]; [lia |].
    destruct (snd e); injection Hstep as <- <-; simpl in *.
    + right. split; [lia | done].
    + left. lia.
  - pose proof (count_positive in_progress _ _ _ Ha eq_refl) as Hpos.
    destruct Hinv as [H0 | [H1 Hing]]; [lia |].
    destruct rest as [| s0 rest].
    { injection Hstep as <- <-. simpl in *. left. lia. }
    destruct (if snd e then run_ddl s0 (catalog (proc s)) else None).
    + destruct rest; injection Hstep as <- <-; simpl in *.
      * left. lia.
      * right. split; [lia | done].
    + injection Hstep as <- <-. simpl in *. left. lia.
  - injection Hstep as <- <-. simpl in Hcount.
    destruct Hinv as [H0 | [H1 Hing]]; [left | right; split; [| done]]; lia.
  - injection Hstep as <- <-. simpl in Hcount.
    destruct Hinv as [H0 | [H1 Hing]]; [left | right; split; [| done]]; lia.
Qed.

Lemma one_at_a_time_run sched s :
  let k s := length (List.filter in_progress (calls s)) in
  (k s = 0 \/ (k s = 1 /\ isInitializing (proc s) = true))%nat ->
  (k (run sched s) = 0
   \/ (k (run sched s) = 1 /\ isInitializing (proc (run sched s)) = true))%nat.
Proof.
  intros k. revert s. induction sched as [| e sched IH]; intros s Hinv; [done |].
  simpl. apply IH. by apply one_at_a_time_step.
Qed.

End BootstrapFaults.

(** X17.  The flags serialize the bootstrap: however many calls are made
    and however they interleave and fail, at most one of them is between
    its [pool.connect()] and its end at any time. *)
Theorem one_call_at_a_time n c sched :
  (length (List.filter in_progress (calls (run sched (start n c)))) <= 1)%nat.
Proof.
  pose proof (one_at_a_time_run sched (start n c)) as H. cbv zeta in H.
  destruct H as [H | [H _]]; [| lia | lia].
  left. simpl. apply count_replicate_entered.
Qed.

Section Wedged.

Lemma wedged_step s e c :
  proc s = {| isInitializing := true; isInitialized := false; catalog := c |} ->
  calls s !! 0%nat = Some Rejected ->
  Forall (fun a => in_progress a = false) (calls s) ->
  proc (sys_step s e)
    = {| isInitializing := true; isInitialized := false; catalog := c |}
  /\ calls (sys_step s e) !! 0%nat = Some Rejected
  /\ Forall (fun a => in_progress a = false) (calls (sys_step s e)).
Proof.
  intros Hp H0 Hall. unfold sys_step.
  destruct (calls s !! fst e) as [a |] eqn:Ha; [| done].
  assert (Hidle : in_progress a = false) by (eapply Forall_lookup in Hall; eauto).
  rewrite Hp.
  assert (Hstep : exists a',
            step (snd e) a
              {| isInitializing := true; isInitialized := false; catalog := c |}
            = (a', {| isInitializing := true; isInitialized := false;
                      catalog := c |})
            /\ in_progress a' = false /\ (a = Rejected -> a' = Rejected)).
  { destruct a; simpl in *; try done; eexists; repeat split; done. }
  destruct Hstep as (a' & -> & Hidle' & Hrej). cbn [proc calls].
  split; [done |]. split.
  - destruct (decide (fst e = 0%nat)) as [He | He].
    + rewrite He in *. rewrite list_lookup_insert_eq by (by eapply lookup_lt_Some).
      f_equal. apply Hrej. congruence.
    + by rewrite list_lookup_insert_ne.
  - by apply Forall_insert.
Qed.

Lemma wedged_run sched s c :
  proc s = {| isInitializing := true; isInitialized := false; catalog := c |} ->
  calls s !! 0%nat = Some Rejected ->
  Forall (fun a => in_progress a = false) (calls s) ->
  proc (run sched s)
    = {| isInitializing := true; isInitialized := false; catalog := c |}
  /\ calls (run sched s) !! 0%nat = Some Rejected
  /\ Forall (fun a => in_progress a = false) (calls (run sched s)).
Proof.
  revert s. induction sched as [| e sched IH]; intros s Hp H0 Hall; [done |].
  simpl. destruct (wedged_step s e c Hp H0 Hall) as (? & ? & ?). by apply IH.
Qed.

End Wedged.

(** X18.  [pool.connect()] is awaited before the [try]: when the first
    connection fails, the call throws with [isInitializing] still set, and
    from then on, whatever is called and however often, no call connects
    or runs a statement; the schema stays as it was and [isInitialized]
    stays false. *)
Theorem failed_connection_blocks_bootstrap n c sched :
  (0 < n)%nat ->
  let s := run ((0%nat, true) :: (0%nat, false) :: sched) (start n c) in
  proc s = {| isInitializing := true; isInitialized := false; catalog := c |}
  /\ calls s !! 0%nat = Some Rejected
  /\ Forall (fun a => in_progress a = false) (calls s).
Proof.
  intros Hn. destruct n as [| n]; [lia |].
  cbv zeta. change (run ((0%nat, true) :: (0%nat, false) :: sched) (start (S n) c))
    with (run sched {| proc := {| isInitializing := true; isInitialized := false;
                                  catalog := c |};
                      calls := Rejected :: replicate n Entered |}).
  apply wedged_run; try done. simpl. constructor; [done |].
  apply Forall_forall. intros a Ha. by apply elem_of_replicate in Ha as [-> _].
Qed.

Lemma failed_connection_blocks_bootstrap_witness :
  catalog (proc (run [(0, true); (0, false); (1, true); (2, true); (1, true)]%nat
                   (start 3 empty_catalog)))
  = empty_catalog.
Proof.
  assert (Hn : (0 < 3)%nat) by lia.
  pose proof (failed_connection_blocks_bootstrap 3 empty_catalog
                [(1, true); (2, true); (1, true)]%nat Hn) as [Hp _].
  cbv zeta in Hp. by rewrite Hp.
Defined.

Section Retry.

Lemma statements_all_agree x y :
  In x statements -> In y statements -> agree x y.
Proof.
  unfold statements. simpl.
  intros [<- | [<- | [<- | [<- | [<- | [<- | []]]]]]]
         [<- | [<- | [<- | [<- | [<- | [<- | []]]]]]]; simpl; try done.
Qed.

Lemma exec_app l1 l2 c :
  exec (l1 ++ l2) c =
    match exec l1 c with
    | Some c' => exec l2 c'
    | None => None
    end.
Proof.
  revert c. induction l1 as [| s l1 IH]; intros c; simpl; [done |].
  destruct (run_ddl s c); [apply IH | done].
Qed.

(** What is done stays done: with a prefix of the statements in place,
    running all six ends where running the rest ends. *)
Lemma exec_resume done_ rest c c1 :
  Forall (fun s => established s c) done_ ->
  exec rest c = Some c1 ->
  exec (done_ ++ rest) c = Some c1.
Proof.
  intros Hdone Hrest. rewrite exec_app, exec_noop by done. done.
Qed.

Lemma run_steps_settled oks a p :
  settled a = true -> run_steps oks a p = (a, p).
Proof. intros Ha. destruct oks; simpl; [done |]. by rewrite Ha. Qed.

Lemma run_steps_querying c1 oks rest done_ ck a' p' :
  rest <> [] ->
  statements = done_ ++ rest ->
  Forall (fun s => established s ck) done_ ->
  exec rest ck = Some c1 ->
  run_steps oks (Querying rest)
    {| isInitializing := true; isInitialized := false; catalog := ck |}
  = (a', p') ->
  settled a' = true ->
  (a' = Resolved /\ p' = ready c1)
  \/ (a' = Rejected /\ exists ck', p' = fresh ck' /\ exec statements ck' = Some c1).
Proof.
  revert rest done_ ck.
  induction oks as [| ok oks IH]; intros rest done_ ck Hne Hsplit Hdone Hex Hrun Hset.
  { simpl in Hrun. injection Hrun as <- <-. done. }
  destruct rest as [| s rest]; [done |].
  simpl in Hex. destruct (run_ddl s ck) as [ck' |] eqn:Hddl; [| done].
  destruct ok; cbn [run_steps settled step catalog] in Hrun.
  - rewrite Hddl in Hrun. destruct rest as [| s' rest].
    + simpl in Hex. injection Hex as ->.
      rewrite run_steps_settled in Hrun by done. injection Hrun as <- <-.
      by left.
    + cbn [isInitializing isInitialized] in Hrun.
      apply (IH (s' :: rest) (done_ ++ [s]) ck'); try done.
      * by rewrite <- app_assoc.
      * apply Forall_app. split.
        -- apply Forall_forall. intros d Hd.
           apply (established_kept d s ck ck'); [| | done].
           ++ apply statements_all_agree; rewrite Hsplit; apply in_or_app.
              ** left. by apply list_elem_of_In.
              ** right. by left.
           ++ eapply Forall_forall in Hdone; eauto.
        -- constructor; [| constructor]. by eapply run_ddl_establishes.
  - rewrite run_steps_settled in Hrun by done. injection Hrun as <- <-.
    right. split; [done |]. exists ck. split; [done |].
    rewrite Hsplit. apply exec_resume; [done |]. simpl. by rewrite Hddl.
Qed.

End Retry.

(** X19.  One call, with any of its awaited operations failing.  If the
    six statements can run on the schema [c]: a call that returns has run
    them all and set [isInitialized]; a call that throws at the
    connection leaves [isInitializing] set; a call that throws at a
    statement clears the flag in its [finally], and the next call then
    completes the schema. *)
Theorem bootstrap_call_outcomes c c1 oks a p :
  exec statements c = Some c1 ->
  run_steps oks Entered (fresh c) = (a, p) ->
  settled a = true ->
  (a = Resolved /\ p = ready c1)
  \/ (a = Rejected
      /\ p = {| isInitializing := true; isInitialized := false; catalog := c |})
  \/ (a = Rejected
      /\ isInitializing p = false /\ isInitialized p = false
      /\ initializeDatabase p = (Resolved, ready c1)).
Proof.
  intros Hex Hrun Hset.
  destruct oks as [| ok0 oks]; [simpl in Hrun; by injection Hrun as <- <- |].
  cbn [run_steps settled step fresh isInitialized isInitializing orb catalog] in Hrun.
  destruct oks as [| ok1 oks]; [simpl in Hrun; by injection Hrun as <- <- |].
  cbn [run_steps settled step] in Hrun.
  destruct ok1.
  - destruct (run_steps_querying c1 oks statements [] c a p) as [Hres | Hrej];
      try done.
    + by left.
    + right. right. destruct Hrej as (-> & ck & -> & Hck).
      repeat split; try done. by apply initializeDatabase_fresh.
  - rewrite run_steps_settled in Hrun by done. injection Hrun as <- <-.
    right. left. done.
Qed.

Lemma bootstrap_call_outcomes_witness :
  initializeDatabase
    (snd (run_steps [true; true; true; true; false] Entered (fresh empty_catalog)))
  = (Resolved, ready Sample.schema).
Proof.
  destruct (bootstrap_call_outcomes empty_catalog Sample.schema
              [true; true; true; true; false] _ _
              exec_statements_schema eq_refl eq_refl)
    as [[H _] | [[_ H] | (_ & _ & _ & H)]].
  - discriminate H.
  - discriminate H.
  - exact H.
Defined.

Section Growth.

Lemma run_ddl_grows s c c' :
  run_ddl s c = Some c' ->
  tables c ⊆ tables c'
  /\ triggers c ⊆ triggers c'
  /\ forall f, (forall b, s <> CreateOrReplaceFunction f b) ->
               functions c' !! f = functions c !! f.
Proof.
  destruct s as [t | f0 b0 | n tg]; simpl.
  - destruct (tables c !! tbl_name t) eqn:Ht.
    + by intros [= <-].
    + destruct (references_ok c t); [| done]. intros [= <-]. simpl.
      repeat split; try done. by apply insert_subseteq.
  - intros [= <-]. simpl. repeat split; try done.
    intros f Hf. apply lookup_insert_ne. intros ->. by apply (Hf b0).
  - destruct (triggers c !! n) eqn:Hn.
    + by intros [= <-].
    + destruct (tables c !! trg_table tg); [| done].
      destruct (functions c !! trg_function tg); [| done].
      intros [= <-]. simpl. repeat split; try done. by apply insert_subseteq.
Qed.

Lemma exec_grows l c c' :
  exec l c = Some c' ->
  tables c ⊆ tables c'
  /\ triggers c ⊆ triggers c'
  /\ forall f, (forall b, ~ In (CreateOrReplaceFunction f b) l) ->
               functions c' !! f = functions c !! f.
Proof.
  revert c. induction l as [| s l IH]; intros c Hex; simpl in Hex.
  - by injection Hex as <-.
  - destruct (run_ddl s c) as [c'' |] eqn:Hrun; [| done].
    destruct (run_ddl_grows s c c'' Hrun) as (Ht & Hg & Hf).
    destruct (IH c'' Hex) as (Ht' & Hg' & Hf').
    split; [by etrans |]. split; [by etrans |].
    intros f Hno. rewrite Hf', Hf; [done | |].
    + intros b ->. apply (Hno b). by left.
    + intros b Hin. apply (Hno b). by right.
Qed.

End Growth.

(** X20.  The bootstrap only adds.  When the six statements have run,
    every table and every trigger that was there before is there
    unchanged ([IF NOT EXISTS] never redefines one), every function but
    [update_updated_at_column] is as it was, and the three tables, the
    function and the two triggers of [database.ts] exist. *)
Theorem bootstrap_only_adds c c1 :
  exec statements c = Some c1 ->
  tables c ⊆ tables c1
  /\ triggers c ⊆ triggers c1
  /\ (forall f, f <> "update_updated_at_column" ->
                functions c1 !! f = functions c !! f)
  /\ Forall (fun s => established s c1) statements.
Proof.
  intros Hex. destruct (exec_grows statements c c1 Hex) as (Ht & Hg & Hf).
  repeat split; try done.
  - intros f Hne. apply Hf. intros b. unfold statements. simpl.
    intros [H | [H | [H | [H | [H | [H | []]]]]]]; try discriminate.
    injection H as H _. by apply Hne.
  - eapply exec_establishes; [apply statements_agree | done].
Qed.

Lemma bootstrap_only_adds_witness :
  tables empty_catalog ⊆ tables Sample.schema
  /\ triggers empty_catalog ⊆ triggers Sample.schema
  /\ (forall f, f <> "update_updated_at_column" ->
                functions Sample.schema !! f = functions empty_catalog !! f)
  /\ Forall (fun s => established s Sample.schema) statements.
Proof.
  exact (bootstrap_only_adds empty_catalog Sample.schema exec_statements_schema).
Defined.

(** ** Referential integrity *)

(** X21.  [ON DELETE CASCADE] on [otp_verifications.user_id]: removing a
    user removes exactly the one-time passcodes of that user; every other
    passcode stays as it was. *)
Theorem user_removal_takes_their_passcodes now uid d i o :
  is_Some (app_users d !! uid) ->
  otp_verifications (delete_user now uid d) !! i = Some o
  <-> otp_verifications d !! i = Some o /\ user_id o <> Some uid.
Proof.
  intros [u Hu]. unfold delete_user. rewrite Hu. cbn [otp_verifications].
  rewrite otp_on_delete. unfold apply_ref_action.
  by rewrite map_lookup_filter_Some.
Qed.

Lemma user_removal_takes_their_passcodes_witness :
  otp_verifications (delete_user 1100 1 Sample.db0) !! 1 = None.
Proof.
  assert (Hu : is_Some (app_users Sample.db0 !! 1)) by (eexists; reflexivity).
  destruct (otp_verifications (delete_user 1100 1 Sample.db0) !! 1) as [o |] eqn:Ho;
    [| reflexivity].
  apply (user_removal_takes_their_passcodes 1100 1 Sample.db0 1 o Hu) in Ho
    as [Ho Hne].
  exfalso. apply Hne. vm_compute in Ho. by injection Ho as <-.
Defined.

Lemma sample_references_hold : references_hold Sample.db0.
Proof.
  split.
  - intros i s u Hs Hcb.
    destruct (decide (i = 7)) as [-> | H7].
    + vm_compute in Hs. injection Hs as <-. injection Hcb as <-.
      eexists. reflexivity.
    + destruct (decide (i = 8)) as [-> | H8].
      * vm_compute in Hs. injection Hs as <-. discriminate Hcb.
      * unfold Sample.db0 in Hs. cbn [schools] in Hs.
        rewrite lookup_insert_ne in Hs by done.
        by rewrite lookup_singleton_ne in Hs.
  - intros i o u Ho Hcb.
    destruct (decide (i = 1)) as [-> | H1].
    + vm_compute in Ho. injection Ho as <-. injection Hcb as <-.
      eexists. reflexivity.
    + unfold Sample.db0 in Ho. cbn [otp_verifications] in Ho.
      by rewrite lookup_singleton_ne in Ho.
Qed.

(** X22.  Removing a user keeps the foreign keys: if every [created_by]
    and every [user_id] named a user before, they do so afterwards; no
    row is left pointing at the user that is gone. *)
Theorem user_removal_keeps_references now uid d :
  references_hold d -> references_hold (delete_user now uid d).
Proof.
  intros [Hs Ho]. unfold delete_user.
  destruct (app_users d !! uid) as [u |] eqn:Hu; [| done].
  rewrite schools_on_delete, otp_on_delete. unfold apply_ref_action.
  split; cbn [schools otp_verifications app_users].
  - intros i s' v. rewrite lookup_fmap.
    destruct (schools d !! i) as [s |] eqn:Hsi; [| done]. simpl.
    intros [= <-].
    destruct (decide (created_by s = Some uid)) as [Heq | Hne]; [done |].
    intros Hv. rewrite lookup_delete_ne by congruence. by eapply Hs.
  - intros i o v [Hoi Hne]%map_lookup_filter_Some Hv. simpl in Hne.
    rewrite lookup_delete_ne by congruence. by eapply Ho.
Qed.

Lemma user_removal_keeps_references_witness :
  references_hold (delete_user 1100 1 Sample.db0).
Proof.
  apply user_removal_keeps_references. exact sample_references_hold.
Defined.

Section Shapes.

Variable verifyToken : jsstring -> option Z.
Variable E : Env.

(** With no other writer, the store after a PUT is the store before it,
    or that store with one row rewritten. *)
Lemma PUT_db_cases request id w :
  undisturbed E ->
  db (snd (PUT verifyToken E request id w)) = db w
  \/ exists n s nm a c st k e t,
       schools (db w) !! n = Some s
       /\ db (snd (PUT verifyToken E request id w))
          = with_schools (db w)
              (<[n := updated_row s nm a c st k e t]> (schools (db w))).
Proof.
  intros Hu.
  destruct (PUT_gates verifyToken E request id w)
    as [(code & msg & _ & ->) | (uid & n & form & nm & a & c & st & e & k
                                 & _ & _ & _ & _ & ->)]; [by left |].
  unfold try_catch, ret. rewrite PUT_store_run. cbv zeta. rewrite !Hu.
  paths; cbn [snd db]; try (by left).
  right. by eexists n, _, nm, a, c, st, k, e, _.
Qed.

(** With no other writer, the store after a DELETE is the store before
    it, or that store without one row. *)
Lemma DELETE_db_cases request id w :
  undisturbed E ->
  db (snd (DELETE verifyToken E request id w)) = db w
  \/ exists n,
       db (snd (DELETE verifyToken E request id w))
       = with_schools (db w) (delete n (schools (db w))).
Proof.
  intros Hu.
  destruct (DELETE_gates verifyToken E request id w)
    as [(code & msg & _ & ->) | (uid & n & _ & _ & ->)]; [by left |].
  unfold try_catch, ret. rewrite DELETE_store_run. cbv zeta. rewrite !Hu.
  paths; cbn [snd db]; try (by left).
  right. by exists n.
Qed.

End Shapes.

(** X23.  The handlers keep the foreign keys: with no other writer, if
    every [created_by] and [user_id] names a user before a PUT or a
    DELETE, it does so after it. *)
Theorem mutations_keep_references verifyToken E request id w :
  undisturbed E ->
  references_hold (db w) ->
  references_hold (db (snd (PUT verifyToken E request id w)))
  /\ references_hold (db (snd (DELETE verifyToken E request id w))).
Proof.
  intros Hu [Hs Ho]. split.
  - destruct (PUT_db_cases verifyToken E request id w Hu)
      as [-> | (n & s & nm & a & c & st & k & e & t & Hn & ->)]; [done |].
    split; cbn [with_schools schools app_users otp_verifications]; [| done].
    intros i s' u Hi Hcb. destruct (decide (i = n)) as [-> | Hne].
    + rewrite lookup_insert_eq in Hi. injection Hi as <-. simpl in Hcb.
      by eapply Hs.
    + rewrite lookup_insert_ne in Hi by done. by eapply Hs.
  - destruct (DELETE_db_cases verifyToken E request id w Hu) as [-> | (n & ->)];
      [done |].
    split; cbn [with_schools schools app_users otp_verifications]; [| done].
    intros i s' u Hi Hcb. apply lookup_delete_Some in Hi as [_ Hi].
    by eapply Hs.
Qed.

Lemma mutations_keep_references_witness :
  references_hold
    (db (snd (DELETE Sample.verify Sample.at_noon
                (Sample.request (Some "alice") ∅) (lit "7") Sample.w0))).
Proof.
  assert (Hu : undisturbed Sample.at_noon) by (intros n d; reflexivity).
  apply (mutations_keep_references Sample.verify Sample.at_noon
           (Sample.request (Some "alice") ∅) (lit "7") Sample.w0 Hu).
  exact sample_references_hold.
Defined.

(** X24.  When the foreign keys hold, the join of GET finds the creator
    of every school that has one: in a successful answer
    [created_by_email] is null exactly when [created_by] is null. *)
Theorem GET_names_every_owner E request id w r w' :
  quiet E ->
  references_hold (db w) ->
  GET E request id w = (Return r, w') ->
  success r = true ->
  exists n s em,
    data r = Some (RowSchoolWithOwner n s em)
    /\ schools (db w) !! n = Some s
    /\ (em = None <-> created_by s = None).
Proof.
  intros Hq [Hs _] Hrun Hok.
  destruct (parseInt id) as [| n] eqn:Hid.
  { rewrite GET_bad_id in Hrun by done. injection Hrun as <- <-. discriminate. }
  rewrite (GET_quiet E request id n) in Hrun by done.
  destruct (schools (db w) !! n) as [s |] eqn:Hn.
  2:{ injection Hrun as <- <-. discriminate. }
  injection Hrun as <- <-. exists n, s, (owner_email (db w) s).
  split; [done |]. split; [done |]. unfold owner_email.
  destruct (created_by s) as [u |] eqn:Hcb; [| done].
  destruct (Hs n s u Hn Hcb) as [usr ->]. done.
Qed.

Lemma GET_names_every_owner_witness :
  exists n s em,
    data (ok_data (Some (RowSchoolWithOwner 7 Sample.school_x
                           (Some (lit "a@x.com")))))
      = Some (RowSchoolWithOwner n s em)
    /\ schools (db Sample.w0) !! n = Some s
    /\ (em = None <-> created_by s = None).
Proof.
  assert (Hq : quiet Sample.at_noon) by (intros n; split; reflexivity).
  assert (Href : references_hold (db Sample.w0)) by exact sample_references_hold.
  exact (GET_names_every_owner Sample.at_noon (Sample.request None ∅) (lit "7")
           Sample.w0 _ _ Hq Href eq_refl eq_refl).
Defined.

(** ** The schools page *)

Section SearchBox.

Lemma sanitize_harmless value :
  Forall (fun c => harmful c = false) (sanitize value).
Proof.
  unfold sanitize. induction value as [| c value IH]; simpl; [constructor |].
  destruct (harmful c) eqn:Hc; simpl; [done |]. by constructor.
Qed.

Lemma sanitize_length value : (length (sanitize value) <= length value)%nat.
Proof.
  unfold sanitize. induction value as [| c value IH]; simpl; [done |].
  destruct (harmful c); simpl; lia.
Qed.

Lemma sanitize_clean value :
  Forall (fun c => harmful c = false) value -> sanitize value = value.
Proof.
  unfold sanitize. induction 1 as [| c value Hc _ IH]; simpl; [done |].
  rewrite Hc. simpl. by rewrite IH.
Qed.

Lemma typed_from values q :
  Forall (fun c => harmful c = false) q ->
  (length q <= 100)%nat ->
  let q' := fold_left (fun q v => fst (handleSearchChange v q)) values q in
  Forall (fun c => harmful c = false) q' /\ (length q' <= 100)%nat.
Proof.
  revert q. induction values as [| v values IH]; intros q Hq Hlen; [done |].
  simpl. apply IH; unfold handleSearchChange;
    destruct (100 <? length v)%nat eqn:Hv; simpl; try done.
  - apply sanitize_harmless.
  - apply Nat.ltb_ge in Hv. pose proof (sanitize_length v). lia.
Qed.

End SearchBox.

(** X25.  The search query never holds an angle bracket, an apostrophe
    or a double quote, and never more than 100 code units, whatever is
    typed or pasted: an input of more than 100 code units is dropped and
    the query stays as it was, any other input is stored with the four
    characters removed, and unchanged when it holds none of them. *)
Theorem search_query_stays_clean values :
  (Forall (fun c => harmful c = false) (typed values)
   /\ (length (typed values) <= 100)%nat)
  /\ (forall value q, (100 < length value)%nat ->
                      fst (handleSearchChange value q) = q)
  /\ (forall value q, (length value <= 100)%nat ->
                      Forall (fun c => harmful c = false) value ->
                      handleSearchChange value q = (value, None)).
Proof.
  split; [| split].
  - unfold typed. apply typed_from; [constructor | simpl; lia].
  - intros value q Hlen. unfold handleSearchChange.
    by replace (100 <? length value)%nat with true
      by (symmetry; by apply Nat.ltb_lt).
  - intros value q Hlen Hclean. unfold handleSearchChange.
    replace (100 <? length value)%nat with false
      by (symmetry; by apply Nat.ltb_ge).
    by rewrite sanitize_clean.
Qed.

Lemma search_query_stays_clean_witness :
  handleSearchChange (lit "oak") (lit "x") = (lit "oak", None)
  /\ typed [lit "<b>oak</b>"] = lit "boak/b".
Proof.
  split.
  - apply (search_query_stays_clean []); [simpl; lia |].
    repeat constructor.
  - reflexivity.
Defined.

Section Search.

Variable toLowerCase : jsstring -> jsstring.

Lemma startsWith_spec q s :
  startsWith q s = true <-> exists b, s = q ++ b.
Proof.
  revert s. induction q as [| c q IH]; intros s; simpl.
  - split; [by exists s | done].
  - destruct s as [| d s]; [split; [done | by intros [b Hb]] |].
    rewrite andb_true_iff, N.eqb_eq, IH. split.
    + intros [-> [b ->]]. by exists b.
    + intros [b [= -> ->]]. split; [done | by exists b].
Qed.

Lemma includes_spec s q :
  includes s q = true <-> exists a b, s = a ++ q ++ b.
Proof.
  induction s as [| x s IH]; simpl.
  - rewrite orb_false_r, startsWith_spec. split.
    + intros [b Hb]. by exists [], b.
    + intros (a & b & Hs). destruct a; [by exists b | done].
  - rewrite orb_true_iff, startsWith_spec, IH. split.
    + intros [[b Hb] | (a & b & ->)].
      * by exists [], b.
      * by exists (x :: a), b.
    + intros (a & b & Hs). destruct a as [| y a].
      * left. by exists b.
      * right. injection Hs as -> ->. by exists a, b.
Qed.

Lemma lower_includes_lowered field query :
  lower_includes toLowerCase field query
  = existsb (fun t => includes t query) (lowered toLowerCase field).
Proof. destruct field; simpl; by rewrite ?orb_false_r. Qed.

Lemma shown_searched query school :
  shown toLowerCase query school
  = existsb (fun t => includes t query) (searched toLowerCase school).
Proof.
  unfold shown, searched. rewrite !existsb_app, !lower_includes_lowered.
  rewrite <- !orb_assoc. do 5 f_equal.
  destruct (v_contact school), (v_created_by_email school) as [[| c e] |];
    simpl; by rewrite ?orb_false_r.
Qed.

Lemma filter_sublist {A} (P : A -> bool) (l : list A) :
  sublist (List.filter P l) l.
Proof.
  induction l as [| x l IH]; simpl; [done |].
  destruct (P x); by constructor.
Qed.

End Search.

(** X26.  What the filter shows.  A blank query shows every school.
    Otherwise a school is shown exactly when one of its texts (name,
    address, city, state, e-mail and creator's e-mail in lower case, the
    contact as it is) contains the trimmed, lower-cased query as a
    contiguous piece.  The filtered list keeps the order of the list. *)
Theorem filter_shows_matching_schools toLowerCase schools searchQuery :
  let query := trim (toLowerCase searchQuery) in
  (trim searchQuery = [] \/ query = [] ->
   filteredSchools toLowerCase schools searchQuery = schools)
  /\ (trim searchQuery <> [] -> query <> [] ->
      forall school,
        In school (filteredSchools toLowerCase schools searchQuery)
        <-> In school schools
            /\ exists t, In t (searched toLowerCase school)
                         /\ exists a b, t = a ++ query ++ b)
  /\ sublist (filteredSchools toLowerCase schools searchQuery) schools.
Proof.
  intros query. unfold filteredSchools. cbv zeta. fold query. clearbody query.
  destruct (decide (trim searchQuery = [])) as [Hblank | Hblank].
  { rewrite bool_decide_eq_true_2 by done. repeat split; try done. }
  rewrite bool_decide_eq_false_2 by done.
  destruct query as [| c0 rest].
  { simpl. repeat split; try done. }
  cbn [length Nat.ltb Nat.leb]. split; [| split].
  - intros [? | ?]; done.
  - intros _ _ school. rewrite filter_In, shown_searched, existsb_exists.
    split; intros [Hin (t & Ht & Hinc)]; (split; [done |]); exists t;
      (split; [done |]); by apply includes_spec.
  - apply filter_sublist.
Qed.

Lemma filter_shows_matching_schools_witness :
  let found :=
    filteredSchools (fun s => s) (schools_shown Cases.page0) (lit " x@x ") in
  In (view 7 Sample.school_x (Some (lit "a@x.com"))) found
  /\ ~ In (view 8 Sample.school_anon None) found
  /\ sublist found (schools_shown Cases.page0)
  /\ filteredSchools (fun s => s) (schools_shown Cases.page0) (lit "   ")
     = schools_shown Cases.page0.
Proof.
  cbv zeta.
  destruct (filter_shows_matching_schools (fun s => s)
              (schools_shown Cases.page0) (lit " x@x ")) as (_ & Hiff & Hsub).
  cbv zeta in Hiff.
  assert (Hq : trim (lit " x@x ") <> []) by (vm_compute; discriminate).
  split; [| split; [| split]].
  - apply (proj2 (Hiff Hq Hq _)). split; [by left |].
    exists (lit "x@x.com"). split; [simpl; auto 10 |].
    by exists [], (lit ".com").
  - intros Hin. apply (proj1 (Hiff Hq Hq _)) in Hin as [_ (t & Ht & Hpiece)].
    apply includes_spec in Hpiece. simpl in Ht.
    repeat (destruct Ht as [<- | Ht]; [vm_compute in Hpiece; discriminate |]).
    destruct Ht.
  - exact Hsub.
  - apply (filter_shows_matching_schools (fun s => s)
             (schools_shown Cases.page0) (lit "   ")).
    left. reflexivity.
Defined.

Section Guard.

Lemma positive_id id : (id =? 0) || (id <=? 0) = false <-> 0 < id.
Proof.
  rewrite orb_false_iff, Z.eqb_neq, Z.leb_gt. lia.
Qed.

(** The creator's e-mail of the join is the e-mail of a user exactly when
    that user is the creator, e-mails being unique. *)
Lemma owner_email_is_mine d s uid usr :
  emails_unique d ->
  app_users d !! uid = Some usr ->
  owner_email d s = Some (email usr) <-> created_by s = Some uid.
Proof.
  intros Huniq Husr. unfold owner_email. split.
  - destruct (created_by s) as [u |]; [| done].
    destruct (app_users d !! u) as [usr' |] eqn:Hu; [| done].
    intros [= Heq]. f_equal. by eapply Huniq.
  - intros ->. by rewrite Husr.
Qed.

End Guard.

Lemma sample_emails_unique : emails_unique Sample.db0.
Proof.
  intros u v x y Hu Hv Heq.
    destruct (decide (u = 1)) as [-> | Hu1];
      [vm_compute in Hu; injection Hu as <- |
       unfold Sample.db0 in Hu; cbn [app_users] in Hu;
       rewrite lookup_insert_ne in Hu by done;
       destruct (decide (u = 2)) as [-> | Hu2];
         [vm_compute in Hu; injection Hu as <- |
          by rewrite lookup_singleton_ne in Hu]];
    (destruct (decide (v = 1)) as [-> | Hv1];
      [vm_compute in Hv; injection Hv as <- |
       unfold Sample.db0 in Hv; cbn [app_users] in Hv;
       rewrite lookup_insert_ne in Hv by done;
       destruct (decide (v = 2)) as [-> | Hv2];
         [vm_compute in Hv; injection Hv as <- |
          by rewrite lookup_singleton_ne in Hv]]);
    try done; vm_compute in Heq; discriminate.
Qed.

(** X27.  The guard of the page and the check of the route agree.  For
    a school the page holds as the join returned it, and a user whose
    e-mail is unique: [handleEditSchool] goes to the edit page exactly
    when [created_by] of the row is that user, that is, exactly when the
    ownership check of PUT and DELETE would let the user through. *)
Theorem page_guard_agrees_with_route d uid usr id s page :
  emails_unique d ->
  app_users d !! uid = Some usr ->
  0 < id ->
  find_school page id = Some (view id s (owner_email d s)) ->
  handleEditSchool (Some (email usr)) page (Num id)
    = [RouterPush (lit "/edit-school/" ++ show id)]
  <-> strict_ne (created_by s) uid = false.
Proof.
  intros Huniq Husr Hid Hfind. unfold handleEditSchool.
  rewrite (proj2 (positive_id id)) by done.
  rewrite Hfind. cbn [view v_created_by_email].
  unfold not_mine, strict_ne. rewrite negb_false_iff, bool_decide_eq_true.
  rewrite <- (owner_email_is_mine d s uid usr) by done.
  destruct (decide (owner_email d s = Some (email usr))) as [Hmine | Hmine].
  - rewrite bool_decide_eq_true_2 by done. simpl. done.
  - rewrite bool_decide_eq_false_2 by done. simpl. split; [done | done].
Qed.

Lemma page_guard_agrees_with_route_witness :
  handleEditSchool (Some (lit "a@x.com")) (schools_shown Cases.page0) (Num 7)
  = [RouterPush (lit "/edit-school/" ++ show 7)].
Proof.
  apply (page_guard_agrees_with_route Sample.db0 1 (Sample.user "a@x.com") 7
           Sample.school_x (schools_shown Cases.page0) sample_emails_unique);
    reflexivity.
Defined.

Section DeleteFromPage.

Lemma filter_out_id id (l : list SchoolView) :
  Forall (fun v => v_id v <> id)
    (List.filter (fun school => negb (v_id school =? id)) l).
Proof.
  induction l as [| v l IH]; simpl; [constructor |].
  destruct (v_id v =? id) eqn:Hv; simpl; [done |].
  constructor; [by apply Z.eqb_neq | done].
Qed.

Lemma show_parses id : 0 < id -> parseInt (show id) = Num id.
Proof.
  intros Hid. unfold show.
  destruct (id <? 0) eqn:Hneg; [apply Z.ltb_lt in Hneg; lia |].
  rewrite parseInt_toDecimal. f_equal. lia.
Qed.

End DeleteFromPage.

Ltac no_toast_of_success :=
  intros [= <- <- <-]; split;
  [ by left
  | intros [msg Hin]; simpl in Hin;
    repeat (destruct Hin as [Hin | Hin]; [discriminate |]); destruct Hin ].

(** X28.  The page drops a school from its list only when the server has
    deleted it.  [handleDeleteSchool] leaves the list as it was unless it
    shows the success toast; and when it does, the id was positive, the
    row of that id is gone from the store, no school of that id is left
    in the list and the spinner is cleared. *)
Theorem page_drops_only_deleted_schools verifyToken E net cookie confirmed
    user page schoolId w page' effects w' :
  handleDeleteSchool verifyToken E net cookie confirmed user page schoolId w
    = (page', effects, w') ->
  (schools_shown page' = schools_shown page
   \/ exists msg, In (ToastSuccess msg) effects)
  /\ ((exists msg, In (ToastSuccess msg) effects) ->
      exists id,
        schoolId = Num id /\ 0 < id
        /\ schools (db w') !! id = None
        /\ Forall (fun v => v_id v <> id) (schools_shown page')
        /\ deleteLoading page' = None).
Proof.
  unfold handleDeleteSchool.
  destruct schoolId as [| id]; [no_toast_of_success |].
  destruct ((id =? 0) || (id <=? 0)) eqn:Hpos; [no_toast_of_success |].
  apply positive_id in Hpos.
  destruct user as [email |]; [| no_toast_of_success].
  destruct (find_school (schools_shown page) id) as [v |];
    [| no_toast_of_success].
  destruct (not_mine (v_created_by_email v) email); [no_toast_of_success |].
  destruct confirmed; cbn [negb]; [| no_toast_of_success].
  destruct net as [m | handled |]; [no_toast_of_success | no_toast_of_success |].
  destruct (DELETE verifyToken E {| auth_token := cookie; formData := None |}
              (show id) w) as [[response |] w1] eqn:Hdel;
    [| no_toast_of_success].
  destruct (negb ((200 <=? status response) && (status response <=? 299)));
    [no_toast_of_success |].
  destruct (success response) eqn:Hsucc; [| no_toast_of_success].
  intros [= <- <- <-]. split; [right; eexists; by left |]. intros _.
  exists id. split; [done |]. split; [done |].
  destruct (DELETE_success verifyToken E _ _ w response w1 Hdel Hsucc)
    as (uid & n & _ & Hn & Hstore).
  rewrite show_parses in Hn by done. injection Hn as <-.
  destruct (DELETE_store_success E uid id w response w1 Hstore Hsucc)
    as (_ & _ & Hdb).
  split; [rewrite Hdb; simpl; apply lookup_delete_eq |].
  split; [apply filter_out_id | done].
Qed.

Lemma page_drops_only_deleted_schools_witness :
  let run :=
    handleDeleteSchool Sample.verify Sample.at_noon Delivered
      (Some (lit "alice")) true (Some (lit "a@x.com")) Cases.page0 (Num 7)
      Sample.w0 in
  In (ToastSuccess (34%N :: lit "X" ++ 34%N :: lit " deleted successfully!"))
    (snd (fst run))
  /\ schools (db (snd run)) !! 7 = None
  /\ Forall (fun v => v_id v <> 7) (schools_shown (fst (fst run)))
  /\ deleteLoading (fst (fst run)) = None
  /\ schools_shown
       (fst (fst (handleDeleteSchool Sample.verify Sample.at_noon
                    (Aborted true) (Some (lit "alice")) true
                    (Some (lit "a@x.com")) Cases.page0 (Num 7) Sample.w0)))
     = schools_shown Cases.page0.
Proof.
  intros run.
  assert (Hrun : handleDeleteSchool Sample.verify Sample.at_noon Delivered
                   (Some (lit "alice")) true (Some (lit "a@x.com"))
                   Cases.page0 (Num 7) Sample.w0
                 = (fst (fst run), snd (fst run), snd run)).
  { subst run. by destruct (handleDeleteSchool _ _ _ _ _ _ _ _ _) as [[? ?] ?]. }
  assert (Htoast :
            In (ToastSuccess
                  (34%N :: lit "X" ++ 34%N :: lit " deleted successfully!"))
              (snd (fst run))).
  { vm_compute. by left. }
  split; [exact Htoast |].
  destruct (proj2 (page_drops_only_deleted_schools _ _ _ _ _ _ _ _ _ _ _ _ Hrun)
              (ex_intro (fun msg => In (ToastSuccess msg) (snd (fst run)))
                 _ Htoast))
    as (id & [= <-] & _ & Hgone & Hlist & Hload).
  do 3 (split; [done |]).
  destruct (page_drops_only_deleted_schools Sample.verify Sample.at_noon
              (Aborted true) (Some (lit "alice")) true (Some (lit "a@x.com"))
              Cases.page0 (Num 7) Sample.w0 _ _ _ eq_refl) as [[H | [m H]] _].
  - exact H.
  - simpl in H. destruct H as [H | []]. discriminate H.
Defined.

Ltac world_unchanged :=
  intros [= _ _ <-] Hw; by destruct Hw.

(** X29.  The page sends nothing on its own: the world of the server is
    touched by [handleDeleteSchool] only if the id is positive, a user is
    logged in, the list holds a school of that id whose creator's e-mail
    is the user's, and the dialog was confirmed. *)
Theorem page_asks_before_deleting verifyToken E net cookie confirmed user page
    schoolId w page' effects w' :
  handleDeleteSchool verifyToken E net cookie confirmed user page schoolId w
    = (page', effects, w') ->
  w' <> w ->
  exists id email v,
    schoolId = Num id /\ 0 < id
    /\ user = Some email
    /\ find_school (schools_shown page) id = Some v
    /\ v_created_by_email v = Some email
    /\ confirmed = true.
Proof.
  unfold handleDeleteSchool.
  destruct schoolId as [| id]; [world_unchanged |].
  destruct ((id =? 0) || (id <=? 0)) eqn:Hpos; [world_unchanged |].
  apply positive_id in Hpos.
  destruct user as [email |]; [| world_unchanged].
  destruct (find_school (schools_shown page) id) as [v |] eqn:Hfind;
    [| world_unchanged].
  destruct (not_mine (v_created_by_email v) email) eqn:Hmine;
    [world_unchanged |].
  destruct confirmed; cbn [negb]; [| world_unchanged].
  intros _ _. exists id, email, v. repeat split; try done.
  unfold not_mine in Hmine. apply negb_false_iff in Hmine.
  by apply bool_decide_eq_true in Hmine.
Qed.

Lemma page_asks_before_deleting_witness :
  exists id email v,
    Num 7 = Num id /\ 0 < id
    /\ Some (lit "a@x.com") = Some email
    /\ find_school (schools_shown Cases.page0) id = Some v
    /\ v_created_by_email v = Some email
    /\ true = true.
Proof.
  apply (page_asks_before_deleting Sample.verify Sample.at_noon Delivered
           (Some (lit "alice")) true (Some (lit "a@x.com")) Cases.page0 (Num 7)
           Sample.w0 _ _ _ eq_refl).
  intros Hw. apply (f_equal (fun x => length (log x))) in Hw.
  vm_compute in Hw. discriminate Hw.
Defined.

(** A delete that times out on the way back: the row is gone from the
    store while the page still lists the school. *)
Example timed_out_delete :
  let '(page', effects, w') :=
    handleDeleteSchool Sample.verify Sample.at_noon (Aborted true)
      (Some (lit "alice")) true (Some (lit "a@x.com")) Cases.page0 (Num 7)
      Sample.w0 in
  schools (db w') !! 7 = None
  /\ List.map v_id (schools_shown page') = [7; 8]
  /\ effects = [ToastError (lit "Delete operation timed out. Please try again.")].
Proof. repeat split; vm_compute; reflexivity. Qed.

(** ** The e-mail check *)

(** X14.  The e-mail check of PUT accepts exactly the texts [a@b.c] in
    which [a], [b] and [c] are not empty and hold no white space and no
    [@]; [b] and [c] may hold further dots. *)
Theorem email_check_accepts (s : jsstring) :
  emailRegex_test s = true <->
  exists a b c : jsstring,
    s = a ++ 64%N :: b ++ 46%N :: c
    /\ a <> [] /\ b <> [] /\ c <> []
    /\ Forall (fun x => isWhiteSpace x = false /\ x <> 64%N) (a ++ b ++ c).
Proof.
  assert (Hclass : forall l,
            Forall (fun x => notSpaceAt x = true) l
            <-> Forall (fun x => isWhiteSpace x = false /\ x <> 64%N) l).
  { intros l. apply Forall_iff. intros x. unfold notSpaceAt.
    rewrite negb_true_iff, orb_false_iff, N.eqb_neq. done. }
  unfold emailRegex_test. rewrite localPart_spec. split.
  - intros (a & b & c & -> & [? | Ha] & Hb & Hc & Fa & Fb & Fc); [done |].
    exists a, b, c. repeat split; try done.
    rewrite !Forall_app. by rewrite <- !Hclass.
  - intros (a & b & c & -> & Ha & Hb & Hc & Hall).
    rewrite !Forall_app in Hall. rewrite <- !Hclass in Hall.
    exists a, b, c. intuition.
Qed.

Lemma email_check_accepts_witness : emailRegex_test (lit "x@x.com") = true.
Proof.
  apply (proj2 (email_check_accepts (lit "x@x.com"))).
  exists (lit "x"), (lit "x"), (lit "com").
  repeat split; try discriminate.
  repeat constructor; discriminate.
Defined.

Lemma store_reached_iff_gates_passed_witness :
  log (snd (DELETE Sample.verify Sample.at_noon (Sample.request None ∅)
              (lit "7") Sample.w0))
  = log Sample.w0.
Proof.
  apply (proj2 (proj2 (store_reached_iff_gates_passed Sample.verify
                         Sample.at_noon (Sample.request None ∅) (lit "7")
                         Sample.w0))).
  left. reflexivity.
Defined.

(** * Reading and updating a school, over the ranges of the columns *)

Section Ranges.

Lemma log_at (l r : list Op) (j : nat) : (l ++ r) !! (length l + j)%nat = r !! j.
Proof. rewrite lookup_app_r by lia. f_equal. lia. Qed.

Lemma log_at_0 (l : list Op) o r : (l ++ o :: r) !! length l = Some o.
Proof. by rewrite <- (Nat.add_0_r (length l)), log_at. Qed.

Lemma log_at_1 (l : list Op) o1 o2 r :
  (l ++ o1 :: o2 :: r) !! S (length l) = Some o2.
Proof. replace (S (length l)) with (length l + 1)%nat by lia. by rewrite log_at. Qed.


End Ranges.

(** C4, as stated, fails for an id that is no number and for an id the
    column cannot hold: no school has the id [abc], yet the answer is 400,
    not 404; and the server refuses the statement that compares [id] with
    2147483648, which is answered 500, not 404. *)
Lemma get_with_unusable_id :
  parseInt (lit "abc") = NaN
  /\ GET Sample.at_noon (Sample.request None ∅) (lit "abc") Sample.w0
     = (Return (failure 400 "Invalid school ID"), Sample.w0)
  /\ parseInt (lit "2147483648") = Num 2147483648
  /\ int4 2147483648 = false
  /\ schools Sample.db0 !! 2147483648 = None
  /\ orderly Cases.query_fails Sample.w0
       (snd (GET Cases.query_fails (Sample.request None ∅)
               (lit "2147483648") Sample.w0))
  /\ fst (GET Cases.query_fails (Sample.request None ∅)
            (lit "2147483648") Sample.w0)
     = Return (failure 500 "Failed to fetch school").
Proof.
  do 5 (split; [vm_compute; reflexivity |]).
  split; [| vm_compute; reflexivity].
  split; [done |].
  intros i _. destruct i as [| [| [| i]]]; vm_compute; reflexivity.
Qed.

(** C4 (amended).  GET /schools/{id} reads neither the cookie nor the
    body, so it answers every caller alike, and it leaves the store as it
    was.  With the store failing only where it refuses a parameter out of
    range: an id that is no number is answered 400; an id outside the 32
    bits of the id column is answered 500; otherwise the answer is 404
    when no school has the id, and else the stored row with the e-mail of
    the user [created_by] names, null when [created_by] is null or names
    no user. *)
Theorem getSchool_outcome E request id w :
  orderly E w (snd (GET E request id w)) ->
  (forall request', GET E request' id w = GET E request id w)
  /\ match parseInt id with
     | NaN =>
         fst (GET E request id w) = Return (failure 400 "Invalid school ID")
     | Num n =>
         if int4 n then
           match schools (db w) !! n with
           | None =>
               fst (GET E request id w)
                 = Return (failure 404 "School not found")
           | Some s =>
               fst (GET E request id w)
                 = Return (ok_data (Some (RowSchoolWithOwner n s
                     match created_by s with
                     | None => None
                     | Some u => email <$> app_users (db w) !! u
                     end)))
           end
         else
           fst (GET E request id w)
             = Return (failure 500 "Failed to fetch school")
     end
  /\ db (snd (GET E request id w)) = db w.
Proof.
  intros [Hu Hf]. split; [reflexivity |].
  destruct (parseInt id) as [| n] eqn:Hid.
  { by rewrite GET_bad_id. }
  revert Hf. rewrite (GET_run E request id n w Hid). cbv zeta.
  rewrite !Hu.
  destruct (fault E (length (log w))) eqn:F0.
  { intros Hf. specialize (Hf (length (log w)) ltac:(lia)).
    cbn [snd log] in Hf. rewrite log_at_0, F0 in Hf. done. }
  destruct (fault E (S (length (log w)))) eqn:F1.
  - intros Hf. specialize (Hf (S (length (log w))) ltac:(lia)).
    cbn [snd log] in Hf. rewrite log_at_1, F1 in Hf. cbn [fits] in Hf.
    destruct (int4 n); [done |]. done.
  - intros Hf.
    assert (Hn : int4 n = true).
    { specialize (Hf (S (length (log w))) ltac:(lia)).
      destruct (schools (db w) !! n); cbn [snd log] in Hf;
        rewrite log_at_1, F1 in Hf; cbn [fits] in Hf;
        by destruct (int4 n). }
    rewrite Hn.
    destruct (schools (db w) !! n) as [s |]; [| done].
    split; [| done]. cbn [fst]. unfold owner_email.
    destruct (created_by s) as [u |]; [| done].
    by destruct (app_users (db w) !! u).
Qed.

Lemma getSchool_outcome_witness :
  fst (GET Sample.at_noon (Sample.request None ∅) (lit "7") Sample.w0)
    = Return (ok_data (Some (RowSchoolWithOwner 7 Sample.school_x
                               (Some (lit "a@x.com")))))
  /\ fst (GET Sample.at_noon (Sample.request None ∅) (lit "8") Sample.w0)
     = Return (ok_data (Some (RowSchoolWithOwner 8 Sample.school_anon None)))
  /\ fst (GET Sample.at_noon (Sample.request None ∅) (lit "9") Sample.w0)
     = Return (failure 404 "School not found")
  /\ fst (GET Cases.query_fails (Sample.request None ∅) (lit "2147483648")
            Sample.w0)
     = Return (failure 500 "Failed to fetch school").
Proof.
  assert (Hq : forall id,
            parseInt id <> NaN ->
            match parseInt id with Num n => int4 n = true | NaN => True end ->
            orderly Sample.at_noon Sample.w0
              (snd (GET Sample.at_noon (Sample.request None ∅) id Sample.w0))).
  { intros id Hid Hn. split; [done |]. intros i _.
    destruct (parseInt id) as [| n] eqn:Hp; [done |].
    rewrite (GET_run Sample.at_noon _ id n Sample.w0 Hp). cbv zeta.
    change (fault Sample.at_noon _) with false. cbv iota.
    destruct (schools _ !! n); cbn [snd log Sample.w0 app];
      destruct i as [| [| [| i]]]; cbn; by rewrite ?Hn. }
  assert (Hr : orderly Cases.query_fails Sample.w0
            (snd (GET Cases.query_fails (Sample.request None ∅)
                    (lit "2147483648") Sample.w0))).
  { split; [done |]. intros i _.
    destruct i as [| [| [| i]]]; vm_compute; reflexivity. }
  split; [| split; [| split]].
  - exact (proj1 (proj2 (getSchool_outcome Sample.at_noon
                           (Sample.request None ∅) (lit "7") Sample.w0
                           (Hq (lit "7") ltac:(discriminate) eq_refl)))).
  - exact (proj1 (proj2 (getSchool_outcome Sample.at_noon
                           (Sample.request None ∅) (lit "8") Sample.w0
                           (Hq (lit "8") ltac:(discriminate) eq_refl)))).
  - exact (proj1 (proj2 (getSchool_outcome Sample.at_noon
                           (Sample.request None ∅) (lit "9") Sample.w0
                           (Hq (lit "9") ltac:(discriminate) eq_refl)))).
  - exact (proj1 (proj2 (getSchool_outcome Cases.query_fails
                           (Sample.request None ∅) (lit "2147483648")
                           Sample.w0 Hr))).
Defined.




